(** * Dataset loaders of [edit_dataset.py]

    A shallow embedding of the three dataset classes of [edit_dataset.py]
    ([EpicEditDataset], [EditDataset], [EditDatasetEval]) and of the Python,
    PIL, torch and torchvision operations they call.

    Conventions of the embedding:
    - Python [int]s are [Z]; sizes handed to PIL and torchvision
      (resolutions, crop size) are [nat];
    - the split proportions are Python [float]s, binary64 numbers
      ([spec_float] with precision 53): their sum, their products with a
      length and the floor of these are computed bit for bit, rounding to
      nearest with ties to even;
    - tensor elements are binary32 numbers ([spec_float] with precision 24),
      computed bit for bit;
    - the flip probability, which is only compared with a random number, is
      a rational;
    - every method runs in a state-and-exception monad over the disk, the
      two random generators, the log of the files opened and the messages
      handed to the logger. *)

From Stdlib Require Import ZArith NArith QArith List String Ascii Bool Lia.
From Stdlib Require Import Permutation Lqa Qabs.
From Stdlib Require Import Strings.Byte Floats.SpecFloat.
Import ListNotations.

Set Implicit Arguments.
Close Scope Q_scope.

(** ** Exceptions and the monad *)

Inductive exn : Type :=
| AssertionError
| IndexError
| KeyError (key : string)
| FileNotFoundError (path : string)
| DecodeError (path : string)   (* json.JSONDecodeError, PIL.UnidentifiedImageError *)
| ValueError
| OverflowError
| RuntimeError
| EinopsError.

Inductive result (A : Type) : Type :=
| Ok (a : A)
| Raise (e : exn).
Arguments Ok {A} a.
Arguments Raise {A} e.

Definition is_ok {A} (r : result A) : bool :=
  match r with Ok _ => true | Raise _ => false end.

(** A computation reads and updates a state [S] and returns or raises. *)
Definition M (S A : Type) : Type := S -> result A * S.

Definition ret {S A} (a : A) : M S A := fun s => (Ok a, s).
Definition raise {S A} (e : exn) : M S A := fun s => (Raise e, s).
Definition bind {S A B} (c : M S A) (k : A -> M S B) : M S B :=
  fun s => match c s with
           | (Ok a, s') => k a s'
           | (Raise e, s') => (Raise e, s')
           end.
Definition gets {S A} (f : S -> A) : M S A := fun s => (Ok (f s), s).
Definition modify {S} (f : S -> S) : M S unit := fun s => (Ok tt, f s).
Definition lift_result {S A} (r : result A) : M S A := fun s => (r, s).

Declare Scope monad_scope.
Delimit Scope monad_scope with monad.
Notation "x <- c ;; k" := (bind c (fun x => k))
  (at level 61, c at next level, right associativity) : monad_scope.
Notation "' p <- c ;; k" := (bind c (fun x => let p := x in k))
  (at level 61, p pattern, c at next level, right associativity) : monad_scope.
Notation "c ;;; k" := (bind c (fun _ => k))
  (at level 61, right associativity) : monad_scope.
Open Scope monad_scope.

(** [assert cond] of Python. *)
Definition assert_ {S} (b : bool) : M S unit :=
  if b then ret tt else raise AssertionError.

(** ** Python lists *)

(** A slice bound [k] of a list of length [n]: negative bounds count from
    the end, and every bound is clamped to [0 .. n]. *)
Definition slice_bound (n k : Z) : Z :=
  if (k <? 0)%Z then Z.max (k + n) 0 else Z.min k n.

(** [l[i:j]]. *)
Definition pyslice {A} (l : list A) (i j : Z) : list A :=
  let n := Z.of_nat (List.length l) in
  let a := slice_bound n i in
  let b := slice_bound n j in
  firstn (Z.to_nat (b - a)) (skipn (Z.to_nat a) l).

(** [l[i]]: a negative index counts from the end, an index outside
    [-n .. n-1] raises [IndexError]. *)
Definition pyindex {A} (l : list A) (i : Z) : result A :=
  let n := Z.of_nat (List.length l) in
  let k := if (i <? 0)%Z then (i + n)%Z else i in
  if ((0 <=? k) && (k <? n))%Z then
    match nth_error l (Z.to_nat k) with
    | Some a => Ok a
    | None => Raise IndexError
    end
  else Raise IndexError.

(** ** Python floats

    A [float] is a binary64 number. Its operations are those of IEEE 754:
    the exact result rounded to nearest, ties to even. *)
Definition f64 : Type := spec_float.

(** [float(z)] for an [int]. *)
Definition f64_of_Z (z : Z) : f64 := binary_normalize 53 1024 z 0 false.
Definition f64_add : f64 -> f64 -> f64 := SFadd 53 1024.
Definition f64_mul : f64 -> f64 -> f64 := SFmul 53 1024.
Definition f64_div : f64 -> f64 -> f64 := SFdiv 53 1024.

(** The literal that is written [num / den] in decimal, as [0.9] is
    [decimal 9 10]: the binary64 number nearest to the quotient. *)
Definition decimal (num den : Z) : f64 := f64_div (f64_of_Z num) (f64_of_Z den).

(** [math.floor(x)]: an [int]; infinities and NaN are refused. *)
Definition math_floor (x : f64) : result Z :=
  match x with
  | S754_zero _ => Ok 0%Z
  | S754_finite s m e => Ok (Z.shiftl (cond_Zopp s (Z.pos m)) e)
  | S754_infinity _ => Raise OverflowError
  | S754_nan => Raise ValueError
  end.

(** [math.floor(x * n)] for a float [x] and an [int] [n]: [n] is converted
    to a float, the product is rounded, and the rounded product is floored. *)
Definition floor_times (x : f64) (n : Z) : result Z :=
  math_floor (f64_mul x (f64_of_Z n)).

(** [math.floor(x * len(l))]. *)
Definition floor_times_len {A} (x : f64) (l : list A) : result Z :=
  floor_times x (Z.of_nat (List.length l)).

(** [sum(splits)]: the items are added to [0] one after the other, from
    left to right, each addition rounded (the [sum] of CPython before
    3.12, which the repository's environment uses). *)
Definition sum_splits (splits : f64 * f64 * f64) : f64 :=
  let '(s0, s1, s2) := splits in
  f64_add (f64_add (f64_add (f64_of_Z 0) s0) s1) s2.

(** [sum(splits) == 1]. *)
Definition sums_to_one (splits : f64 * f64 * f64) : bool :=
  SFeqb (sum_splits splits) (f64_of_Z 1).

(** ** Strings: decimal numbers, format specs and paths *)

Definition digit_char (d : N) : ascii := ascii_of_N (48 + d).

Fixpoint digits_fuel (fuel : nat) (n : N) : list ascii :=
  match fuel with
  | O => []
  | S f =>
      if (n <? 10)%N then [digit_char n]
      else digits_fuel f (n / 10) ++ [digit_char (n mod 10)]
  end.

(** The decimal digits of [n], most significant first, no leading zero. *)
Definition digits (n : N) : list ascii :=
  digits_fuel (S (N.to_nat (N.log2 n))) n.

Definition str_of_N (n : N) : string := string_of_list_ascii (digits n).

(** [str(z)] for an [int]. *)
Definition str_of_Z (z : Z) : string :=
  ((if (z <? 0)%Z then "-" else EmptyString) ++ str_of_N (Z.abs_N z))%string.

Fixpoint zeros (k : nat) : string :=
  match k with O => EmptyString | S k' => String "0" (zeros k') end.

(** [f'{z:0{width}d}']: the sign first, then zeros up to [width]
    characters in all, then the digits; never truncated. *)
Definition format_0d (width : nat) (z : Z) : string :=
  let ds := str_of_N (Z.abs_N z) in
  let sign := (if (z <? 0)%Z then "-" else EmptyString)%string in
  (sign ++ zeros (width - String.length sign - String.length ds) ++ ds)%string.

(** The value of a string of decimal digits. *)
Definition digit_value (c : ascii) : N := (N_of_ascii c - 48)%N.
Definition is_digit (c : ascii) : bool :=
  ((48 <=? N_of_ascii c) && (N_of_ascii c <=? 57))%N.
Definition decimal_value (s : list ascii) : N :=
  fold_left (fun acc c => (10 * acc + digit_value c)%N) s 0%N.

Definition starts_with_slash (s : string) : bool :=
  match s with String "/" _ => true | _ => false end.

Fixpoint ends_with_slash (s : string) : bool :=
  match s with
  | EmptyString => false
  | String c EmptyString => Ascii.eqb c "/"
  | String _ s' => ends_with_slash s'
  end.

(** One step of [os.path.join]: an absolute component replaces what came
    before, otherwise it is appended after a single separator. *)
Definition path_join2 (a b : string) : string :=
  if starts_with_slash b then b
  else if (String.eqb a EmptyString || ends_with_slash a) then (a ++ b)%string
  else (a ++ "/" ++ b)%string.

(** [os.path.join(a, *ps)]. *)
Definition os_path_join (a : string) (ps : list string) : string :=
  fold_left path_join2 ps a.

(** [s.split("/")]. *)
Fixpoint split_slash (s : string) : list string :=
  match s with
  | EmptyString => [EmptyString]
  | String c s' =>
      if Ascii.eqb c "/" then EmptyString :: split_slash s'
      else match split_slash s' with
           | h :: t => String c h :: t
           | [] => [String c EmptyString]
           end
  end.

(** The components pathlib keeps of a path: empty ones and [.] are
    dropped, [..] is not resolved. *)
Definition path_parts (s : string) : list string :=
  filter (fun x => negb (String.eqb x EmptyString) && negb (String.eqb x "."))
         (split_slash s).

(** The root pathlib gives a POSIX path: [/], or [//] when the path starts
    with exactly two separators. *)
Definition path_root (s : string) : string :=
  match s with
  | String "/" (String "/" (String "/" _)) => "/"
  | String "/" (String "/" _) => "//"
  | String "/" _ => "/"
  | _ => EmptyString
  end.

Fixpoint join_slash (parts : list string) : string :=
  match parts with
  | [] => EmptyString
  | [p] => p
  | p :: rest => (p ++ "/" ++ join_slash rest)%string
  end.

(** [str(Path(a, b))] and [str(p.joinpath(b))] where [a] is [str(p)]: an
    absolute [b] replaces [a]; the text is normalised (single separators,
    no [.] component, no trailing separator) and is [.] when nothing is
    left. This is the name [open] reports when the file is missing. *)
Definition Path (a b : string) : string :=
  let '(root, parts) :=
    if starts_with_slash b then (path_root b, path_parts b)
    else (path_root a, path_parts a ++ path_parts b) in
  let text := (root ++ join_slash parts)%string in
  if String.eqb text EmptyString then "."%string else text.

(** ** Images, files and the world *)

(** A decoded JPEG: its mode and its pixels, [pixels[y][x][band]]. *)
Inductive pil_mode : Type := ModeL | ModeRGB | ModeCMYK.

Definition bands (m : pil_mode) : nat :=
  match m with ModeL => 1 | ModeRGB => 3 | ModeCMYK => 4 end.

Record pil_image : Type := {
  mode : pil_mode;
  pixels : list (list (list byte))
}.

(** One row of [EPIC100_annotations.csv], as [pd.read_csv] parses it. *)
Record annotation_row : Type := {
  participant_id : string;
  video_id : string;
  start_frame : Z;
  stop_frame : Z;
  row_narration : string
}.

(** What a path of the disk holds. *)
Inductive file : Type :=
| InfoJson
| AnnotationsCsv (rows : list annotation_row)
| SeedsJson (entries : list (string * list Z))
| PromptJson (fields : list (string * string))
| Jpeg (img : pil_image).

(** The disk, the generators of torch and numpy (an arbitrary sequence of
    draws and a cursor each), the log of the paths opened and the messages
    handed to [logger.info], both oldest first. *)
Record world : Type := {
  disk : string -> option file;
  torch_draws : nat -> nat;
  torch_pos : nat;
  numpy_draws : nat -> nat;
  numpy_pos : nat;
  opened : list string;
  logged : list string
}.

Definition log_open (p : string) (w : world) : world :=
  {| disk := disk w; torch_draws := torch_draws w; torch_pos := torch_pos w;
     numpy_draws := numpy_draws w; numpy_pos := numpy_pos w;
     opened := opened w ++ [p]; logged := logged w |}.

Definition torch_advance (w : world) : world :=
  {| disk := disk w; torch_draws := torch_draws w; torch_pos := S (torch_pos w);
     numpy_draws := numpy_draws w; numpy_pos := numpy_pos w;
     opened := opened w; logged := logged w |}.

Definition numpy_advance (w : world) : world :=
  {| disk := disk w; torch_draws := torch_draws w; torch_pos := torch_pos w;
     numpy_draws := numpy_draws w; numpy_pos := S (numpy_pos w);
     opened := opened w; logged := logged w |}.

Definition log_info (msg : string) (w : world) : world :=
  {| disk := disk w; torch_draws := torch_draws w; torch_pos := torch_pos w;
     numpy_draws := numpy_draws w; numpy_pos := numpy_pos w;
     opened := opened w; logged := logged w ++ [msg] |}.

(** [logger.info(msg)]. *)
Definition logger_info (msg : string) : M world unit := modify (log_info msg).

(** [open(p)]: the path is logged, a missing file raises. *)
Definition open_ (p : string) : M world file :=
  modify (log_open p) ;;;
  d <- gets disk ;;
  match d p with
  | Some f => ret f
  | None => raise (FileNotFoundError p)
  end.

Definition is_json (f : file) : bool :=
  match f with
  | InfoJson | SeedsJson _ | PromptJson _ => true
  | _ => false
  end.

(** [json.load(open(p))] where any JSON document will do. *)
Definition json_load (p : string) : M world file :=
  f <- open_ p ;;
  if is_json f then ret f else raise (DecodeError p).

(** [json.load] of a seed manifest: a list of [name, seeds] pairs. *)
Definition json_load_seeds (p : string) : M world (list (string * list Z)) :=
  f <- open_ p ;;
  match f with
  | SeedsJson entries => ret entries
  | _ => raise (DecodeError p)
  end.

(** [json.load] of a prompt file: an object with string values. *)
Definition json_load_prompt (p : string) : M world (list (string * string)) :=
  f <- open_ p ;;
  match f with
  | PromptJson fields => ret fields
  | _ => raise (DecodeError p)
  end.

(** [prompt[key]]. *)
Fixpoint dict_get (fields : list (string * string)) (key : string) : result string :=
  match fields with
  | [] => Raise (KeyError key)
  | (k, v) :: rest => if String.eqb k key then Ok v else dict_get rest key
  end.

(** [pd.read_csv(p)]. *)
Definition pd_read_csv (p : string) : M world (list annotation_row) :=
  f <- open_ p ;;
  match f with
  | AnnotationsCsv rows => ret rows
  | _ => raise (DecodeError p)
  end.

(** [Image.open(p)]. *)
Definition Image_open (p : string) : M world pil_image :=
  f <- open_ p ;;
  match f with
  | Jpeg img => ret img
  | _ => raise (DecodeError p)
  end.

(** ** Random numbers *)

Definition torch_next : M world nat :=
  r <- gets (fun w => torch_draws w (torch_pos w)) ;;
  modify torch_advance ;;;
  ret r.

(** [torch.randint(lo, hi, ()).item()]: uniform in [lo .. hi-1], an empty
    range raises. *)
Definition torch_randint (lo hi : nat) : M world nat :=
  if hi <=? lo then raise RuntimeError
  else r <- torch_next ;; ret (lo + r mod (hi - lo)).

(** [torch.rand(1) < p]: a number of [0, 1) with 24 random bits. *)
Definition torch_rand_lt (p : Q) : M world bool :=
  r <- torch_next ;;
  let u := (inject_Z (Z.of_nat (r mod 2 ^ 24)) / inject_Z (2 ^ 24))%Q in
  ret (negb (Qle_bool p u)).

Definition numpy_next : M world nat :=
  r <- gets (fun w => numpy_draws w (numpy_pos w)) ;;
  modify numpy_advance ;;;
  ret r.

(** numpy's [random_interval(max)]: a number of [0 .. max]. numpy masks
    the output of its generator and draws again until the masked value is
    at most [max]; the sequence of the world is that of the values it
    accepts, so that one entry is consumed for one call. *)
Definition random_interval (max : nat) : M world nat :=
  r <- numpy_next ;; ret (r mod S max).

Fixpoint list_set {A} (l : list A) (k : nat) (a : A) : list A :=
  match l, k with
  | [], _ => []
  | _ :: t, O => a :: t
  | h :: t, S k' => h :: list_set t k' a
  end.

(** [x[i], x[j] = x[j], x[i]]. *)
Definition swap {A} (i j : nat) (x : list A) : list A :=
  match nth_error x i, nth_error x j with
  | Some xi, Some xj => list_set (list_set x i xj) j xi
  | _, _ => x
  end.

(** The loop of [np.random.shuffle] on a list:
    [for i in reversed(range(1, n)): j = random_interval(i); swap]. *)
Fixpoint shuffle_from {A} (i : nat) (x : list A) : M world (list A) :=
  match i with
  | O => ret x
  | S i' => j <- random_interval i ;; shuffle_from i' (swap i j x)
  end.

Definition np_random_shuffle {A} (x : list A) : M world (list A) :=
  shuffle_from (List.length x - 1) x.

(** ** Tensors *)

(** A binary32 number. *)
Definition f32 : Type := spec_float.
Definition f32_of_Z (z : Z) : f32 := binary_normalize 24 128 z 0 false.
Definition f32_mul : f32 -> f32 -> f32 := SFmul 24 128.
Definition f32_div : f32 -> f32 -> f32 := SFdiv 24 128.
Definition f32_sub : f32 -> f32 -> f32 := SFsub 24 128.

(** A float tensor of three dimensions, [t[c][y][x]]. *)
Definition tensor : Type := list (list (list f32)).

Definition channels (t : tensor) : nat := List.length t.
Definition height (t : tensor) : nat := List.length (hd [] t).
Definition width (t : tensor) : nat := List.length (hd [] (hd [] t)).

(** [2 * v.float() / 255 - 1] on one element of a uint8 array. *)
Definition normalize_pixel (v : byte) : f32 :=
  f32_sub (f32_div (f32_mul (f32_of_Z 2) (f32_of_Z (Z.of_N (Byte.to_N v))))
                   (f32_of_Z 255))
          (f32_of_Z 1).

Definition normalize_hwc (px : list (list (list byte))) : list (list (list f32)) :=
  map (map (map normalize_pixel)) px.

(** [rearrange(a, "h w c -> c h w")] on an array with [c] bands. *)
Definition rearrange_hwc_chw (c : nat) (a : list (list (list f32))) : tensor :=
  map (fun k => map (map (fun p => nth k p (S754_zero false))) a) (seq 0 c).

(** [rearrange(2 * torch.tensor(np.array(img)).float() / 255 - 1, "h w c -> c h w")]:
    the array of a grey image has two dimensions, which the pattern refuses. *)
Definition to_tensor (img : pil_image) : result tensor :=
  match mode img with
  | ModeL => Raise EinopsError
  | m => Ok (rearrange_hwc_chw (bands m) (normalize_hwc (pixels img)))
  end.

(** [torch.cat((a, b))]: along the channels; the other sizes must agree. *)
Definition torch_cat (a b : tensor) : result tensor :=
  if (height a =? height b) && (width a =? width b) then Ok (a ++ b)
  else Raise RuntimeError.

(** [F.crop(t, top, left, h, w)]: [t[..., top:top+h, left:left+w]]. *)
Definition crop (top left h w : nat) (t : tensor) : tensor :=
  map (fun plane => map (fun row => firstn w (skipn left row))
                        (firstn h (skipn top plane))) t.

(** [F.hflip(t)]: the last dimension reversed. *)
Definition hflip (t : tensor) : tensor := map (map (@rev f32)) t.

(** [torchvision.transforms.RandomCrop(size)(t)]. *)
Definition RandomCrop (size : nat) (t : tensor) : M world tensor :=
  let h := height t in
  let w := width t in
  if (h <? size) || (w <? size) then raise ValueError
  else if (w =? size) && (h =? size) then ret (crop 0 0 h w t)
  else
    i <- torch_randint 0 (h - size + 1) ;;
    j <- torch_randint 0 (w - size + 1) ;;
    ret (crop i j size size t).

(** [torchvision.transforms.RandomHorizontalFlip(p)(t)]. *)
Definition RandomHorizontalFlip (p : Q) (t : tensor) : M world tensor :=
  b <- torch_rand_lt p ;;
  ret (if b then hflip t else t).

(** [a, b = t.chunk(2)]: chunks of [ceil(c / 2)] channels; unpacking needs
    exactly two of them. *)
Definition chunk2 (t : tensor) : result (tensor * tensor) :=
  let k := (channels t + 1) / 2 in
  if channels t <? 2 then Raise ValueError
  else Ok (firstn k t, skipn k t).

(** ** Values returned to the caller *)

Unset Elimination Schemes.
Inductive pyval : Type :=
| VTensor (t : tensor)
| VStr (s : string)
| VDict (items : list (string * pyval)).
Set Elimination Schemes.

(** ** The split of a manifest *)

Definition valid_split (split : string) : bool :=
  existsb (String.eqb split) ["train"; "val"; "test"]%string.

(** The dictionary of cumulative proportions, indexed by [split]. *)
Definition split_table (split : string) (splits : f64 * f64 * f64)
  : result (f64 * f64) :=
  let '(s0, s1, _) := splits in
  if String.eqb split "train" then Ok (f64_of_Z 0, s0)
  else if String.eqb split "val" then Ok (s0, f64_add s0 s1)
  else if String.eqb split "test" then Ok (f64_add s0 s1, f64_of_Z 1)
  else Raise (KeyError split).

(** The slice a constructor keeps:
    [l[math.floor(split_0 * len(l)) : math.floor(split_1 * len(l))]]. *)
Definition split_slice {A} (split : string) (splits : f64 * f64 * f64)
    (l : list A) : result (list A) :=
  match split_table split splits with
  | Ok (split_0, split_1) =>
      match floor_times_len split_0 l with
      | Ok idx_0 =>
          match floor_times_len split_1 l with
          | Ok idx_1 => Ok (pyslice l idx_0 idx_1)
          | Raise e => Raise e
          end
      | Raise e => Raise e
      end
  | Raise e => Raise e
  end.

(** ** The three classes *)

(** An entry of [EpicEditDataset.metadata]. *)
Record action : Type := {
  part : string;
  clip : string;
  start : Z;
  stop : Z;
  narration : string
}.

Definition action_of_row (row : annotation_row) : action :=
  {| part := participant_id row; clip := video_id row;
     start := start_frame row; stop := stop_frame row;
     narration := row_narration row |}.

Record EpicEditDataset : Type := {
  epic_basedir : string;
  epic_min_resize_res : nat;
  epic_max_resize_res : nat;
  epic_crop_res : nat;
  epic_flip_prob : Q;
  epic_info : file;
  epic_pre_metadata : list annotation_row;
  epic_metadata : list action
}.

Record EditDataset : Type := {
  edit_path : string;
  edit_min_resize_res : nat;
  edit_max_resize_res : nat;
  edit_crop_res : nat;
  edit_flip_prob : Q;
  edit_seeds : list (string * list Z)
}.

Record EditDatasetEval : Type := {
  eval_path : string;
  eval_res : nat;
  eval_seeds : list (string * list Z)
}.

Definition LENGTH_FRAME_ID : nat := 10.

(** [EpicEditDataset._index_to_img_fn]. *)
Definition _index_to_img_fn (index : Z) : string :=
  ("frame_" ++ format_0d LENGTH_FRAME_ID index ++ ".jpg")%string.

(** The messages of lines 60, 114 and 130. *)
Definition constructed_message (split : string) (n : nat) : string :=
  ("Constructed **" ++ split ++ "** epic-kitchen edit dataset with "
   ++ str_of_Z (Z.of_nat n) ++ " entries.")%string.

Definition constructing_message (split path : string) : string :=
  ("Constructing " ++ split ++ " subset from " ++ path ++ "...")%string.

Definition subset_message (split : string) (n : nat) : string :=
  ("Subset for " ++ split ++ " contains " ++ str_of_Z (Z.of_nat n)
   ++ " samples.")%string.

(** [EpicEditDataset.__init__]. *)
Definition EpicEditDataset_init (path split : string) (splits : f64 * f64 * f64)
    (min_resize_res max_resize_res crop_res : nat) (flip_prob : Q)
  : M world EpicEditDataset :=
  assert_ (valid_split split) ;;;
  assert_ (sums_to_one splits) ;;;
  info <- json_load (Path path "info.json") ;;
  pre_metadata <- pd_read_csv (os_path_join path ["EPIC100_annotations.csv"%string]) ;;
  let metadata := map action_of_row pre_metadata in
  metadata <- np_random_shuffle metadata ;;
  metadata <- lift_result (split_slice split splits metadata) ;;
  logger_info (constructed_message split (List.length metadata)) ;;;
  ret {| epic_basedir := path;
         epic_min_resize_res := min_resize_res;
         epic_max_resize_res := max_resize_res;
         epic_crop_res := crop_res;
         epic_flip_prob := flip_prob;
         epic_info := info;
         epic_pre_metadata := pre_metadata;
         epic_metadata := metadata |}.

(** [EditDataset.__init__]. *)
Definition EditDataset_init (path split : string) (splits : f64 * f64 * f64)
    (min_resize_res max_resize_res crop_res : nat) (flip_prob : Q)
  : M world EditDataset :=
  assert_ (valid_split split) ;;;
  assert_ (sums_to_one splits) ;;;
  seeds <- json_load_seeds (Path path "seeds.json") ;;
  logger_info (constructing_message split path) ;;;
  seeds <- lift_result (split_slice split splits seeds) ;;
  logger_info (subset_message split (List.length seeds)) ;;;
  ret {| edit_path := path;
         edit_min_resize_res := min_resize_res;
         edit_max_resize_res := max_resize_res;
         edit_crop_res := crop_res;
         edit_flip_prob := flip_prob;
         edit_seeds := seeds |}.

(** [EditDatasetEval.__init__]. *)
Definition EditDatasetEval_init (path split : string) (splits : f64 * f64 * f64)
    (res : nat) : M world EditDatasetEval :=
  assert_ (valid_split split) ;;;
  assert_ (sums_to_one splits) ;;;
  seeds <- json_load_seeds (Path path "seeds.json") ;;
  seeds <- lift_result (split_slice split splits seeds) ;;
  ret {| eval_path := path; eval_res := res; eval_seeds := seeds |}.

(** ** Methods

    A method runs on the object and the world together, so that what it
    does to either can be stated. *)

Record state (O : Type) : Type := {
  self : O;
  env : world
}.

Definition liftW {O A} (c : M world A) : M (state O) A :=
  fun s => let (r, w') := c (env s) in (r, {| self := self s; env := w' |}).

Definition get_self {O} : M (state O) O := gets (@self O).

(** [len(obj)]. *)
Definition EpicEditDataset_len : M (state EpicEditDataset) nat :=
  this <- get_self ;; ret (List.length (epic_metadata this)).

Definition EditDataset_len : M (state EditDataset) nat :=
  this <- get_self ;; ret (List.length (edit_seeds this)).

Definition EditDatasetEval_len : M (state EditDatasetEval) nat :=
  this <- get_self ;; ret (List.length (eval_seeds this)).

Section WithPIL.

(** The Lanczos resampling of PIL, from an image to one of [r] by [r]
    pixels: the library's own filter, a parameter of the methods. *)
Variable resample : nat -> pil_image -> pil_image.

(** [img.resize((r, r), Image.Resampling.LANCZOS)]: PIL refuses a size
    that is not positive. *)
Definition Image_resize (r : nat) (img : pil_image) : result pil_image :=
  if r =? 0 then Raise ValueError else Ok (resample r img).

(** Lines 74 to 83 and 146 to 155, the same in both training classes:
    resize both images to one sampled resolution, normalise, then crop and
    flip the two together. *)
Definition paired_transform (min_resize_res max_resize_res crop_res : nat)
    (flip_prob : Q) (image_0 image_1 : pil_image) : M world (tensor * tensor) :=
  reize_res <- torch_randint min_resize_res (max_resize_res + 1) ;;
  image_0 <- lift_result (Image_resize reize_res image_0) ;;
  image_1 <- lift_result (Image_resize reize_res image_1) ;;
  image_0 <- lift_result (to_tensor image_0) ;;
  image_1 <- lift_result (to_tensor image_1) ;;
  both <- lift_result (torch_cat image_0 image_1) ;;
  cropped <- RandomCrop crop_res both ;;
  flipped <- RandomHorizontalFlip flip_prob cropped ;;
  lift_result (chunk2 flipped).

(** [dict(edited=image_1, edit=dict(c_concat=image_0, c_crossattn=prompt))]. *)
Definition training_sample (image_0 image_1 : tensor) (prompt : string) : pyval :=
  VDict [("edited", VTensor image_1);
         ("edit", VDict [("c_concat", VTensor image_0);
                         ("c_crossattn", VStr prompt)])]%string.

(** [EpicEditDataset.__getitem__]. *)
Definition EpicEditDataset_getitem (index : Z) : M (state EpicEditDataset) pyval :=
  this <- get_self ;;
  entry <- lift_result (pyindex (epic_metadata this) index) ;;
  let prompt := narration entry in
  let subdir := os_path_join (epic_basedir this)
                  [part entry; "agentago_frames"; clip entry]%string in
  let image_0_path := os_path_join subdir [_index_to_img_fn (start entry)] in
  let image_1_path := os_path_join subdir [_index_to_img_fn (stop entry)] in
  image_0 <- liftW (Image_open image_0_path) ;;
  image_1 <- liftW (Image_open image_1_path) ;;
  '(image_0, image_1) <-
     liftW (paired_transform (epic_min_resize_res this) (epic_max_resize_res this)
              (epic_crop_res this) (epic_flip_prob this) image_0 image_1) ;;
  ret (training_sample image_0 image_1 prompt).

(** [seeds[torch.randint(0, len(seeds), ()).item()]]. *)
Definition pick_seed (seeds : list Z) : M world Z :=
  k <- torch_randint 0 (List.length seeds) ;;
  lift_result (pyindex seeds (Z.of_nat k)).

(** [EditDataset.__getitem__]. *)
Definition EditDataset_getitem (i : Z) : M (state EditDataset) pyval :=
  this <- get_self ;;
  '(name, seeds) <- lift_result (pyindex (edit_seeds this) i) ;;
  let propt_dir := Path (edit_path this) name in
  seed <- liftW (pick_seed seeds) ;;
  fields <- liftW (json_load_prompt (Path propt_dir "prompt.json")) ;;
  prompt <- lift_result (dict_get fields "edit") ;;
  image_0 <- liftW (Image_open (Path propt_dir (str_of_Z seed ++ "_0.jpg"))) ;;
  image_1 <- liftW (Image_open (Path propt_dir (str_of_Z seed ++ "_1.jpg"))) ;;
  '(image_0, image_1) <-
     liftW (paired_transform (edit_min_resize_res this) (edit_max_resize_res this)
              (edit_crop_res this) (edit_flip_prob this) image_0 image_1) ;;
  ret (training_sample image_0 image_1 prompt).

(** [EditDatasetEval.__getitem__]. *)
Definition EditDatasetEval_getitem (i : Z) : M (state EditDatasetEval) pyval :=
  this <- get_self ;;
  '(name, seeds) <- lift_result (pyindex (eval_seeds this) i) ;;
  let propt_dir := Path (eval_path this) name in
  seed <- liftW (pick_seed seeds) ;;
  fields <- liftW (json_load_prompt (Path propt_dir "prompt.json")) ;;
  edit <- lift_result (dict_get fields "edit") ;;
  input_prompt <- lift_result (dict_get fields "input") ;;
  output_prompt <- lift_result (dict_get fields "output") ;;
  image_0 <- liftW (Image_open (Path propt_dir (str_of_Z seed ++ "_0.jpg"))) ;;
  reize_res <- liftW (torch_randint (eval_res this) (eval_res this + 1)) ;;
  image_0 <- lift_result (Image_resize reize_res image_0) ;;
  image_0 <- lift_result (to_tensor image_0) ;;
  ret (VDict [("image_0", VTensor image_0);
              ("input_prompt", VStr input_prompt);
              ("edit", VStr edit);
              ("output_prompt", VStr output_prompt)]%string).

End WithPIL.

(** What the properties below assume of the resampling filter: it keeps
    the mode and returns [r] rows of [r] pixels of as many bands. *)
Definition shape_hwc (h w c : nat) (px : list (list (list byte))) : Prop :=
  List.length px = h /\
  Forall (fun row => List.length row = w /\
                     Forall (fun p => List.length p = c) row) px.

Definition resample_ok (resample : nat -> pil_image -> pil_image) : Prop :=
  forall r img,
    mode (resample r img) = mode img /\
    shape_hwc r r (bands (mode img)) (pixels (resample r img)).

(** ** A small disk, used to run the methods

    A filter that satisfies [resample_ok] (nearest neighbour), a seed
    manifest of four samples and an annotation table of two actions. *)

Definition pixel_at (img : pil_image) (y x : nat) : list byte :=
  let p := nth x (nth y (pixels img) []) [] in
  firstn (bands (mode img)) (p ++ repeat x00 (bands (mode img))).

Definition nearest (r : nat) (img : pil_image) : pil_image :=
  let h := List.length (pixels img) in
  let w := List.length (hd [] (pixels img)) in
  {| mode := mode img;
     pixels := map (fun y => map (fun x => pixel_at img (y * h / r) (x * w / r))
                                 (seq 0 r)) (seq 0 r) |}.

Definition disk_of (files : list (string * file)) (p : string) : option file :=
  match find (fun kv => String.eqb (fst kv) p) files with
  | Some kv => Some (snd kv)
  | None => None
  end.

Definition rgb (r g b : byte) : list byte := [r; g; b].

Definition before_img : pil_image :=
  {| mode := ModeRGB;
     pixels := [[rgb x00 x10 x20; rgb x30 x40 x50];
                [rgb x60 x70 x80; rgb x90 xa0 xff]] |}.

Definition after_img : pil_image :=
  {| mode := ModeRGB;
     pixels := [[rgb xff xee xdd; rgb xcc xbb xaa];
                [rgb x99 x88 x77; rgb x66 x55 x00]] |}.

Definition grey_img : pil_image :=
  {| mode := ModeL; pixels := [[[x00]; [x80]]; [[xc0]; [xff]]] |}.

Definition example_prompt : file :=
  PromptJson [("input", "a photo of a dog"); ("edit", "make it a cat");
              ("output", "a photo of a cat")]%string.

Definition example_seeds : list (string * list Z) :=
  [("s0", [7%Z]); ("s1", [7%Z]); ("s2", [7%Z]); ("s3", [7%Z])]%string.

Definition example_rows : list annotation_row :=
  [ {| participant_id := "P01"; video_id := "P01_01"; start_frame := 8%Z;
       stop_frame := 202%Z; row_narration := "open door" |};
    {| participant_id := "P01"; video_id := "P01_01"; start_frame := 262%Z;
       stop_frame := 370%Z; row_narration := "turn on light" |} ]%string.

Definition example_files : list (string * file) :=
  [ ("data/seeds.json", SeedsJson example_seeds);
    ("data/s0/prompt.json", example_prompt);
    ("data/s0/7_0.jpg", Jpeg before_img);
    ("data/s0/7_1.jpg", Jpeg after_img);
    ("data/s1/prompt.json", example_prompt);
    ("data/s1/7_0.jpg", Jpeg grey_img);
    ("data/s1/7_1.jpg", Jpeg grey_img);
    ("epic/info.json", InfoJson);
    ("epic/EPIC100_annotations.csv", AnnotationsCsv example_rows);
    ("epic/P01/agentago_frames/P01_01/frame_0000000008.jpg", Jpeg before_img);
    ("epic/P01/agentago_frames/P01_01/frame_0000000202.jpg", Jpeg after_img) ]%string.

(** A world on this disk whose generators return [draw] at every call. *)
Definition example_world (draw : nat) : world :=
  {| disk := disk_of example_files;
     torch_draws := fun _ => draw; torch_pos := 0;
     numpy_draws := fun _ => draw; numpy_pos := 0;
     opened := []; logged := [] |}.

(** ** Vocabulary of the properties *)

(** The elements of [l] at the positions [lo .. hi-1]. *)
Definition positions {A} (lo hi : nat) (l : list A) : list A :=
  firstn (hi - lo) (skipn lo l).

(** [train], [val] and [test] are the positions [0 .. a-1], [a .. b-1] and
    [b .. n-1] of [l]: consecutive ranges, so no position is kept twice
    and none is left out. *)
Definition partition_at {A} (l : list A) (a b : Z) (train val test : list A)
  : Prop :=
  (0 <= a <= b)%Z /\ (b <= Z.of_nat (List.length l))%Z /\
  train = positions 0 (Z.to_nat a) l /\
  val = positions (Z.to_nat a) (Z.to_nat b) l /\
  test = positions (Z.to_nat b) (List.length l) l /\
  train ++ val ++ test = l.

(** [c] leaves the component [f] of the state as it found it, whether it
    returns or raises. *)
Definition preserves {S A X} (f : S -> X) (c : M S A) : Prop :=
  forall s, f (snd (c s)) = f s.

(** [pad] is [index] written with exactly [width] decimal digits: zeros,
    then the digits of [index]. *)
Definition zero_padded (width : nat) (index : Z) (pad : string) : Prop :=
  String.length pad = width /\
  Forall (fun c => is_digit c = true) (list_ascii_of_string pad) /\
  decimal_value (list_ascii_of_string pad) = Z.to_N index /\
  exists k, pad = (zeros k ++ str_of_Z index)%string.

(** The rational a finite binary32 number stands for. *)
Definition f32_to_Q (x : f32) : Q :=
  match x with
  | S754_finite s m e =>
      let v := if (0 <=? e)%Z then inject_Z (Z.pos m * 2 ^ e)
               else Qmake (Z.pos m) (Pos.pow 2 (Z.to_pos (- e))) in
      if s then Qopp v else v
  | _ => 0%Q
  end.

(** [-1 <= x <= 1], by the comparison of binary32. *)
Definition in_unit_range (x : f32) : Prop :=
  SFleb (f32_of_Z (-1)) x = true /\ SFleb x (f32_of_Z 1) = true.

Definition tensor_all (P : f32 -> Prop) (t : tensor) : Prop :=
  Forall (Forall (Forall P)) t.

(** The tensors a returned value holds, at any depth. *)
Fixpoint tensors_of (v : pyval) : list tensor :=
  match v with
  | VTensor t => [t]
  | VStr _ => []
  | VDict items => flat_map (fun kv => tensors_of (snd kv)) items
  end.

(** One crop window and one flip decision, applied to a tensor. *)
Definition crop_flip (top left size : nat) (flipped : bool) (t : tensor) : tensor :=
  let c := crop top left size size t in
  if flipped then hflip c else c.

(** The tensor of the image [img] once resized to [r] by [r]. *)
Definition resized_tensor (resample : nat -> pil_image -> pil_image)
    (r : nat) (img : pil_image) : tensor :=
  rearrange_hwc_chw (bands (mode (resample r img)))
    (normalize_hwc (pixels (resample r img))).

(** The two frames of an action: the paths [__getitem__] builds at lines
    67 to 70. *)
Definition frame_paths (basedir : string) (entry : action) : string * string :=
  let subdir := os_path_join basedir
                  [part entry; "agentago_frames"; clip entry]%string in
  (os_path_join subdir [_index_to_img_fn (start entry)],
   os_path_join subdir [_index_to_img_fn (stop entry)]).

(** The files of one sample of a seed manifest: the prompt, the image
    before and the image after the edit. *)
Definition prompt_path (path name : string) : string :=
  Path (Path path name) "prompt.json".
Definition before_path (path name : string) (seed : Z) : string :=
  Path (Path path name) (str_of_Z seed ++ "_0.jpg").
Definition after_path (path name : string) (seed : Z) : string :=
  Path (Path path name) (str_of_Z seed ++ "_1.jpg").

(** [dict(image_0=..., input_prompt=..., edit=..., output_prompt=...)]. *)
Definition eval_sample (image_0 : tensor) (input_prompt edit output_prompt : string)
  : pyval :=
  VDict [("image_0", VTensor image_0);
         ("input_prompt", VStr input_prompt);
         ("edit", VStr edit);
         ("output_prompt", VStr output_prompt)]%string.

(** Objects on the small disk, as the constructors would leave them. *)
Definition example_edit : EditDataset :=
  {| edit_path := "data"; edit_min_resize_res := 2; edit_max_resize_res := 2;
     edit_crop_res := 1; edit_flip_prob := 1; edit_seeds := example_seeds |}.

Definition example_epic : EpicEditDataset :=
  {| epic_basedir := "epic"; epic_min_resize_res := 2; epic_max_resize_res := 2;
     epic_crop_res := 1; epic_flip_prob := 1; epic_info := InfoJson;
     epic_pre_metadata := example_rows;
     epic_metadata := map action_of_row example_rows |}.

Definition example_eval : EditDatasetEval :=
  {| eval_path := "data"; eval_res := 2; eval_seeds := example_seeds |}.

Definition example_state {O} (obj : O) (draw : nat) : state O :=
  {| self := obj; env := example_world draw |}.

(** [p] ends with [suffix]. *)
Definition has_suffix (suffix p : string) : Prop :=
  exists pre, p = (pre ++ suffix)%string.

(** Whether it returns or raises, [c] only appends to the log, and every
    path it appends satisfies [allowed]. *)
Definition opens_only {S A} (log : S -> list string) (allowed : string -> Prop)
    (c : M S A) : Prop :=
  forall s, exists extra,
    log (snd (c s)) = log s ++ extra /\ Forall allowed extra.

(** A tensor of [c] planes of [h] rows of [w] elements. *)
Definition tensor_shape (c h w : nat) (t : tensor) : Prop :=
  List.length t = c /\
  Forall (fun plane => List.length plane = h /\
                       Forall (fun row => List.length row = w) plane) t.

(** The flip decision that the next draw of torch's generator gives. *)
Definition flip_draw (p : Q) (w : world) : bool :=
  negb (Qle_bool p
          (inject_Z (Z.of_nat (torch_draws w (torch_pos w) mod 2 ^ 24))
           / inject_Z (2 ^ 24))).

(** A disk whose prompt file has the key [edit] only. *)
Definition partial_prompt_world : world :=
  {| disk := disk_of
               [("data/seeds.json", SeedsJson example_seeds);
                ("data/s0/prompt.json", PromptJson [("edit", "make it a cat")]);
                ("data/s0/7_0.jpg", Jpeg before_img)]%string;
     torch_draws := fun _ => 0; torch_pos := 0;
     numpy_draws := fun _ => 0; numpy_pos := 0;
     opened := []; logged := [] |}.

(** From two states that [R] relates, [c] gives the same outcome (the
    same value or the same exception) and leaves states that [R] relates. *)
Definition respects {S A} (R : S -> S -> Prop) (c : M S A) : Prop :=
  forall s1 s2, R s1 s2 ->
    fst (c s1) = fst (c s2) /\ R (snd (c s1)) (snd (c s2)).

(** Two worlds with the same files. *)
Definition same_disk (w1 w2 : world) : Prop := disk w1 = disk w2.

(** A world on the small disk whose generators count: draw [k] is [k + 1]
    for numpy and [k] for torch. *)
Definition counting_world : world :=
  {| disk := disk_of example_files;
     torch_draws := fun k => k; torch_pos := 0;
     numpy_draws := S; numpy_pos := 0;
     opened := []; logged := [] |}.

(** ** Vocabulary of binary64 rounding

    The value of a float is counted in units of [2 ^ (- K)], so that it is
    an integer for every float whose exponent is at least [- K]. *)

(** [a / d] rounded to the nearest integer, ties to the even one. *)
Definition rne_div (a d : Z) : Z :=
  let q := (a / d)%Z in
  let r := (a mod d)%Z in
  if (2 * r <? d)%Z then q
  else if (2 * r =? d)%Z then (if Z.even q then q else q + 1)%Z
  else (q + 1)%Z.

(** The exponent of the last place of a value [v > 0] in the format. *)
Definition cexp (prec emax K v : Z) : Z := fexp prec emax (Z.log2 v + 1 - K).

(** The spacing of the floats around [v]. *)
Definition grid (prec emax K v : Z) : Z := (2 ^ (cexp prec emax K v + K))%Z.

(** [v] rounded to the format: to the nearest multiple of the spacing,
    ties to the even multiple. *)
Definition round_s (prec emax K v : Z) : Z :=
  (rne_div v (grid prec emax K v) * grid prec emax K v)%Z.

(** [v] is the value of a float of the format. *)
Definition representable (prec emax K v : Z) : Prop :=
  (v mod grid prec emax K v = 0)%Z.

(** What [k] steps of [shr_1] from [(M, false, false)] have computed: the
    quotient by [2 ^ k], and the place of the remainder relative to the
    midpoint. *)
Definition shr_inv (M k : Z) (mrs : shr_record) : Prop :=
  exists rem,
    (M = shr_m mrs * 2 ^ k + rem)%Z /\ (0 <= rem < 2 ^ k)%Z /\
    (0 <= shr_m mrs)%Z /\
    shr_r mrs = (2 ^ k <=? 2 * rem)%Z /\
    shr_s mrs = negb (rem =? 0)%Z && negb (2 * rem =? 2 ^ k)%Z.

(** [r] is what rounding the exact value [v >= 0] to the format returns:
    the rounded value, or an infinity when the rounded value is beyond the
    largest exponent. *)
Definition rounds_to (prec emax K v : Z) (r : spec_float) : Prop :=
  match r with
  | S754_zero _ => round_s prec emax K v = 0%Z
  | S754_finite s m e =>
      s = false /\ (0 <= e + K)%Z /\
      (Z.pos m * 2 ^ (e + K))%Z = round_s prec emax K v
  | S754_infinity s =>
      s = false /\ (2 ^ (emax - prec + K) < round_s prec emax K v)%Z
  | S754_nan => False
  end.

(** The value of a float that is not negative. *)
Definition fvalue (K : Z) (x : spec_float) : Z :=
  match x with
  | S754_finite false m e => (Z.pos m * 2 ^ (e + K))%Z
  | _ => 0%Z
  end.

(** Zero, or a positive finite float whose exponent is at least [- K]. *)
Definition finite_nonneg (K : Z) (x : spec_float) : Prop :=
  match x with
  | S754_zero _ => True
  | S754_finite false _ e => (0 <= e + K)%Z
  | _ => False
  end.

Definition good (prec emax K : Z) (x : spec_float) : Prop :=
  finite_nonneg K x /\ representable prec emax K (fvalue K x).

Definition non_finite (x : spec_float) : Prop :=
  match x with S754_infinity _ | S754_nan => True | _ => False end.

(** [x] is a binary64 number: its mantissa and exponent are those of the
    format, as for every Python [float]. *)
Definition is_f64 (x : f64) : Prop := valid_binary 53 1024 x = true.

(** [0 <= x]. *)
Definition f64_nonneg (x : f64) : Prop := SFleb (f64_of_Z 0) x = true.

(** The rational a finite binary64 number stands for. *)
Definition f64_to_Q (x : f64) : Q :=
  match x with
  | S754_finite s m e =>
      let v := if (0 <=? e)%Z then inject_Z (Z.pos m * 2 ^ e)
               else Qmake (Z.pos m) (Pos.pow 2 (Z.to_pos (- e))) in
      if s then Qopp v else v
  | _ => 0%Q
  end.

(** ** Vocabulary of the normalisation *)

(** [a[y][x][c]] of the array of an image, and [t[c][y][x]] of a tensor. *)
Definition image_at (img : pil_image) (y x c : nat) : option byte :=
  match nth_error (pixels img) y with
  | Some row =>
      match nth_error row x with
      | Some p => nth_error p c
      | None => None
      end
  | None => None
  end.

Definition tensor_at (t : tensor) (c y x : nat) : option f32 :=
  match nth_error t c with
  | Some plane =>
      match nth_error plane y with
      | Some line => nth_error line x
      | None => None
      end
  | None => None
  end.

(** The pixel values of an image, all bands of all pixels. *)
Definition pixel_values (img : pil_image) : list byte :=
  List.concat (List.concat (pixels img)).

(** [e] is [2 * v / 255 - 1] for a pixel value [v] of one of the images. *)
Definition normalised_from (imgs : list pil_image) (e : f32) : Prop :=
  exists img v, In img imgs /\ In v (pixel_values img) /\ e = normalize_pixel v.

(** ** A sample that pairs an RGB image with a CMYK image *)

Definition cmyk_img : pil_image :=
  {| mode := ModeCMYK;
     pixels := [[[x01; x02; x03; x04]; [x11; x12; x13; x14]];
                [[x21; x22; x23; x24]; [x31; x32; x33; x34]]] |}.

Definition mixed_modes_world : world :=
  {| disk := disk_of
               [("data/s0/prompt.json", example_prompt);
                ("data/s0/7_0.jpg", Jpeg before_img);
                ("data/s0/7_1.jpg", Jpeg cmyk_img)]%string;
     torch_draws := fun _ => 0; torch_pos := 0;
     numpy_draws := fun _ => 0; numpy_pos := 0;
     opened := []; logged := [] |}.

(** An [EditDataset] with the sizes all equal and no flip, so that
    nothing is cut away or mirrored. *)
Definition plain_edit : EditDataset :=
  {| edit_path := "data"; edit_min_resize_res := 2; edit_max_resize_res := 2;
     edit_crop_res := 2; edit_flip_prob := 0; edit_seeds := example_seeds |}.

(** * Properties *)

Unset Implicit Arguments.

(** ** Running the monad *)

Lemma bind_ok {S A B} (c : M S A) (k : A -> M S B) s b s' :
  bind c k s = (Ok b, s') ->
  exists a s1, c s = (Ok a, s1) /\ k a s1 = (Ok b, s').
Proof.
  unfold bind. destruct (c s) as [[a|e] s1]; intros H.
  - exists a, s1. split; [reflexivity | exact H].
  - discriminate H.
Qed.

Lemma bind_run_ok {S A B} (c : M S A) (k : A -> M S B) s a s1 :
  c s = (Ok a, s1) -> bind c k s = k a s1.
Proof. unfold bind. intros ->. reflexivity. Qed.

Lemma bind_run_raise {S A B} (c : M S A) (k : A -> M S B) s e s1 :
  c s = (Raise e, s1) -> bind c k s = (Raise e, s1).
Proof. unfold bind. intros ->. reflexivity. Qed.

Lemma liftW_ok {O A} (c : M world A) (s : state O) a s' :
  liftW c s = (Ok a, s') ->
  exists w', c (env s) = (Ok a, w') /\ s' = {| self := self s; env := w' |}.
Proof.
  unfold liftW. destruct (c (env s)) as [r w'] eqn:E. intros H.
  inversion H; subst. exists w'. split; reflexivity.
Qed.

Lemma liftW_run {O A} (c : M world A) (s : state O) r w' :
  c (env s) = (r, w') -> liftW c s = (r, {| self := self s; env := w' |}).
Proof. unfold liftW. intros ->. reflexivity. Qed.

Lemma lift_result_ok {S A} (r : result A) (s : S) a s' :
  lift_result r s = (Ok a, s') -> r = Ok a /\ s' = s.
Proof. unfold lift_result. intros H. inversion H. split; reflexivity. Qed.

Lemma open_run (p : string) (w : world) :
  open_ p w = (match disk w p with
               | Some f => Ok f
               | None => Raise (FileNotFoundError p)
               end, log_open p w).
Proof.
  unfold open_, bind, modify, gets. cbn.
  destruct (disk w p); reflexivity.
Qed.

(** ** Rounding to nearest, ties to even *)

Section Binary64.

Local Open Scope Z_scope.

Lemma rne_div_exact k d : 0 < d -> rne_div (k * d) d = k.
Proof.
  intros Hd. unfold rne_div. rewrite Z.mod_mul, Z.div_mul by lia.
  destruct (Z.ltb_spec (2 * 0) d); [reflexivity | lia].
Qed.

Lemma rne_div_mono a b d : 0 < d -> a <= b -> rne_div a d <= rne_div b d.
Proof.
  intros Hd Hab. unfold rne_div.
  pose proof (Z.div_mod a d ltac:(lia)) as Ea.
  pose proof (Z.div_mod b d ltac:(lia)) as Eb.
  pose proof (Z.mod_pos_bound a d Hd) as Ba.
  pose proof (Z.mod_pos_bound b d Hd) as Bb.
  pose proof (Z.div_le_mono a b d Hd Hab) as Hq.
  set (qa := a / d) in *. set (ra := a mod d) in *.
  set (qb := b / d) in *. set (rb := b mod d) in *.
  assert (Hcase : qa < qb \/ (qa = qb /\ ra <= rb)) by nia.
  destruct (Z.ltb_spec (2 * ra) d), (Z.ltb_spec (2 * rb) d);
    destruct (Z.eqb_spec (2 * ra) d), (Z.eqb_spec (2 * rb) d);
    destruct (Z.even qa) eqn:Pa, (Z.even qb) eqn:Pb; try lia;
    destruct Hcase as [Hlt | [Heq Hr]]; try lia;
    try (rewrite Heq in Pa; congruence).
Qed.

Lemma rne_div_lower a d : 0 < d -> a / d <= rne_div a d.
Proof.
  intros Hd. unfold rne_div.
  destruct (2 * (a mod d) <? d); [lia|].
  destruct (2 * (a mod d) =? d); [|lia].
  destruct (Z.even (a / d)); lia.
Qed.

Lemma rne_div_upper a d : 0 < d -> rne_div a d <= a / d + 1.
Proof.
  intros Hd. unfold rne_div.
  destruct (2 * (a mod d) <? d); [lia|].
  destruct (2 * (a mod d) =? d); [|lia].
  destruct (Z.even (a / d)); lia.
Qed.

Lemma rne_div_ge_multiple a d k : 0 < d -> k * d <= a -> k <= rne_div a d.
Proof.
  intros Hd H. rewrite <- (rne_div_exact k d Hd). apply rne_div_mono; assumption.
Qed.

Lemma rne_div_le_multiple a d k : 0 < d -> a <= k * d -> rne_div a d <= k.
Proof.
  intros Hd H. rewrite <- (rne_div_exact k d Hd). apply rne_div_mono; assumption.
Qed.

Section Format.
Variables prec emax : Z.
Hypothesis Hprec : 0 < prec.

Variable K : Z.
Hypothesis HK : 0 <= emin prec emax + K.

Lemma cexp_ge_emin v : emin prec emax <= cexp prec emax K v.
Proof. unfold cexp, fexp. lia. Qed.

Lemma grid_pos v : 0 < grid prec emax K v.
Proof.
  unfold grid. apply Z.pow_pos_nonneg; [lia|]. pose proof (cexp_ge_emin v). lia.
Qed.

Lemma cexp_mono v1 v2 : 0 <= v1 <= v2 -> cexp prec emax K v1 <= cexp prec emax K v2.
Proof.
  intros H. unfold cexp, fexp.
  pose proof (Z.log2_le_mono v1 v2 ltac:(lia)). lia.
Qed.

Lemma round_s_nonneg v : 0 <= v -> 0 <= round_s prec emax K v.
Proof.
  intros Hv. unfold round_s. pose proof (grid_pos v) as Hg.
  pose proof (rne_div_lower v (grid prec emax K v) Hg).
  pose proof (Z.div_pos v (grid prec emax K v) Hv Hg). nia.
Qed.

Lemma round_s_0 : round_s prec emax K 0 = 0.
Proof.
  unfold round_s. change 0 with (0 * grid prec emax K 0) at 1.
  rewrite rne_div_exact by apply grid_pos. reflexivity.
Qed.

Lemma log2_le_of_le_pow2 a b : 0 <= b -> a <= 2 ^ b -> Z.log2 a <= b.
Proof.
  intros Hb H. rewrite <- (Z.log2_pow2 b Hb). apply Z.log2_le_mono, H.
Qed.

Lemma pow2_split a b : 0 <= b <= a -> 2 ^ a = 2 ^ (a - b) * 2 ^ b.
Proof. intros H. rewrite <- Z.pow_add_r by lia. f_equal. lia. Qed.

(** Rounding is monotone: the heart of the order properties. *)
Lemma round_s_mono v1 v2 : 0 <= v1 <= v2 -> round_s prec emax K v1 <= round_s prec emax K v2.
Proof.
  intros [H1 H12].
  pose proof (cexp_mono v1 v2 (conj H1 H12)) as Hc.
  pose proof (cexp_ge_emin v1) as Hm1.
  pose proof (grid_pos v1) as Hg1. pose proof (grid_pos v2) as Hg2.
  destruct (Z.eq_dec (cexp prec emax K v1) (cexp prec emax K v2)) as [E | NE].
  - unfold round_s, grid in *. rewrite E in *.
    pose proof (rne_div_mono v1 v2 _ Hg2 H12). nia.
  - assert (Hlt : cexp prec emax K v1 < cexp prec emax K v2) by lia.
    destruct (Z.eq_dec v1 0) as [-> | Hv1].
    { rewrite round_s_0. apply round_s_nonneg. lia. }
    assert (Hv2 : 0 < v2) by lia.
    pose proof (Z.log2_spec v1 ltac:(lia)) as L1.
    pose proof (Z.log2_spec v2 Hv2) as L2.
    pose proof (Z.log2_nonneg v1) as N1. pose proof (Z.log2_nonneg v2) as N2.
    assert (Hc2 : cexp prec emax K v2 = Z.log2 v2 + 1 - K - prec)
      by (unfold cexp, fexp in *; lia).
    assert (Hl : Z.log2 v1 < Z.log2 v2) by (unfold cexp, fexp in *; lia).
    set (g := 2 ^ Z.log2 v2).
    assert (Hv1g : v1 <= g).
    { unfold g. apply Z.lt_le_incl. eapply Z.lt_le_trans; [apply L1|].
      apply Z.pow_le_mono_r; lia. }
    assert (Hgv2 : g <= v2) by (unfold g; lia).
    assert (E1 : g = 2 ^ (Z.log2 v2 - (cexp prec emax K v1 + K)) * grid prec emax K v1).
    { unfold g, grid. apply pow2_split. lia. }
    assert (E2 : g = 2 ^ (Z.log2 v2 - (cexp prec emax K v2 + K)) * grid prec emax K v2).
    { unfold g, grid. apply pow2_split. lia. }
    apply Z.le_trans with g.
    + unfold round_s. rewrite E1.
      apply Z.mul_le_mono_nonneg_r; [lia|].
      apply rne_div_le_multiple; [exact Hg1 | lia].
    + unfold round_s. rewrite E2.
      apply Z.mul_le_mono_nonneg_r; [lia|].
      apply rne_div_ge_multiple; [exact Hg2 | lia].
Qed.

Lemma round_s_representable v : representable prec emax K v -> round_s prec emax K v = v.
Proof.
  unfold representable, round_s. intros H.
  pose proof (grid_pos v) as Hg.
  pose proof (Z.div_mod v (grid prec emax K v) ltac:(lia)) as E. rewrite H in E.
  replace v with (v / grid prec emax K v * grid prec emax K v) at 1 by lia.
  rewrite rne_div_exact by exact Hg. lia.
Qed.

Lemma representable_multiple v c :
  0 <= c + K -> cexp prec emax K v <= c -> v mod 2 ^ (c + K) = 0 -> representable prec emax K v.
Proof.
  intros H0 Hc Hm. unfold representable, grid.
  pose proof (cexp_ge_emin v).
  apply Z.mod_divide in Hm; [|apply Z.pow_nonzero; lia].
  apply Z.mod_divide; [apply Z.pow_nonzero; lia|].
  destruct Hm as [k Ek].
  exists (k * 2 ^ (c + K - (cexp prec emax K v + K))).
  rewrite Ek at 1. rewrite (pow2_split (c + K) (cexp prec emax K v + K)) by lia. ring.
Qed.

(** A rounded value is representable. *)
Lemma round_s_is_representable v : 0 <= v -> representable prec emax K (round_s prec emax K v).
Proof.
  intros Hv. pose proof (grid_pos v) as Hg. pose proof (cexp_ge_emin v) as Hm.
  destruct (Z.eq_dec v 0) as [-> | Hv0].
  { rewrite round_s_0. unfold representable. apply Z.mod_0_l.
    pose proof (grid_pos 0). lia. }
  set (w := round_s prec emax K v).
  destruct (Z.eq_dec w 0) as [E | Hw0].
  { rewrite E. unfold representable. apply Z.mod_0_l.
    pose proof (grid_pos 0). lia. }
  assert (Hw : 0 < w) by (pose proof (round_s_nonneg v Hv); fold w in H; lia).
  pose proof (Z.log2_spec v ltac:(lia)) as L.
  pose proof (Z.log2_nonneg v) as N.
  set (c := cexp prec emax K v) in *.
  assert (Hdiv : w mod 2 ^ (c + K) = 0).
  { unfold w, round_s, grid. fold c. apply Z.mod_mul. apply Z.pow_nonzero; lia. }
  (* an upper bound of [w] on the grid of [v] *)
  destruct (Z_le_gt_dec (cexp prec emax K w) c) as [Hle | Hgt].
  - apply representable_multiple with c; [lia | exact Hle | exact Hdiv].
  - (* the exponent went up: [w] is a power of two above [v] *)
    assert (Hc : c = Z.log2 v + 1 - K - prec \/ c = emin prec emax)
      by (unfold c, cexp, fexp; lia).
    assert (Hwle : w <= 2 ^ (Z.log2 v + 1)).
    { unfold w, round_s. fold (grid prec emax K v).
      assert (c + K <= Z.log2 v + 1 \/ Z.log2 v + 1 < c + K) as [Hs|Hs] by lia.
      - rewrite (pow2_split (Z.log2 v + 1) (c + K)) by lia.
        unfold grid at 2. fold c.
        apply Z.mul_le_mono_nonneg_r; [lia|].
        apply rne_div_le_multiple; [exact Hg|].
        unfold grid. fold c.
        rewrite <- (pow2_split (Z.log2 v + 1) (c + K)) by lia. lia.
      - (* [v] is below half a grid step or so: [w] is 0 or one step *)
        exfalso.
        assert (Hw1 : w <= grid prec emax K v).
        { unfold w, round_s.
          assert (rne_div v (grid prec emax K v) <= 1).
          { apply rne_div_le_multiple; [exact Hg|]. unfold grid. fold c.
            rewrite Z.mul_1_l. apply Z.lt_le_incl.
            eapply Z.lt_le_trans; [apply L|]. apply Z.pow_le_mono_r; lia. }
          nia. }
        assert (Hlw : Z.log2 w <= c + K).
        { apply log2_le_of_le_pow2; [lia | exact Hw1]. }
        clear Hdiv Hw1 Hc. unfold c, cexp, fexp in *. lia. }
    pose proof (log2_le_of_le_pow2 w (Z.log2 v + 1) ltac:(lia) Hwle) as Hlw.
    assert (Hcw : cexp prec emax K w <= c + 1) by (unfold cexp, fexp in *; lia).
    assert (Hcw1 : cexp prec emax K w = c + 1) by lia.
    assert (Hlw' : Z.log2 w = Z.log2 v + 1) by (unfold cexp, fexp in *; lia).
    assert (Hweq : w = 2 ^ (Z.log2 v + 1)).
    { pose proof (Z.log2_spec w Hw) as Lw. rewrite Hlw' in Lw. lia. }
    unfold representable, grid. rewrite Hcw1, Hweq.
    apply Z.mod_divide; [apply Z.pow_nonzero; lia|].
    exists (2 ^ (Z.log2 v + 1 - (c + 1 + K))).
    apply pow2_split. unfold cexp, fexp in *. lia.
Qed.

Lemma round_s_idem v : 0 <= v -> round_s prec emax K (round_s prec emax K v) = round_s prec emax K v.
Proof. intros Hv. apply round_s_representable, round_s_is_representable, Hv. Qed.

End Format.

(** ** The bit-level rounding of [SpecFloat] computes [round_s] *)

Lemma digits2_pos_size p : digits2_pos p = Pos.size p.
Proof. induction p; cbn; congruence. Qed.

Lemma Zdigits2_log2 p : Zdigits2 (Zpos p) = Z.log2 (Zpos p) + 1.
Proof.
  cbn [Zdigits2]. rewrite digits2_pos_size.
  destruct p; cbn [Pos.size Z.log2]; try rewrite Pos2Z.inj_succ; lia.
Qed.

Lemma Zpos_digits2_log2 p : Zpos (digits2_pos p) = Z.log2 (Zpos p) + 1.
Proof. exact (Zdigits2_log2 p). Qed.

Lemma pos_iter_xO m d : Zpos (Pos.iter xO m d) = Zpos m * 2 ^ Zpos d.
Proof.
  induction d using Pos.peano_ind.
  - cbn [Pos.iter]. lia.
  - rewrite Pos.iter_succ, Pos2Z.inj_xO, IHd, Pos2Z.inj_succ, Z.pow_succ_r by lia.
    ring.
Qed.

Lemma shr_inv_0 M : 0 <= M -> shr_inv M 0 (Build_shr_record M false false).
Proof.
  intros HM. exists 0. cbn [shr_m shr_r shr_s]. rewrite Z.pow_0_r.
  repeat split; try lia; reflexivity.
Qed.

Ltac bool_cases :=
  repeat match goal with
    | |- context [?a <=? ?b] => destruct (Z.leb_spec a b)
    | |- context [?a =? ?b] => destruct (Z.eqb_spec a b)
    end; cbn [negb andb orb]; try reflexivity; try lia.

Lemma shr_1_inv M k mrs : 0 <= k -> shr_inv M k mrs -> shr_inv M (k + 1) (shr_1 mrs).
Proof.
  intros Hk (rem & EM & Hrem & Hm & Hr & Hs).
  destruct mrs as [m r s]. cbn [shr_m shr_r shr_s] in *.
  assert (P2 : 2 ^ (k + 1) = 2 * 2 ^ k) by (rewrite Z.pow_add_r by lia; lia).
  assert (Hrs : r || s = negb (rem =? 0)).
  { rewrite Hr, Hs. bool_cases. }
  destruct m as [|[q|q|]|p]; cbn [shr_1 shr_m shr_r shr_s]; try lia.
  - exists rem. cbn [shr_m shr_r shr_s]. rewrite Hrs, P2.
    repeat split; try lia; bool_cases.
  - exists (2 ^ k + rem). cbn [shr_m shr_r shr_s]. rewrite Hrs, P2.
    repeat split; try lia; bool_cases.
  - exists rem. cbn [shr_m shr_r shr_s]. rewrite Hrs, P2.
    repeat split; try lia; bool_cases.
  - exists (2 ^ k + rem). cbn [shr_m shr_r shr_s]. rewrite Hrs, P2.
    repeat split; try lia; bool_cases.
Qed.

Lemma iter_pos_shr_inv M p :
  forall k mrs, 0 <= k -> shr_inv M k mrs ->
    shr_inv M (k + Zpos p) (iter_pos shr_1 p mrs).
Proof.
  induction p as [p IH | p IH |]; intros k mrs Hk H; cbn [iter_pos].
  - replace (k + Z.pos p~1) with (k + 1 + Z.pos p + Z.pos p) by lia.
    apply IH; [lia|]. apply IH; [lia|]. apply shr_1_inv; assumption.
  - replace (k + Z.pos p~0) with (k + Z.pos p + Z.pos p) by lia.
    apply IH; [lia|]. apply IH; assumption.
  - apply shr_1_inv; assumption.
Qed.

Lemma shr_spec M e n :
  0 <= M ->
  shr_inv M (Z.max n 0) (fst (shr (Build_shr_record M false false) e n)) /\
  snd (shr (Build_shr_record M false false) e n) = e + Z.max n 0.
Proof.
  intros HM. destruct n as [|p|p]; cbn [shr fst snd].
  - split; [apply shr_inv_0, HM | cbn; lia].
  - split.
    + replace (Z.max (Z.pos p) 0) with (0 + Z.pos p) by lia.
      apply iter_pos_shr_inv; [lia | apply shr_inv_0, HM].
    + lia.
  - split; [apply shr_inv_0, HM | cbn; lia].
Qed.

Lemma shr_inv_div M k mrs :
  0 <= k -> shr_inv M k mrs ->
  shr_m mrs = M / 2 ^ k /\
  round_nearest_even (shr_m mrs) (loc_of_shr_record mrs) = rne_div M (2 ^ k).
Proof.
  intros Hk (rem & EM & Hrem & Hm & Hr & Hs).
  assert (Hp : 0 < 2 ^ k) by (apply Z.pow_pos_nonneg; lia).
  assert (Eq : M / 2 ^ k = shr_m mrs)
    by (symmetry; apply (Z.div_unique M (2 ^ k) (shr_m mrs) rem); [lia | lia]).
  assert (Er : M mod 2 ^ k = rem)
    by (symmetry; apply (Z.mod_unique M (2 ^ k) (shr_m mrs) rem); [lia | lia]).
  split; [symmetry; exact Eq|].
  unfold rne_div. rewrite Eq, Er.
  destruct mrs as [m r s]. cbn [shr_m shr_r shr_s loc_of_shr_record] in *.
  subst r s.
  destruct (Z.leb_spec (2 ^ k) (2 * rem)), (Z.eqb_spec rem 0),
    (Z.eqb_spec (2 * rem) (2 ^ k)), (Z.ltb_spec (2 * rem) (2 ^ k));
    cbn [negb andb round_nearest_even]; try lia; reflexivity.
Qed.

Lemma rne_div_scale a d s : 0 < d -> 0 < s -> rne_div (a * s) (d * s) = rne_div a d.
Proof.
  intros Hd Hs. unfold rne_div.
  rewrite Z.div_mul_cancel_r by lia.
  rewrite Z.mul_mod_distr_r by lia.
  pose proof (Z.mod_pos_bound a d Hd).
  destruct (Z.ltb_spec (2 * (a mod d * s)) (d * s)), (Z.ltb_spec (2 * (a mod d)) d);
    try nia; try reflexivity.
  destruct (Z.eqb_spec (2 * (a mod d * s)) (d * s)), (Z.eqb_spec (2 * (a mod d)) d);
    try nia; reflexivity.
Qed.

Lemma rne_div_1 a : rne_div a 1 = a.
Proof. rewrite <- (Z.mul_1_r a) at 1. apply rne_div_exact. lia. Qed.

Section Bits.
Variables prec emax : Z.
Hypothesis Hprec : 0 < prec.
Variable K : Z.
Hypothesis HK : 0 <= emin prec emax + K.

Lemma cexp_scaled m e :
  0 < m -> 0 <= e + K ->
  cexp prec emax K (m * 2 ^ (e + K)) = fexp prec emax (Zdigits2 m + e).
Proof.
  intros Hm He. unfold cexp. rewrite Z.log2_mul_pow2 by lia.
  destruct m as [|p|p]; try lia. rewrite Zdigits2_log2. f_equal. lia.
Qed.

Lemma binary_round_aux_spec M E :
  0 < M -> 0 <= E + K ->
  rounds_to prec emax K (M * 2 ^ (E + K)) (binary_round_aux prec emax false M E loc_Exact).
Proof.
  intros HM HE. set (v := M * 2 ^ (E + K)).
  assert (Hv : 0 < v) by (unfold v; apply Z.mul_pos_pos; [lia | apply Z.pow_pos_nonneg; lia]).
  pose proof (cexp_scaled M E HM HE) as Hc. fold v in Hc.
  unfold binary_round_aux, shr_fexp. cbn [shr_record_of_loc].
  set (c := fexp prec emax (Zdigits2 M + E)) in *.
  pose proof (shr_spec M E (c - E) ltac:(lia)) as [I1 E1].
  destruct (shr (Build_shr_record M false false) E (c - E)) as [mrs1 e1].
  cbn [fst snd] in I1, E1.
  pose proof (shr_inv_div M (Z.max (c - E) 0) mrs1 ltac:(lia) I1) as [_ R1].
  rewrite R1. clear R1 I1.
  remember (rne_div M (2 ^ Z.max (c - E) 0)) as m1 eqn:Em1.
  (* the value after the first rounding *)
  assert (Hc_emin : emin prec emax <= c) by (unfold c, fexp; lia).
  assert (V1 : m1 * 2 ^ (e1 + K) = round_s prec emax K v).
  { unfold round_s, grid. rewrite Hc. subst e1.
    destruct (Z_le_gt_dec E c) as [Hle | Hgt].
    - replace (Z.max (c - E) 0) with (c - E) in * by lia.
      replace (E + (c - E) + K) with (c + K) by lia.
      f_equal. rewrite Em1. unfold v.
      rewrite (pow2_split (c + K) (E + K)) by lia.
      replace (c + K - (E + K)) with (c - E) by lia.
      rewrite rne_div_scale; [reflexivity | | ]; apply Z.pow_pos_nonneg; lia.
    - replace (Z.max (c - E) 0) with 0 in * by lia.
      rewrite Em1, Z.pow_0_r, rne_div_1.
      replace (E + 0 + K) with (E + K) by lia.
      unfold v. rewrite (pow2_split (E + K) (c + K)) by lia.
      rewrite Z.mul_assoc, rne_div_exact by (apply Z.pow_pos_nonneg; lia).
      reflexivity. }
  assert (Hm1 : 0 <= m1).
  { pose proof (round_s_nonneg prec emax K HK v ltac:(lia)) as Hr.
    rewrite <- V1 in Hr.
    assert (0 < 2 ^ (e1 + K)) by (apply Z.pow_pos_nonneg; lia). nia. }
  assert (He1 : 0 <= e1 + K) by lia.
  pose proof (shr_spec m1 e1 (fexp prec emax (Zdigits2 m1 + e1) - e1) Hm1) as [I2 E2].
  destruct (shr (Build_shr_record m1 false false) e1
              (fexp prec emax (Zdigits2 m1 + e1) - e1)) as [mrs2 e2].
  cbn [fst snd] in I2, E2.
  set (n2 := Z.max (fexp prec emax (Zdigits2 m1 + e1) - e1) 0) in *.
  assert (Hn2 : 0 <= n2) by (unfold n2; lia).
  destruct I2 as (rem & EM & Hrem & Hm2 & _ & _).
  (* the second shift loses nothing *)
  assert (Hrem0 : rem = 0).
  { destruct (Z.eq_dec m1 0) as [Z1 | NZ1].
    { assert (0 < 2 ^ n2) by (apply Z.pow_pos_nonneg; lia). nia. }
    destruct (Z.eq_dec n2 0) as [Z2 | NZ2].
    { rewrite Z2, Z.pow_0_r in Hrem. lia. }
    pose proof (round_s_is_representable prec emax Hprec K HK v ltac:(lia)) as Hrep.
    rewrite <- V1 in Hrep. unfold representable, grid in Hrep.
    rewrite (cexp_scaled m1 e1 ltac:(lia) He1) in Hrep.
    replace (fexp prec emax (Zdigits2 m1 + e1) + K) with (n2 + (e1 + K)) in Hrep
      by (unfold n2 in *; lia).
    rewrite (Z.pow_add_r 2 n2 (e1 + K)) in Hrep by lia.
    rewrite Z.mul_mod_distr_r in Hrep
      by (apply Z.pow_nonzero; lia).
    assert (0 < 2 ^ (e1 + K)) by (apply Z.pow_pos_nonneg; lia).
    assert (Hmod : m1 mod 2 ^ n2 = 0) by nia.
    assert (0 < 2 ^ n2) by (apply Z.pow_pos_nonneg; lia).
    rewrite <- (Z.mod_unique m1 (2 ^ n2) (shr_m mrs2) rem) in Hmod; [exact Hmod | lia | lia]. }
  assert (V2 : shr_m mrs2 * 2 ^ (e2 + K) = round_s prec emax K v).
  { rewrite <- V1, EM, Hrem0, E2, Z.add_0_r.
    replace (e1 + n2 + K) with (n2 + (e1 + K)) by lia.
    rewrite (Z.pow_add_r 2 n2 (e1 + K)) by lia. ring. }
  destruct (shr_m mrs2) as [|p|p] eqn:Em2.
  - cbn [rounds_to]. rewrite <- V2. reflexivity.
  - destruct (Z.leb_spec e2 (emax - prec)) as [Hb | Hb]; cbn [rounds_to].
    + repeat split; [lia | exact V2].
    + split; [reflexivity|]. rewrite <- V2.
      apply Z.lt_le_trans with (2 ^ (e2 + K)).
      * apply Z.pow_lt_mono_r; lia.
      * assert (0 < 2 ^ (e2 + K)) by (apply Z.pow_pos_nonneg; lia). nia.
  - lia.
Qed.

End Bits.

(** ** Addition, multiplication and conversion, on numbers that are not
    negative *)

Section Operations.
Variables prec emax : Z.
Hypothesis Hprec : 0 < prec.

Lemma fvalue_nonneg K x : 0 <= fvalue K x.
Proof.
  destruct x as [| | |[|] m e]; cbn [fvalue]; try lia.
  all: pose proof (Z.pow_nonneg 2 (e + K) ltac:(lia)); nia.
Qed.

Lemma rounds_to_finite K v r :
  0 <= emin prec emax + K ->
  rounds_to prec emax K v r ->
  (forall s, r <> S754_infinity s) ->
  finite_nonneg K r /\ fvalue K r = round_s prec emax K v.
Proof.
  intros HK H Hinf. destruct r as [s|s| |s m e]; cbn [rounds_to] in H.
  - split; [exact I | cbn; lia].
  - exfalso. apply (Hinf s). reflexivity.
  - contradiction.
  - destruct H as (-> & He & Hv). split; [exact He | exact Hv].
Qed.

Lemma rounds_to_good K v r :
  0 <= emin prec emax + K -> 0 <= v ->
  rounds_to prec emax K v r ->
  (forall s, r <> S754_infinity s) ->
  good prec emax K r /\ fvalue K r = round_s prec emax K v.
Proof.
  intros HK Hv H Hinf.
  destruct (rounds_to_finite K v r HK H Hinf) as [Hf Hval].
  split; [split; [exact Hf|] | exact Hval].
  rewrite Hval. apply round_s_is_representable; assumption.
Qed.

Lemma rounds_to_not_inf K v r s :
  rounds_to prec emax K v r -> round_s prec emax K v <= 2 ^ (emax - prec + K) ->
  r <> S754_infinity s.
Proof.
  intros H Hle ->. cbn [rounds_to] in H. lia.
Qed.

Lemma shl_align_spec K m e e0 :
  0 <= e + K -> 0 <= e0 + K ->
  Zpos (fst (shl_align m e e0)) * 2 ^ (snd (shl_align m e e0) + K) = Zpos m * 2 ^ (e + K) /\
  snd (shl_align m e e0) = Z.min e e0.
Proof.
  intros He He0. unfold shl_align.
  destruct (e0 - e) as [|d|d] eqn:Ed; cbn [fst snd].
  - split; [reflexivity | lia].
  - split; [reflexivity | lia].
  - rewrite pos_iter_xO. split; [|lia].
    replace (e + K) with (Zpos d + (e0 + K)) by lia.
    rewrite (Z.pow_add_r 2 (Zpos d) (e0 + K)) by lia. ring.
Qed.

Lemma binary_round_spec K m e :
  0 <= emin prec emax + K -> 0 <= e + K ->
  rounds_to prec emax K (Zpos m * 2 ^ (e + K)) (binary_round prec emax false m e).
Proof.
  intros HK He. unfold binary_round.
  set (e0 := fexp prec emax (Zpos (digits2_pos m) + e)).
  assert (He0 : 0 <= e0 + K) by (unfold e0, fexp; lia).
  pose proof (shl_align_spec K m e e0 He He0) as [V E].
  destruct (shl_align m e e0) as [mz ez]. cbn [fst snd] in V, E.
  rewrite <- V. apply binary_round_aux_spec; [exact Hprec | exact HK | lia | lia].
Qed.

Lemma representable_valid K s m e :
  0 <= emin prec emax + K ->
  valid_binary prec emax (S754_finite s m e) = true ->
  0 <= e + K /\ representable prec emax K (Zpos m * 2 ^ (e + K)).
Proof.
  intros HK H. cbn [valid_binary] in H. unfold bounded in H.
  apply andb_prop in H. destruct H as [Hc _].
  unfold canonical_mantissa in Hc. apply Z.eqb_eq in Hc.
  assert (He : 0 <= e + K) by (rewrite <- Hc; unfold fexp; lia).
  split; [exact He|].
  unfold representable, grid.
  rewrite (cexp_scaled prec emax K (Zpos m) e ltac:(lia) He).
  cbn [Zdigits2]. rewrite Hc. apply Z.mod_mul. apply Z.pow_nonzero; lia.
Qed.

Lemma good_valid K x :
  0 <= emin prec emax + K ->
  valid_binary prec emax x = true -> SFleb (S754_zero false) x = true ->
  x = S754_infinity false \/ good prec emax K x.
Proof.
  intros HK Hv Hle. destruct x as [s|[|]| |[|] m e]; try discriminate Hle.
  - right. split; [exact I|]. cbn [fvalue]. unfold representable.
    apply Z.mod_0_l. pose proof (grid_pos prec emax K HK 0). lia.
  - left. reflexivity.
  - right. destruct (representable_valid K false m e HK Hv) as [He Hr].
    split; [exact He | exact Hr].
Qed.

Lemma good_zero K s : 0 <= emin prec emax + K -> good prec emax K (S754_zero s).
Proof.
  intros HK. split; [exact I|]. cbn [fvalue]. unfold representable.
  apply Z.mod_0_l. pose proof (grid_pos prec emax K HK 0). lia.
Qed.

Lemma SFadd_spec K x y :
  0 <= emin prec emax + K -> good prec emax K x -> good prec emax K y ->
  rounds_to prec emax K (fvalue K x + fvalue K y) (SFadd prec emax x y).
Proof.
  intros HK [Fx Rx] [Fy Ry].
  destruct x as [sx| | |[|] mx ex]; try contradiction;
  destruct y as [sy| | |[|] my ey]; try contradiction;
    cbn [finite_nonneg fvalue] in *.
  - assert (E : exists s, SFadd prec emax (S754_zero sx) (S754_zero sy) = S754_zero s)
      by (destruct sx, sy; cbn; eexists; reflexivity).
    destruct E as [s ->]. cbn [rounds_to]. apply round_s_0, HK.
  - cbn [SFadd rounds_to]. rewrite Z.add_0_l.
    rewrite round_s_representable by (exact HK || exact Ry). auto.
  - cbn [SFadd rounds_to]. rewrite Z.add_0_r.
    rewrite round_s_representable by (exact HK || exact Rx). auto.
  - cbn [SFadd cond_Zopp].
    pose proof (shl_align_spec K mx ex (Z.min ex ey) Fx ltac:(lia)) as [Vx Ex'].
    pose proof (shl_align_spec K my ey (Z.min ex ey) Fy ltac:(lia)) as [Vy Ey'].
    replace (Z.min ex (Z.min ex ey)) with (Z.min ex ey) in Ex' by lia.
    replace (Z.min ey (Z.min ex ey)) with (Z.min ex ey) in Ey' by lia.
    rewrite Ex' in Vx. rewrite Ey' in Vy. rewrite <- Vx, <- Vy.
    rewrite <- Z.mul_add_distr_r. rewrite <- Pos2Z.inj_add.
    cbn [binary_normalize Z.add].
    apply binary_round_spec; [exact HK | lia].
Qed.

Lemma SFmul_spec K1 K2 x y :
  0 <= emin prec emax + (K1 + K2) -> finite_nonneg K1 x -> finite_nonneg K2 y ->
  rounds_to prec emax (K1 + K2) (fvalue K1 x * fvalue K2 y) (SFmul prec emax x y).
Proof.
  intros HK Fx Fy.
  destruct x as [sx| | |[|] mx ex]; try contradiction;
  destruct y as [sy| | |[|] my ey]; try contradiction;
    cbn [finite_nonneg fvalue SFmul rounds_to] in *;
    try (rewrite ?Z.mul_0_l, ?Z.mul_0_r; apply round_s_0, HK).
  cbn [xorb].
  replace (Zpos mx * 2 ^ (ex + K1) * (Zpos my * 2 ^ (ey + K2)))
    with (Zpos (mx * my) * 2 ^ (ex + ey + (K1 + K2))).
  - apply binary_round_aux_spec; [exact Hprec | exact HK | lia | lia].
  - rewrite Pos2Z.inj_mul.
    replace (ex + ey + (K1 + K2)) with ((ex + K1) + (ey + K2)) by lia.
    rewrite (Z.pow_add_r 2 (ex + K1) (ey + K2)) by lia. ring.
Qed.

(** [float(n)] for an integer that is not negative. *)
Lemma binary_normalize_spec K n :
  0 <= emin prec emax + K -> 0 <= K -> 0 <= n ->
  rounds_to prec emax K (n * 2 ^ K) (binary_normalize prec emax n 0 false).
Proof.
  intros HK HK0 Hn. destruct n as [|p|p]; try lia; cbn [binary_normalize].
  - cbn [rounds_to]. rewrite Z.mul_0_l. apply round_s_0, HK.
  - replace K with (0 + K) at 1 by lia. apply binary_round_spec; [exact HK | lia].
Qed.

Lemma representable_int K n :
  0 <= emin prec emax + K -> emin prec emax <= 0 ->
  0 <= n <= 2 ^ prec -> representable prec emax K (n * 2 ^ K).
Proof.
  intros HK Hemin [Hn0 Hn].
  assert (HK0 : 0 <= K) by lia.
  destruct (Z.eq_dec n 0) as [-> | NZ].
  { unfold representable. rewrite Z.mul_0_l. apply Z.mod_0_l.
    pose proof (grid_pos prec emax K HK 0). lia. }
  pose proof (cexp_ge_emin prec emax K (n * 2 ^ K)) as Hge.
  assert (Hc : cexp prec emax K (n * 2 ^ K) = fexp prec emax (Z.log2 n + 1)).
  { unfold cexp. rewrite Z.log2_mul_pow2 by lia. f_equal. lia. }
  destruct (Z.eq_dec n (2 ^ prec)) as [-> | NP].
  - rewrite Z.log2_pow2 in Hc by lia.
    unfold representable, grid. rewrite Hc. unfold fexp.
    replace (Z.max (prec + 1 - prec) (emin prec emax)) with 1 by lia.
    apply Z.mod_divide; [apply Z.pow_nonzero; lia|].
    exists (2 ^ (prec - 1)).
    rewrite <- !Z.pow_add_r by lia. f_equal. lia.
  - assert (Hl : Z.log2 n < prec) by (apply Z.log2_lt_pow2; lia).
    apply representable_multiple with 0; [exact HK | lia | |].
    + rewrite Hc. unfold fexp. lia.
    + apply Z.mod_mul. apply Z.pow_nonzero; lia.
Qed.

End Operations.

(** ** binary64 *)

Lemma math_floor_value K x :
  0 <= K -> finite_nonneg K x -> math_floor x = Ok (fvalue K x / 2 ^ K).
Proof.
  intros HK H. destruct x as [s| | |[|] m e]; try contradiction;
    cbn [finite_nonneg fvalue math_floor cond_Zopp] in *.
  - rewrite Z.div_0_l by (apply Z.pow_nonzero; lia). reflexivity.
  - f_equal. destruct (Z_le_gt_dec 0 e) as [He | He].
    + rewrite Z.shiftl_mul_pow2 by lia.
      rewrite (Z.pow_add_r 2 e K) by lia.
      rewrite Z.mul_assoc, Z.div_mul by (apply Z.pow_nonzero; lia). reflexivity.
    + rewrite Z.shiftl_div_pow2 by lia.
      replace K with ((e + K) + - e) at 2 by lia.
      rewrite (Z.pow_add_r 2 (e + K) (- e)) by lia.
      rewrite (Z.mul_comm (2 ^ (e + K))).
      rewrite Z.div_mul_cancel_r; [reflexivity | |]; apply Z.pow_nonzero; lia.
Qed.

Lemma SFadd_non_finite x y :
  non_finite x \/ non_finite y -> non_finite (f64_add x y).
Proof.
  intros [H | H];
    destruct x as [[|]|[|]| |[|] mx ex]; destruct y as [[|]|[|]| |[|] my ey];
    try contradiction; exact I.
Qed.

Lemma not_non_finite x : ~ non_finite x -> forall s, x <> S754_infinity s.
Proof. intros H s ->. apply H. exact I. Qed.

Lemma SFeqb_one x : SFeqb x (f64_of_Z 1) = true -> x = f64_of_Z 1.
Proof.
  change (f64_of_Z 1) with (S754_finite false 4503599627370496 (-52)).
  destruct x as [s|[|]| |[|] m e]; try discriminate.
  unfold SFeqb, SFcompare.
  destruct (Z.compare_spec e (-52)) as [-> | |]; try discriminate.
  destruct (Pos.compare_cont Eq m 4503599627370496) eqn:E; try discriminate.
  apply Pos.compare_eq in E. subst m. reflexivity.
Qed.

Section Cuts.
Variable K : Z.
Hypothesis HK : 1074 <= K.

Lemma HK_emin : 0 <= emin 53 1024 + K.
Proof. change (emin 53 1024) with (-1074). lia. Qed.

Lemma HK2_emin : 0 <= emin 53 1024 + (K + K).
Proof. change (emin 53 1024) with (-1074). lia. Qed.

Lemma good_f64 x :
  is_f64 x -> f64_nonneg x -> non_finite x \/ good 53 1024 K x.
Proof.
  intros Hv Hn. destruct (good_valid 53 1024 K x HK_emin Hv Hn) as [-> | H].
  - left. exact I.
  - right. exact H.
Qed.

Lemma f64_add_good x y :
  good 53 1024 K x -> good 53 1024 K y -> ~ non_finite (f64_add x y) ->
  good 53 1024 K (f64_add x y) /\
  fvalue K (f64_add x y) = round_s 53 1024 K (fvalue K x + fvalue K y).
Proof.
  intros Gx Gy Hf.
  apply rounds_to_good; [lia | exact HK_emin | | | apply not_non_finite, Hf].
  - pose proof (fvalue_nonneg K x). pose proof (fvalue_nonneg K y). lia.
  - apply SFadd_spec; [lia | exact HK_emin | exact Gx | exact Gy].
Qed.

(** What passing [sum(splits) == 1] says of proportions that are not
    negative: both [splits[0]] and [splits[0] + splits[1]] are finite and
    [0 <= splits[0] <= splits[0] + splits[1] <= 1]. *)
Lemma cumulative_le_1 s0 s1 s2 :
  is_f64 s0 -> is_f64 s1 -> is_f64 s2 ->
  f64_nonneg s0 -> f64_nonneg s1 -> f64_nonneg s2 ->
  sums_to_one (s0, s1, s2) = true ->
  finite_nonneg K s0 /\ finite_nonneg K (f64_add s0 s1) /\
  fvalue K s0 <= fvalue K (f64_add s0 s1) <= 2 ^ K.
Proof.
  intros V0 V1 V2 N0 N1 N2 Hsum.
  unfold sums_to_one in Hsum. apply SFeqb_one in Hsum. unfold sum_splits in Hsum.
  assert (Hfin : ~ non_finite (f64_add (f64_add (f64_add (f64_of_Z 0) s0) s1) s2))
    by (rewrite Hsum; intros []).
  set (z1 := f64_add (f64_of_Z 0) s0) in *.
  set (z2 := f64_add z1 s1) in *.
  assert (F2 : ~ non_finite z2 /\ ~ non_finite s2).
  { split; intros H; apply Hfin, SFadd_non_finite; auto. }
  destruct F2 as [F2 Fs2].
  assert (F1 : ~ non_finite z1 /\ ~ non_finite s1).
  { split; intros H; apply F2, SFadd_non_finite; auto. }
  destruct F1 as [F1 Fs1].
  assert (Fs0 : ~ non_finite s0).
  { intros H; apply F1, SFadd_non_finite; auto. }
  destruct (good_f64 s0 V0 N0) as [? | G0]; [contradiction|].
  destruct (good_f64 s1 V1 N1) as [? | G1]; [contradiction|].
  destruct (good_f64 s2 V2 N2) as [? | G2]; [contradiction|].
  assert (Gz : good 53 1024 K (f64_of_Z 0)) by (apply good_zero; exact HK_emin).
  destruct (f64_add_good _ _ Gz G0 F1) as [Gz1 Vz1]. fold z1 in Gz1, Vz1.
  change (fvalue K (f64_of_Z 0)) with 0 in Vz1. rewrite Z.add_0_l in Vz1.
  rewrite (round_s_representable 53 1024 K HK_emin _ (proj2 G0)) in Vz1.
  destruct (f64_add_good _ _ Gz1 G1 F2) as [Gz2 Vz2]. fold z2 in Gz2, Vz2.
  rewrite Vz1 in Vz2.
  destruct (f64_add_good _ _ Gz2 G2 Hfin) as [_ Vz3].
  rewrite Hsum in Vz3.
  change (fvalue K (f64_of_Z 1)) with (4503599627370496 * 2 ^ (-52 + K)) in Vz3.
  assert (P1 : 4503599627370496 * 2 ^ (-52 + K) = 2 ^ K).
  { change 4503599627370496 with (2 ^ 52).
    rewrite <- Z.pow_add_r by lia. f_equal. lia. }
  rewrite P1 in Vz3.
  pose proof (fvalue_nonneg K s0) as P0.
  pose proof (fvalue_nonneg K s1) as P1'.
  pose proof (fvalue_nonneg K s2) as P2.
  pose proof (fvalue_nonneg K z2) as Pz2.
  (* the running sum is at most one *)
  assert (Hz2 : fvalue K z2 <= 2 ^ K).
  { rewrite Vz3.
    rewrite <- (round_s_representable 53 1024 K HK_emin _ (proj2 Gz2)) at 1.
    apply round_s_mono; [lia | exact HK_emin | lia]. }
  (* [splits[0] + splits[1]] has the value of the running sum *)
  assert (Ht : rounds_to 53 1024 K (fvalue K s0 + fvalue K s1) (f64_add s0 s1))
    by (apply SFadd_spec; [lia | exact HK_emin | exact G0 | exact G1]).
  assert (Hni : forall s, f64_add s0 s1 <> S754_infinity s).
  { intros s. apply (rounds_to_not_inf 53 1024 K _ _ s Ht).
    rewrite <- Vz2. apply Z.le_trans with (2 ^ K); [exact Hz2|].
    apply Z.pow_le_mono_r; lia. }
  destruct (rounds_to_finite 53 1024 K _ _ HK_emin Ht Hni) as [Ft Vt].
  split; [exact (proj1 G0)|]. split; [exact Ft|].
  rewrite Vt, <- Vz2. split; [|exact Hz2].
  rewrite Vz2. rewrite <- (round_s_representable 53 1024 K HK_emin _ (proj2 G0)) at 1.
  apply round_s_mono; [lia | exact HK_emin | lia].
Qed.

(** [float(n)] is exact up to [2 ^ 53]. *)
Lemma f64_of_Z_exact n :
  0 <= n <= 2 ^ 53 ->
  finite_nonneg K (f64_of_Z n) /\ fvalue K (f64_of_Z n) = n * 2 ^ K.
Proof.
  intros Hn.
  pose proof (binary_normalize_spec 53 1024 ltac:(lia) K n HK_emin ltac:(lia) ltac:(lia)) as H.
  fold (f64_of_Z n) in H.
  pose proof (representable_int 53 1024 ltac:(lia) K n HK_emin ltac:(cbv; discriminate) Hn) as R.
  pose proof (round_s_representable 53 1024 K HK_emin _ R) as E.
  assert (Hni : forall s, f64_of_Z n <> S754_infinity s).
  { intros s. apply (rounds_to_not_inf 53 1024 K _ _ s H). rewrite E.
    apply Z.le_trans with (2 ^ 53 * 2 ^ K).
    - apply Z.mul_le_mono_nonneg_r; [apply Z.pow_nonneg; lia | lia].
    - rewrite <- Z.pow_add_r by lia. apply Z.pow_le_mono_r; lia. }
  destruct (rounds_to_finite 53 1024 K _ _ HK_emin H Hni) as [F V].
  split; [exact F | rewrite V; exact E].
Qed.

(** [math.floor(x * n)] for [0 <= x <= 1] and [0 <= n <= 2 ^ 53]: the
    product is finite, and its floor lies in [0 .. n] and grows with [x]. *)
Lemma floor_mul_bounds x n :
  0 <= n <= 2 ^ 53 -> finite_nonneg K x -> fvalue K x <= 2 ^ K ->
  math_floor (f64_mul x (f64_of_Z n))
    = Ok (round_s 53 1024 (K + K) (fvalue K x * (n * 2 ^ K)) / 2 ^ (K + K)) /\
  0 <= round_s 53 1024 (K + K) (fvalue K x * (n * 2 ^ K)) / 2 ^ (K + K) <= n.
Proof.
  intros Hn Fx Hx.
  destruct (f64_of_Z_exact n Hn) as [FN VN].
  pose proof (SFmul_spec 53 1024 ltac:(lia) K K x (f64_of_Z n) HK2_emin Fx FN) as H.
  fold (f64_mul x (f64_of_Z n)) in H. rewrite VN in H.
  pose proof (fvalue_nonneg K x) as P0.
  assert (PK : 0 < 2 ^ K) by (apply Z.pow_pos_nonneg; lia).
  assert (PKK : 0 < 2 ^ (K + K)) by (apply Z.pow_pos_nonneg; lia).
  assert (EKK : 2 ^ K * 2 ^ K = 2 ^ (K + K)) by (rewrite <- Z.pow_add_r by lia; reflexivity).
  assert (Hup : round_s 53 1024 (K + K) (fvalue K x * (n * 2 ^ K)) <= n * 2 ^ (K + K)).
  { pose proof (representable_int 53 1024 ltac:(lia) (K + K) n HK2_emin ltac:(cbv; discriminate) Hn) as R.
    rewrite <- (round_s_representable 53 1024 (K + K) HK2_emin _ R).
    apply round_s_mono; [lia | exact HK2_emin | nia]. }
  assert (Hlo : 0 <= round_s 53 1024 (K + K) (fvalue K x * (n * 2 ^ K)))
    by (apply round_s_nonneg; [exact HK2_emin | nia]).
  assert (Hni : forall s, f64_mul x (f64_of_Z n) <> S754_infinity s).
  { intros s. apply (rounds_to_not_inf 53 1024 (K + K) _ _ s H).
    eapply Z.le_trans; [exact Hup|].
    apply Z.le_trans with (2 ^ 53 * 2 ^ (K + K)).
    - apply Z.mul_le_mono_nonneg_r; lia.
    - rewrite <- Z.pow_add_r by lia. apply Z.pow_le_mono_r; lia. }
  destruct (rounds_to_finite 53 1024 (K + K) _ _ HK2_emin H Hni) as [F V].
  rewrite (math_floor_value (K + K) _ ltac:(lia) F), V.
  split; [reflexivity|]. split.
  - apply Z.div_pos; lia.
  - apply Z.div_le_upper_bound; lia.
Qed.

Lemma floor_mul_mono x y n :
  0 <= n -> fvalue K x <= fvalue K y ->
  round_s 53 1024 (K + K) (fvalue K x * (n * 2 ^ K)) / 2 ^ (K + K)
  <= round_s 53 1024 (K + K) (fvalue K y * (n * 2 ^ K)) / 2 ^ (K + K).
Proof.
  intros Hn Hxy.
  pose proof (fvalue_nonneg K x) as P0.
  assert (PK : 0 < 2 ^ K) by (apply Z.pow_pos_nonneg; lia).
  assert (PN : 0 <= n * 2 ^ K) by nia.
  apply Z.div_le_mono; [apply Z.pow_pos_nonneg; lia|].
  apply round_s_mono; [lia | exact HK2_emin |].
  split; [apply Z.mul_nonneg_nonneg; lia|].
  apply Z.mul_le_mono_nonneg_r; lia.
Qed.

Lemma fvalue_one : fvalue K (f64_of_Z 1) = 2 ^ K.
Proof.
  change (fvalue K (f64_of_Z 1)) with (4503599627370496 * 2 ^ (-52 + K)).
  change 4503599627370496 with (2 ^ 52).
  rewrite <- Z.pow_add_r by lia. f_equal. lia.
Qed.

Lemma finite_nonneg_one : finite_nonneg K (f64_of_Z 1).
Proof. change (0 <= -52 + K). lia. Qed.

(** [math.floor(1.0 * n)] is [n], and [math.floor(0.0 * n)] is [0]. *)
Lemma floor_mul_one n :
  0 <= n <= 2 ^ 53 -> math_floor (f64_mul (f64_of_Z 1) (f64_of_Z n)) = Ok n.
Proof.
  intros Hn.
  destruct (floor_mul_bounds (f64_of_Z 1) n Hn finite_nonneg_one) as [E _].
  { rewrite fvalue_one. lia. }
  rewrite E, fvalue_one. f_equal.
  replace (2 ^ K * (n * 2 ^ K)) with (n * 2 ^ (K + K))
    by (rewrite (Z.pow_add_r 2 K K) by lia; ring).
  pose proof (representable_int 53 1024 ltac:(lia) (K + K) n HK2_emin ltac:(cbv; discriminate) Hn) as R.
  rewrite (round_s_representable 53 1024 (K + K) HK2_emin _ R).
  apply Z.div_mul. apply Z.pow_nonzero; lia.
Qed.

Lemma floor_mul_zero n :
  0 <= n <= 2 ^ 53 -> math_floor (f64_mul (f64_of_Z 0) (f64_of_Z n)) = Ok 0.
Proof.
  intros Hn. destruct (f64_of_Z_exact n Hn) as [F _].
  change (f64_of_Z 0) with (S754_zero false).
  destruct (f64_of_Z n) as [s|s| |[|] m e]; try contradiction; reflexivity.
Qed.

Lemma representable_pow2 K' j :
  0 <= emin 53 1024 + K' -> emin 53 1024 + K' <= j ->
  representable 53 1024 K' (2 ^ j).
Proof.
  intros H0 Hj.
  apply representable_multiple with (j - K'); [exact H0 | lia | |].
  - unfold cexp, fexp. rewrite Z.log2_pow2 by lia. lia.
  - replace (j - K' + K') with j by lia. apply Z.mod_same. apply Z.pow_nonzero; lia.
Qed.

(** [float(n)] is finite for the length of any list. *)
Lemma f64_of_Z_finite n :
  0 <= n <= 2 ^ 63 ->
  finite_nonneg K (f64_of_Z n) /\ fvalue K (f64_of_Z n) <= 2 ^ (63 + K).
Proof.
  intros Hn.
  pose proof (binary_normalize_spec 53 1024 ltac:(lia) K n HK_emin ltac:(lia) ltac:(lia)) as H.
  fold (f64_of_Z n) in H.
  assert (PK : 0 < 2 ^ K) by (apply Z.pow_pos_nonneg; lia).
  assert (Hup : round_s 53 1024 K (n * 2 ^ K) <= 2 ^ (63 + K)).
  { rewrite <- (round_s_representable 53 1024 K HK_emin (2 ^ (63 + K))).
    - apply round_s_mono; [lia | exact HK_emin |]. split; [nia|].
      rewrite (Z.pow_add_r 2 63 K) by lia.
      apply Z.mul_le_mono_nonneg_r; lia.
    - apply representable_pow2; [exact HK_emin|].
      change (emin 53 1024) with (-1074). lia. }
  assert (Hni : forall s, f64_of_Z n <> S754_infinity s).
  { intros s. apply (rounds_to_not_inf 53 1024 K _ _ s H).
    eapply Z.le_trans; [exact Hup|]. apply Z.pow_le_mono_r; lia. }
  destruct (rounds_to_finite 53 1024 K _ _ HK_emin H Hni) as [F V].
  split; [exact F | rewrite V; exact Hup].
Qed.

(** [math.floor(x * n)] returns for [0 <= x <= 1] and any length. *)
Lemma floor_mul_defined x n :
  0 <= n <= 2 ^ 63 -> finite_nonneg K x -> fvalue K x <= 2 ^ K ->
  exists a, math_floor (f64_mul x (f64_of_Z n)) = Ok a.
Proof.
  intros Hn Fx Hx.
  destruct (f64_of_Z_finite n Hn) as [FN VN].
  pose proof (SFmul_spec 53 1024 ltac:(lia) K K x (f64_of_Z n) HK2_emin Fx FN) as H.
  fold (f64_mul x (f64_of_Z n)) in H.
  pose proof (fvalue_nonneg K x) as P0.
  pose proof (fvalue_nonneg K (f64_of_Z n)) as PN.
  assert (PK : 0 < 2 ^ K) by (apply Z.pow_pos_nonneg; lia).
  assert (Hni : forall s, f64_mul x (f64_of_Z n) <> S754_infinity s).
  { intros s. apply (rounds_to_not_inf 53 1024 (K + K) _ _ s H).
    apply Z.le_trans with (2 ^ (63 + K + K)); [|apply Z.pow_le_mono_r; lia].
    rewrite <- (round_s_representable 53 1024 (K + K) HK2_emin (2 ^ (63 + K + K))).
    - apply round_s_mono; [lia | exact HK2_emin |].
      split; [apply Z.mul_nonneg_nonneg; lia|].
      replace (63 + K + K) with (K + (63 + K)) by lia.
      rewrite (Z.pow_add_r 2 K (63 + K)) by lia.
      apply Z.mul_le_mono_nonneg; lia.
    - apply representable_pow2; [exact HK2_emin|].
      change (emin 53 1024) with (-1074). lia. }
  destruct (rounds_to_finite 53 1024 (K + K) _ _ HK2_emin H Hni) as [F _].
  rewrite (math_floor_value (K + K) _ ltac:(lia) F). eexists; reflexivity.
Qed.

(** The rounded product is floored within one of the exact product. *)
Lemma floor_mul_near x n :
  0 <= n <= 2 ^ 53 -> finite_nonneg K x -> fvalue K x <= 2 ^ K ->
  (round_s 53 1024 (K + K) (fvalue K x * (n * 2 ^ K)) / 2 ^ (K + K) - 1) * 2 ^ (K + K)
    < fvalue K x * (n * 2 ^ K)
    < (round_s 53 1024 (K + K) (fvalue K x * (n * 2 ^ K)) / 2 ^ (K + K) + 1) * 2 ^ (K + K).
Proof.
  intros Hn Fx Hx.
  pose proof (fvalue_nonneg K x) as P0.
  assert (PK : 0 < 2 ^ K) by (apply Z.pow_pos_nonneg; lia).
  set (D := 2 ^ (K + K)).
  assert (PD : 0 < D) by (apply Z.pow_pos_nonneg; lia).
  assert (ED : 2 ^ K * 2 ^ K = D) by (unfold D; rewrite <- Z.pow_add_r by lia; reflexivity).
  set (V := fvalue K x * (n * 2 ^ K)).
  assert (HV0 : 0 <= V) by (unfold V; apply Z.mul_nonneg_nonneg; [lia | nia]).
  assert (HVn : V <= n * D).
  { unfold V. rewrite <- ED.
    replace (n * (2 ^ K * 2 ^ K)) with (2 ^ K * (n * 2 ^ K)) by ring.
    apply Z.mul_le_mono_nonneg_r; [nia | lia]. }
  pose proof (Z.div_mod V D ltac:(lia)) as EV.
  pose proof (Z.mod_pos_bound V D PD) as BV.
  set (q := V / D) in *. set (r := V mod D) in *.
  assert (Hq : 0 <= q <= n) by nia.
  (* the floor and the ceiling of the exact product are floats *)
  assert (Rq : forall k, 0 <= k <= n ->
             round_s 53 1024 (K + K) (k * D) = k * D).
  { intros k Hk. apply round_s_representable; [exact HK2_emin|].
    apply representable_int; [lia | exact HK2_emin | cbv; discriminate | lia]. }
  assert (Hlo : q * D <= round_s 53 1024 (K + K) V).
  { rewrite <- (Rq q Hq). apply round_s_mono; [lia | exact HK2_emin | nia]. }
  set (c := if r =? 0 then q else q + 1).
  assert (Hc : 0 <= c <= n /\ V <= c * D /\ c * D < V + D).
  { unfold c. destruct (Z.eqb_spec r 0); nia. }
  destruct Hc as (Hc & HVc & HcV).
  assert (Hhi : round_s 53 1024 (K + K) V <= c * D).
  { rewrite <- (Rq c Hc). apply round_s_mono; [lia | exact HK2_emin | lia]. }
  set (R := round_s 53 1024 (K + K) V) in *.
  assert (Ha1 : q <= R / D) by (apply Z.div_le_lower_bound; lia).
  assert (Ha2 : R / D <= c) by (apply Z.div_le_upper_bound; lia).
  split; nia.
Qed.

End Cuts.

End Binary64.

(** ** Slices of a list *)

Lemma slice_bound_id n k : (0 <= k <= n)%Z -> slice_bound n k = k.
Proof. unfold slice_bound; intros H. destruct (Z.ltb_spec k 0); lia. Qed.

Lemma pyslice_range {A} (l : list A) (a b : Z) :
  (0 <= a <= b)%Z -> (b <= Z.of_nat (List.length l))%Z ->
  pyslice l a b = firstn (Z.to_nat (b - a)) (skipn (Z.to_nat a) l).
Proof.
  intros Ha Hb. unfold pyslice. rewrite !slice_bound_id by lia. reflexivity.
Qed.

Lemma positions_concat {A} (l : list A) (a b : nat) :
  a <= b -> b <= List.length l ->
  positions 0 a l ++ positions a b l ++ positions b (List.length l) l = l.
Proof.
  intros Hab Hb. unfold positions. cbn [skipn].
  rewrite Nat.sub_0_r.
  rewrite (firstn_all2 (skipn b l)) by (rewrite length_skipn; lia).
  replace (skipn b l) with (skipn (b - a) (skipn a l))
    by (rewrite skipn_skipn; f_equal; lia).
  rewrite firstn_skipn. apply firstn_skipn.
Qed.

(** The cut points that lines 56 and 57 compute on a list of at most
    [2 ^ 53] entries, for proportions that are not negative and pass the
    assertion on their sum: [math.floor] returns each time, and
    [0 <= a <= b <= n]. *)
Lemma split_cuts {A} (l : list A) (s0 s1 s2 : f64) :
  is_f64 s0 -> is_f64 s1 -> is_f64 s2 ->
  f64_nonneg s0 -> f64_nonneg s1 -> f64_nonneg s2 ->
  sums_to_one (s0, s1, s2) = true ->
  (Z.of_nat (List.length l) <= 2 ^ 53)%Z ->
  exists a b,
    floor_times_len (f64_of_Z 0) l = Ok 0%Z /\
    floor_times_len s0 l = Ok a /\
    floor_times_len (f64_add s0 s1) l = Ok b /\
    floor_times_len (f64_of_Z 1) l = Ok (Z.of_nat (List.length l)) /\
    (0 <= a <= b)%Z /\ (b <= Z.of_nat (List.length l))%Z.
Proof.
  intros V0 V1 V2 N0 N1 N2 Hsum Hlen.
  destruct (cumulative_le_1 1074 (Z.le_refl _) s0 s1 s2 V0 V1 V2 N0 N1 N2 Hsum)
    as (F0 & Ft & H0t & Ht1).
  unfold floor_times_len, floor_times. set (n := Z.of_nat (List.length l)) in *.
  assert (Hn : (0 <= n <= 2 ^ 53)%Z) by (unfold n; lia).
  destruct (floor_mul_bounds 1074 (Z.le_refl _) s0 n Hn F0 ltac:(lia)) as [Ea Ba].
  destruct (floor_mul_bounds 1074 (Z.le_refl _) (f64_add s0 s1) n Hn Ft Ht1)
    as [Eb Bb].
  pose proof (floor_mul_mono 1074 (Z.le_refl _) s0 (f64_add s0 s1) n
                (proj1 Hn) H0t) as Hab.
  eexists _, _.
  split; [apply (floor_mul_zero 1074 (Z.le_refl _)), Hn|].
  split; [exact Ea|]. split; [exact Eb|].
  split; [apply (floor_mul_one 1074 (Z.le_refl _)), Hn|].
  split; [split; [apply Ba | exact Hab] | apply Bb].
Qed.

(** The slices that lines 52 to 59 compute, for such proportions. *)
Lemma split_slice_partition {A} (l : list A) (s0 s1 s2 : f64) :
  is_f64 s0 -> is_f64 s1 -> is_f64 s2 ->
  f64_nonneg s0 -> f64_nonneg s1 -> f64_nonneg s2 ->
  sums_to_one (s0, s1, s2) = true ->
  (Z.of_nat (List.length l) <= 2 ^ 53)%Z ->
  exists a b train val test,
    floor_times_len s0 l = Ok a /\
    floor_times_len (f64_add s0 s1) l = Ok b /\
    split_slice "train" (s0, s1, s2) l = Ok train /\
    split_slice "val" (s0, s1, s2) l = Ok val /\
    split_slice "test" (s0, s1, s2) l = Ok test /\
    partition_at l a b train val test.
Proof.
  intros V0 V1 V2 N0 N1 N2 Hsum Hlen.
  destruct (split_cuts l s0 s1 s2 V0 V1 V2 N0 N1 N2 Hsum Hlen)
    as (a & b & E0 & Ea & Eb & E1 & Hab & Hb).
  exists a, b, (positions 0 (Z.to_nat a) l),
         (positions (Z.to_nat a) (Z.to_nat b) l),
         (positions (Z.to_nat b) (List.length l) l).
  split; [exact Ea|]. split; [exact Eb|].
  unfold split_slice, split_table. cbn [String.eqb Ascii.eqb Bool.eqb].
  rewrite E0, Ea, Eb, E1.
  rewrite !pyslice_range by lia.
  unfold positions, partition_at. rewrite !Z2Nat.inj_sub, Nat2Z.id by lia.
  change (Z.to_nat 0) with 0.
  repeat split; try reflexivity; try lia.
  apply positions_concat; lia.
Qed.

(** ** The shuffle of [EpicEditDataset.__init__] *)

Lemma list_set_replace {A} (t : list A) (j : nat) (a b : A) :
  nth_error t j = Some b -> Permutation (b :: list_set t j a) (a :: t).
Proof.
  revert j. induction t as [|h t IH]; intros [|j] H; cbn in *; try discriminate.
  - injection H as ->. apply perm_swap.
  - eapply perm_trans; [apply perm_swap|].
    eapply perm_trans; [apply perm_skip, IH, H|]. apply perm_swap.
Qed.

Lemma list_set_same {A} (l : list A) (i : nat) (a : A) :
  nth_error l i = Some a -> list_set l i a = l.
Proof.
  revert i. induction l as [|h t IH]; intros [|i] H; cbn in *; try discriminate.
  - injection H as ->. reflexivity.
  - f_equal. apply IH, H.
Qed.

Lemma list_set_twice {A} (l : list A) (i j : nat) (a b : A) :
  nth_error l i = Some a -> nth_error l j = Some b ->
  Permutation (list_set (list_set l i b) j a) l.
Proof.
  revert i j. induction l as [|h t IH]; intros [|i] [|j] Hi Hj; cbn in *;
    try discriminate.
  - injection Hi as ->. injection Hj as ->. apply Permutation_refl.
  - injection Hi as ->. apply list_set_replace, Hj.
  - injection Hj as ->. apply Permutation_sym.
    eapply perm_trans; [|apply Permutation_sym, list_set_replace, Hi].
    apply Permutation_refl.
  - apply perm_skip, IH; assumption.
Qed.

Lemma swap_Permutation {A} (i j : nat) (x : list A) : Permutation (swap i j x) x.
Proof.
  unfold swap.
  destruct (nth_error x i) as [xi|] eqn:Hi; [|apply Permutation_refl].
  destruct (nth_error x j) as [xj|] eqn:Hj; [|apply Permutation_refl].
  apply list_set_twice; assumption.
Qed.

(** The shuffle returns a permutation of its argument, draws from numpy's
    generator only, and touches neither the disk nor the log. *)
Lemma shuffle_from_spec {A} (i : nat) (x : list A) (w : world) :
  exists x' w',
    shuffle_from i x w = (Ok x', w') /\ Permutation x' x /\
    disk w' = disk w /\ opened w' = opened w /\
    torch_draws w' = torch_draws w /\ torch_pos w' = torch_pos w.
Proof.
  revert x w. induction i as [|i IH]; intros x w; cbn [shuffle_from].
  - exists x, w. unfold ret. repeat split. apply Permutation_refl.
  - set (j := numpy_draws w (numpy_pos w) mod S (S i)).
    assert (Hj : random_interval (S i) w = (Ok j, numpy_advance w)) by reflexivity.
    rewrite (bind_run_ok _ _ _ _ _ Hj).
    destruct (IH (swap (S i) j x) (numpy_advance w))
      as (x' & w' & Hrun & Hperm & Hd & Ho & Ht & Hp).
    exists x', w'. rewrite Hrun. repeat split; try assumption.
    eapply perm_trans; [exact Hperm | apply swap_Permutation].
Qed.

(** ** The constructors *)

Lemma split_table_valid (split : string) (splits : f64 * f64 * f64) :
  valid_split split = true -> exists bounds, split_table split splits = Ok bounds.
Proof.
  destruct splits as [[s0 s1] s2]. unfold valid_split, split_table. cbn [existsb].
  destruct (String.eqb split "train"); [eexists; reflexivity|].
  destruct (String.eqb split "val"); [eexists; reflexivity|].
  destruct (String.eqb split "test"); [eexists; reflexivity|].
  discriminate.
Qed.

(** Once [split] is valid, the slicing can only fail in [math.floor]. *)
Lemma split_slice_raises {A} (split : string) (splits : f64 * f64 * f64)
    (l : list A) (e : exn) :
  valid_split split = true -> split_slice split splits l = Raise e ->
  e = OverflowError \/ e = ValueError.
Proof.
  intros Hv. destruct (split_table_valid split splits Hv) as [[x y] E].
  unfold split_slice. rewrite E. unfold floor_times_len, floor_times.
  destruct (f64_mul x _) as [s|s| |s m ex]; cbn [math_floor];
    try (intros H; injection H as <-; auto).
  all: destruct (f64_mul y _) as [s'|s'| |s' m' ey]; cbn [math_floor];
    intros H; try discriminate H; injection H as <-; auto.
Qed.

Lemma split_slice_not_assertion {A} (split : string) (splits : f64 * f64 * f64)
    (l : list A) :
  valid_split split = true -> split_slice split splits l <> Raise AssertionError.
Proof.
  intros Hv H. destruct (split_slice_raises split splits l _ Hv H); discriminate.
Qed.

(** For proportions that are not negative and pass the assertion on their
    sum, the slicing returns, whatever the length of the list. *)
Lemma split_slice_defined {A} (split : string) (l : list A) (s0 s1 s2 : f64) :
  valid_split split = true ->
  is_f64 s0 -> is_f64 s1 -> is_f64 s2 ->
  f64_nonneg s0 -> f64_nonneg s1 -> f64_nonneg s2 ->
  sums_to_one (s0, s1, s2) = true ->
  (Z.of_nat (List.length l) < 2 ^ 63)%Z ->
  exists kept, split_slice split (s0, s1, s2) l = Ok kept.
Proof.
  intros Hv V0 V1 V2 N0 N1 N2 Hsum Hlen.
  destruct (cumulative_le_1 1074 (Z.le_refl _) s0 s1 s2 V0 V1 V2 N0 N1 N2 Hsum)
    as (F0 & Ft & H0t & Ht1).
  set (n := Z.of_nat (List.length l)).
  assert (Hn : (0 <= n <= 2 ^ 63)%Z) by (unfold n; lia).
  destruct (floor_mul_defined 1074 (Z.le_refl _) (f64_of_Z 0) n Hn I)
    as [i0 E0]; [apply Z.pow_nonneg; lia|].
  destruct (floor_mul_defined 1074 (Z.le_refl _) s0 n Hn F0 ltac:(lia)) as [a Ea].
  destruct (floor_mul_defined 1074 (Z.le_refl _) (f64_add s0 s1) n Hn Ft Ht1)
    as [b Eb].
  destruct (floor_mul_defined 1074 (Z.le_refl _) (f64_of_Z 1) n Hn
              (finite_nonneg_one 1074 (Z.le_refl _)))
    as [i1 E1]; [rewrite (fvalue_one 1074 (Z.le_refl _)); lia|].
  unfold split_slice, split_table, floor_times_len, floor_times. fold n.
  unfold valid_split in Hv. cbn [existsb] in Hv.
  destruct (String.eqb split "train"); [rewrite E0, Ea; eexists; reflexivity|].
  destruct (String.eqb split "val"); [rewrite Ea, Eb; eexists; reflexivity|].
  destruct (String.eqb split "test"); [rewrite Eb, E1; eexists; reflexivity|].
  discriminate Hv.
Qed.

Lemma json_load_seeds_run (p : string) (w : world) (entries : list (string * list Z)) :
  disk w p = Some (SeedsJson entries) ->
  json_load_seeds p w = (Ok entries, log_open p w).
Proof.
  intros H. unfold json_load_seeds.
  erewrite bind_run_ok by (rewrite open_run, H; reflexivity). reflexivity.
Qed.

Lemma EditDataset_init_ok path split splits mi ma cr fl w entries kept :
  valid_split split = true ->
  sums_to_one splits = true ->
  disk w (Path path "seeds.json") = Some (SeedsJson entries) ->
  split_slice split splits entries = Ok kept ->
  EditDataset_init path split splits mi ma cr fl w =
    (Ok {| edit_path := path; edit_min_resize_res := mi;
           edit_max_resize_res := ma; edit_crop_res := cr;
           edit_flip_prob := fl; edit_seeds := kept |},
     log_info (subset_message split (List.length kept))
       (log_info (constructing_message split path)
          (log_open (Path path "seeds.json") w))).
Proof.
  intros Hv Hs Hd Hk. unfold EditDataset_init. rewrite Hv, Hs.
  unfold assert_. cbn [bind ret].
  erewrite bind_run_ok by (apply json_load_seeds_run, Hd).
  unfold logger_info, modify, lift_result, bind. rewrite Hk. reflexivity.
Qed.

Lemma EditDatasetEval_init_ok path split splits res w entries kept :
  valid_split split = true ->
  sums_to_one splits = true ->
  disk w (Path path "seeds.json") = Some (SeedsJson entries) ->
  split_slice split splits entries = Ok kept ->
  EditDatasetEval_init path split splits res w =
    (Ok {| eval_path := path; eval_res := res; eval_seeds := kept |},
     log_open (Path path "seeds.json") w).
Proof.
  intros Hv Hs Hd Hk. unfold EditDatasetEval_init. rewrite Hv, Hs.
  unfold assert_. cbn [bind ret].
  erewrite bind_run_ok by (apply json_load_seeds_run, Hd).
  unfold lift_result, bind. rewrite Hk. reflexivity.
Qed.

Lemma EpicEditDataset_init_ok path splits mi ma cr fl w info rows :
  sums_to_one splits = true ->
  disk w (Path path "info.json") = Some info ->
  is_json info = true ->
  disk w (os_path_join path ["EPIC100_annotations.csv"%string])
    = Some (AnnotationsCsv rows) ->
  exists shuffled w',
    Permutation shuffled (map action_of_row rows) /\
    forall split kept,
      valid_split split = true ->
      split_slice split splits shuffled = Ok kept ->
      EpicEditDataset_init path split splits mi ma cr fl w =
        (Ok {| epic_basedir := path; epic_min_resize_res := mi;
               epic_max_resize_res := ma; epic_crop_res := cr;
               epic_flip_prob := fl; epic_info := info;
               epic_pre_metadata := rows; epic_metadata := kept |},
         log_info (constructed_message split (List.length kept)) w').
Proof.
  intros Hs Hi Hj Hc.
  set (p1 := Path path "info.json") in *.
  set (p2 := os_path_join path ["EPIC100_annotations.csv"%string]) in *.
  set (w2 := log_open p2 (log_open p1 w)).
  destruct (shuffle_from_spec (List.length (map action_of_row rows) - 1)
              (map action_of_row rows) w2)
    as (shuffled & w' & Hrun & Hperm & _).
  exists shuffled, w'. split; [exact Hperm|].
  intros split kept Hv Hk. unfold EpicEditDataset_init. rewrite Hv, Hs.
  unfold assert_. cbn [bind ret]. fold p1 p2.
  assert (H1 : json_load p1 w = (Ok info, log_open p1 w)).
  { unfold json_load. erewrite bind_run_ok by (rewrite open_run, Hi; reflexivity).
    rewrite Hj. reflexivity. }
  rewrite (bind_run_ok _ _ _ _ _ H1).
  assert (H2 : pd_read_csv p2 (log_open p1 w) = (Ok rows, w2)).
  { unfold pd_read_csv.
    erewrite bind_run_ok by (rewrite open_run; cbn [disk log_open]; rewrite Hc;
                              reflexivity).
    reflexivity. }
  rewrite (bind_run_ok _ _ _ _ _ H2).
  unfold np_random_shuffle. rewrite (bind_run_ok _ _ _ _ _ Hrun).
  unfold logger_info, modify, lift_result, bind. rewrite Hk. reflexivity.
Qed.

(** Once both assertions have passed, what a constructor may still raise
    comes from the files or from [math.floor]. *)
Lemma EditDataset_init_no_assertion path split splits mi ma cr fl w :
  valid_split split = true ->
  sums_to_one splits = true ->
  fst (EditDataset_init path split splits mi ma cr fl w) <> Raise AssertionError.
Proof.
  intros Hv Hs. unfold EditDataset_init. rewrite Hv, Hs.
  unfold assert_. cbn [bind ret].
  unfold json_load_seeds, bind at 1 2. rewrite open_run.
  destruct (disk w (Path path "seeds.json")) as [[| | entries | |]|];
    cbn; try discriminate.
  pose proof (split_slice_not_assertion split splits entries Hv) as Hk.
  unfold logger_info, modify, bind, lift_result.
  destruct (split_slice split splits entries) as [kept|e]; cbn [fst];
    [discriminate | congruence].
Qed.

Lemma EditDatasetEval_init_no_assertion path split splits res w :
  valid_split split = true ->
  sums_to_one splits = true ->
  fst (EditDatasetEval_init path split splits res w) <> Raise AssertionError.
Proof.
  intros Hv Hs. unfold EditDatasetEval_init. rewrite Hv, Hs.
  unfold assert_. cbn [bind ret].
  unfold json_load_seeds, bind at 1 2. rewrite open_run.
  destruct (disk w (Path path "seeds.json")) as [[| | entries | |]|];
    cbn; try discriminate.
  pose proof (split_slice_not_assertion split splits entries Hv) as Hk.
  unfold bind, lift_result.
  destruct (split_slice split splits entries) as [kept|e]; cbn [fst];
    [discriminate | congruence].
Qed.

Lemma EpicEditDataset_init_no_assertion path split splits mi ma cr fl w :
  valid_split split = true ->
  sums_to_one splits = true ->
  fst (EpicEditDataset_init path split splits mi ma cr fl w) <> Raise AssertionError.
Proof.
  intros Hv Hs. unfold EpicEditDataset_init. rewrite Hv, Hs.
  unfold assert_. cbn [bind ret].
  unfold json_load, bind at 1 2. rewrite open_run.
  destruct (disk w (Path path "info.json")) as [info|]; [|discriminate].
  destruct (is_json info); [|discriminate]. cbn [ret].
  unfold pd_read_csv, bind at 1 2. rewrite open_run.
  lazymatch goal with
  | |- context [disk ?w' ?p] => destruct (disk w' p) as [[| rows | | |]|]
  end; cbv beta iota delta [ret raise]; cbn [fst]; try discriminate.
  unfold np_random_shuffle.
  lazymatch goal with
  | |- context [bind (shuffle_from ?i ?x) _ ?w'] =>
      destruct (shuffle_from_spec i x w') as (sh & w'' & Hrun & _)
  end.
  rewrite (bind_run_ok _ _ _ _ _ Hrun).
  pose proof (split_slice_not_assertion split splits sh Hv) as Hk.
  unfold logger_info, modify, bind, lift_result.
  destruct (split_slice split splits sh) as [kept|e]; cbn [fst];
    [discriminate | congruence].
Qed.

(** The assertions are the first thing a constructor does. *)
Lemma init_assertion_iff path split splits mi ma cr fl res w :
  (fst (EpicEditDataset_init path split splits mi ma cr fl w) = Raise AssertionError
   <-> valid_split split = false \/ sums_to_one splits = false) /\
  (fst (EditDataset_init path split splits mi ma cr fl w) = Raise AssertionError
   <-> valid_split split = false \/ sums_to_one splits = false) /\
  (fst (EditDatasetEval_init path split splits res w) = Raise AssertionError
   <-> valid_split split = false \/ sums_to_one splits = false).
Proof.
  destruct (valid_split split) eqn:Hv.
  - destruct (sums_to_one splits) eqn:Hs.
    + repeat split; intros H; try (destruct H; discriminate); exfalso.
      * eapply EpicEditDataset_init_no_assertion; [exact Hv | exact Hs | exact H].
      * eapply EditDataset_init_no_assertion; [exact Hv | exact Hs | exact H].
      * eapply EditDatasetEval_init_no_assertion; [exact Hv | exact Hs | exact H].
    + unfold EpicEditDataset_init, EditDataset_init, EditDatasetEval_init.
      rewrite Hv, Hs. cbn. repeat split; auto.
  - unfold EpicEditDataset_init, EditDataset_init, EditDatasetEval_init.
    rewrite Hv. cbn. repeat split; auto.
Qed.

(** C6, the claim as stated fails, in both directions. The default
    proportions (0.9, 0.05, 0.05) are accepted although the three binary64
    numbers do not sum to one. The proportions (1e16, 1.0, -1e16) sum to
    one and are refused: [1e16 + 1.0] rounds to [1e16], so that the sum the
    code computes is [0.0]. And (0.7, 0.2, 0.1), which sum to one as
    decimal numbers, are refused: the sum the code computes is
    [0.9999999999999999]. *)
Lemma C6_counterexample_rounded_sum :
  (~ (f64_to_Q (decimal 9 10) + f64_to_Q (decimal 5 100)
      + f64_to_Q (decimal 5 100) == 1)%Q /\
   is_ok (fst (EditDataset_init "data" "train"
                 (decimal 9 10, decimal 5 100, decimal 5 100) 2 2 2 0%Q
                 (example_world 0))) = true) /\
  ((f64_to_Q (f64_of_Z (10 ^ 16)) + f64_to_Q (f64_of_Z 1)
    + f64_to_Q (f64_of_Z (- 10 ^ 16)) == 1)%Q /\
   sum_splits (f64_of_Z (10 ^ 16), f64_of_Z 1, f64_of_Z (- 10 ^ 16)) = f64_of_Z 0 /\
   fst (EditDataset_init "data" "train"
          (f64_of_Z (10 ^ 16), f64_of_Z 1, f64_of_Z (- 10 ^ 16)) 2 2 2 0%Q
          (example_world 0)) = Raise AssertionError) /\
  ((7 # 10) + (2 # 10) + (1 # 10) == 1)%Q /\
  sum_splits (decimal 7 10, decimal 2 10, decimal 1 10)
    = S754_finite false 9007199254740991 (-53) /\
  fst (EditDataset_init "data" "train"
         (decimal 7 10, decimal 2 10, decimal 1 10) 2 2 2 0%Q
         (example_world 0)) = Raise AssertionError.
Proof.
  split; [split|split; [split; [|split]|split; [|split]]].
  - vm_compute. discriminate.
  - vm_compute. reflexivity.
  - vm_compute. reflexivity.
  - vm_compute. reflexivity.
  - vm_compute. reflexivity.
  - vm_compute. reflexivity.
  - vm_compute. reflexivity.
  - vm_compute. reflexivity.
Qed.

(** C6, as amended. Each of the three constructors raises
    [AssertionError] exactly when [split] is not one of train, val and
    test or the sum that [sum(splits)] computes, adding the proportions to
    [0] from left to right in binary64, is not [1.0]: a tuple whose
    computed sum differs from one is always refused, and for a tuple whose
    computed sum is one the assertion on the sum passes. *)
Theorem C6_constructors_assert_sum :
  forall path split splits mi ma cr fl res w,
    (fst (EpicEditDataset_init path split splits mi ma cr fl w) = Raise AssertionError
     <-> valid_split split = false \/
         SFeqb (sum_splits splits) (f64_of_Z 1) = false) /\
    (fst (EditDataset_init path split splits mi ma cr fl w) = Raise AssertionError
     <-> valid_split split = false \/
         SFeqb (sum_splits splits) (f64_of_Z 1) = false) /\
    (fst (EditDatasetEval_init path split splits res w) = Raise AssertionError
     <-> valid_split split = false \/
         SFeqb (sum_splits splits) (f64_of_Z 1) = false).
Proof.
  intros path split splits mi ma cr fl res w.
  exact (init_assertion_iff path split splits mi ma cr fl res w).
Qed.




(** ** Decimal strings and frame names *)

Lemma digit_value_char (d : N) : (d < 10)%N -> digit_value (digit_char d) = d.
Proof.
  intros H. unfold digit_value, digit_char.
  rewrite N_ascii_embedding by lia. lia.
Qed.

Lemma is_digit_char (d : N) : (d < 10)%N -> is_digit (digit_char d) = true.
Proof.
  intros H. unfold is_digit, digit_char.
  rewrite N_ascii_embedding by lia.
  apply andb_true_intro. split; apply N.leb_le; lia.
Qed.

Lemma decimal_value_snoc (s : list ascii) (c : ascii) :
  decimal_value (s ++ [c]) = (10 * decimal_value s + digit_value c)%N.
Proof. unfold decimal_value. rewrite fold_left_app. reflexivity. Qed.

Lemma digits_fuel_value (fuel : nat) (n : N) :
  (n < 2 ^ N.of_nat fuel)%N -> decimal_value (digits_fuel fuel n) = n.
Proof.
  revert n. induction fuel as [|f IH]; intros n Hn.
  - cbn in *. lia.
  - cbn [digits_fuel]. destruct (N.ltb_spec n 10) as [Hlt|Hge].
    + cbn. rewrite digit_value_char by exact Hlt. lia.
    + rewrite decimal_value_snoc, IH.
      * rewrite digit_value_char by (apply N.mod_lt; lia).
        symmetry. apply N.div_mod'.
      * rewrite Nat2N.inj_succ, N.pow_succ_r' in Hn.
        apply N.Div0.div_lt_upper_bound; lia.
Qed.

Lemma digits_fuel_length (fuel : nat) (n : N) (k : nat) :
  1 <= k -> (n < 10 ^ N.of_nat k)%N -> List.length (digits_fuel fuel n) <= k.
Proof.
  revert n k. induction fuel as [|f IH]; intros n k Hk Hn; cbn [digits_fuel].
  - cbn. lia.
  - destruct (N.ltb_spec n 10) as [Hlt|Hge].
    + cbn. lia.
    + rewrite length_app. cbn [List.length].
      destruct k as [|[|k]]; [lia | cbn in Hn; lia |].
      assert (List.length (digits_fuel f (n / 10)) <= S k); [|lia].
      apply IH; [lia|].
      rewrite (Nat2N.inj_succ (S k)), N.pow_succ_r' in Hn.
      apply N.Div0.div_lt_upper_bound; lia.
Qed.

Lemma digits_fuel_all_digits (fuel : nat) (n : N) :
  Forall (fun c => is_digit c = true) (digits_fuel fuel n).
Proof.
  revert n. induction fuel as [|f IH]; intros n; cbn [digits_fuel].
  - constructor.
  - destruct (N.ltb_spec n 10) as [Hlt|Hge].
    + constructor; [apply is_digit_char, Hlt | constructor].
    + apply Forall_app. split; [apply IH|].
      constructor; [|constructor]. apply is_digit_char, N.mod_lt. lia.
Qed.

Lemma digits_value (n : N) : decimal_value (digits n) = n.
Proof.
  unfold digits. apply digits_fuel_value.
  destruct n as [|p]; [cbn; lia|].
  rewrite Nat2N.inj_succ, N2Nat.id.
  apply N.log2_spec. lia.
Qed.

Lemma length_string_of_list_ascii (l : list ascii) :
  String.length (string_of_list_ascii l) = List.length l.
Proof. induction l as [|c l IH]; cbn; [reflexivity | f_equal; exact IH]. Qed.

Lemma list_ascii_of_string_app (a b : string) :
  list_ascii_of_string (a ++ b) = list_ascii_of_string a ++ list_ascii_of_string b.
Proof. induction a as [|c a IH]; cbn; [reflexivity | f_equal; exact IH]. Qed.

Lemma zeros_length (k : nat) : String.length (zeros k) = k.
Proof. induction k as [|k IH]; cbn; [reflexivity | f_equal; exact IH]. Qed.

Lemma zeros_all_digits (k : nat) :
  Forall (fun c => is_digit c = true) (list_ascii_of_string (zeros k)).
Proof. induction k as [|k IH]; cbn; constructor; [reflexivity | exact IH]. Qed.

Lemma decimal_value_zeros (k : nat) (s : list ascii) :
  decimal_value (list_ascii_of_string (zeros k) ++ s) = decimal_value s.
Proof.
  unfold decimal_value. rewrite fold_left_app. f_equal.
  induction k as [|k IH]; cbn; [reflexivity | exact IH].
Qed.

Lemma string_length_app (a b : string) :
  String.length (a ++ b) = String.length a + String.length b.
Proof. induction a as [|c a IH]; cbn; [reflexivity | f_equal; exact IH]. Qed.

Lemma format_0d_zero_padded (index : Z) :
  (0 <= index < 10 ^ 10)%Z ->
  zero_padded 10 index (format_0d 10 index).
Proof.
  intros [Hlo Hhi]. unfold format_0d, str_of_N.
  change (10 ^ 10)%Z with 10000000000%Z in Hhi.
  destruct (Z.ltb_spec index 0) as [Hneg|_]; [lia|].
  cbn [String.append String.length]. rewrite Nat.sub_0_r.
  rewrite Zabs2N.abs_N_nonneg by exact Hlo.
  assert (Hlen : List.length (digits (Z.to_N index)) <= 10).
  { unfold digits. apply digits_fuel_length; [lia|].
    change (10 ^ N.of_nat 10)%N with 10000000000%N. lia. }
  rewrite length_string_of_list_ascii.
  unfold zero_padded. repeat split.
  - rewrite string_length_app, zeros_length, length_string_of_list_ascii. lia.
  - rewrite list_ascii_of_string_app, list_ascii_of_string_of_list_ascii.
    apply Forall_app. split; [apply zeros_all_digits | apply digits_fuel_all_digits].
  - rewrite list_ascii_of_string_app, list_ascii_of_string_of_list_ascii.
    rewrite decimal_value_zeros, digits_value. lia.
  - eexists. unfold str_of_Z, str_of_N.
    destruct (Z.ltb_spec index 0) as [Hneg|_]; [lia|].
    rewrite Zabs2N.abs_N_nonneg by exact Hlo. reflexivity.
Qed.

(** ** What a computation leaves unchanged *)

Lemma preserves_ret {S A X} (f : S -> X) (a : A) : preserves f (ret a).
Proof. intros s. reflexivity. Qed.

Lemma preserves_raise {S A X} (f : S -> X) (e : exn) : preserves f (@raise S A e).
Proof. intros s. reflexivity. Qed.

Lemma preserves_lift_result {S A X} (f : S -> X) (r : result A) :
  preserves f (lift_result r).
Proof. intros s. reflexivity. Qed.

Lemma preserves_gets {S A X} (f : S -> X) (g : S -> A) : preserves f (gets g).
Proof. intros s. reflexivity. Qed.

Lemma preserves_bind {S A B X} (f : S -> X) (c : M S A) (k : A -> M S B) :
  preserves f c -> (forall a, preserves f (k a)) -> preserves f (bind c k).
Proof.
  intros Hc Hk s. unfold bind. specialize (Hc s).
  destruct (c s) as [[a|e] s1]; cbn in *.
  - rewrite Hk. exact Hc.
  - exact Hc.
Qed.

Lemma preserves_modify {S X} (f : S -> X) (g : S -> S) :
  (forall s, f (g s) = f s) -> preserves f (modify g).
Proof. intros H s. apply H. Qed.

Lemma preserves_assert {S X} (f : S -> X) (b : bool) : preserves f (assert_ b).
Proof. destruct b; [apply preserves_ret | apply preserves_raise]. Qed.

Lemma preserves_liftW_self {O A} (c : M world A) : preserves (@self O) (liftW c).
Proof. intros s. unfold liftW. destruct (c (env s)). reflexivity. Qed.

Lemma preserves_liftW_env {O A X} (f : world -> X) (c : M world A) :
  preserves f c -> preserves (fun s : state O => f (env s)) (liftW c).
Proof.
  intros H s. unfold liftW. specialize (H (env s)).
  destruct (c (env s)). exact H.
Qed.

Create HintDb frame.
#[local] Hint Resolve preserves_ret preserves_raise preserves_lift_result
  preserves_gets preserves_assert preserves_liftW_self : frame.

Ltac frame :=
  repeat first
    [ apply preserves_ret | apply preserves_raise | apply preserves_lift_result
    | apply preserves_gets | apply preserves_assert | apply preserves_liftW_self
    | apply preserves_modify; reflexivity
    | apply preserves_bind; [|intros]
    | match goal with
      | |- preserves _ (if ?b then _ else _) => destruct b
      | |- preserves _ (match ?x with _ => _ end) => destruct x
      end
    | solve [auto with frame] ].

Lemma len_preserves_self :
  preserves (@self _) EpicEditDataset_len /\
  preserves (@self _) EditDataset_len /\
  preserves (@self _) EditDatasetEval_len.
Proof.
  unfold EpicEditDataset_len, EditDataset_len, EditDatasetEval_len, get_self.
  repeat split; frame.
Qed.

Section Frame.

Variable resample : nat -> pil_image -> pil_image.

Lemma EpicEditDataset_getitem_preserves_self (index : Z) :
  preserves (@self _) (EpicEditDataset_getitem resample index).
Proof. unfold EpicEditDataset_getitem, get_self. frame. Qed.

Lemma EditDataset_getitem_preserves_self (i : Z) :
  preserves (@self _) (EditDataset_getitem resample i).
Proof. unfold EditDataset_getitem, get_self. frame. Qed.

Lemma EditDatasetEval_getitem_preserves_self (i : Z) :
  preserves (@self _) (EditDatasetEval_getitem resample i).
Proof. unfold EditDatasetEval_getitem, get_self. frame. Qed.

(** C5. [__len__] and [__getitem__] of the three classes leave the object
    as they found it, whether they return or raise: the manifest slice
    ([metadata], [seeds]) and every configuration field keep their value,
    so [__len__] gives the same number before and after any call. *)
Theorem C5_methods_leave_object_unchanged :
  (forall (s : state EpicEditDataset) (index : Z),
      self (snd (EpicEditDataset_getitem resample index s)) = self s /\
      self (snd (EpicEditDataset_len s)) = self s /\
      fst (EpicEditDataset_len s) = Ok (List.length (epic_metadata (self s))) /\
      fst (EpicEditDataset_len (snd (EpicEditDataset_getitem resample index s)))
        = fst (EpicEditDataset_len s)) /\
  (forall (s : state EditDataset) (i : Z),
      self (snd (EditDataset_getitem resample i s)) = self s /\
      self (snd (EditDataset_len s)) = self s /\
      fst (EditDataset_len s) = Ok (List.length (edit_seeds (self s))) /\
      fst (EditDataset_len (snd (EditDataset_getitem resample i s)))
        = fst (EditDataset_len s)) /\
  (forall (s : state EditDatasetEval) (i : Z),
      self (snd (EditDatasetEval_getitem resample i s)) = self s /\
      self (snd (EditDatasetEval_len s)) = self s /\
      fst (EditDatasetEval_len s) = Ok (List.length (eval_seeds (self s))) /\
      fst (EditDatasetEval_len (snd (EditDatasetEval_getitem resample i s)))
        = fst (EditDatasetEval_len s)).
Proof.
  destruct len_preserves_self as (L1 & L2 & L3).
  split; [|split]; intros s i.
  - pose proof (EpicEditDataset_getitem_preserves_self i s) as G.
    split; [exact G|]. split; [apply L1|]. split; [reflexivity|].
    change (Ok (List.length (epic_metadata
              (self (snd (EpicEditDataset_getitem resample i s)))))
            = Ok (List.length (epic_metadata (self s)))).
    rewrite G. reflexivity.
  - pose proof (EditDataset_getitem_preserves_self i s) as G.
    split; [exact G|]. split; [apply L2|]. split; [reflexivity|].
    change (Ok (List.length (edit_seeds
              (self (snd (EditDataset_getitem resample i s)))))
            = Ok (List.length (edit_seeds (self s)))).
    rewrite G. reflexivity.
  - pose proof (EditDatasetEval_getitem_preserves_self i s) as G.
    split; [exact G|]. split; [apply L3|]. split; [reflexivity|].
    change (Ok (List.length (eval_seeds
              (self (snd (EditDatasetEval_getitem resample i s)))))
            = Ok (List.length (eval_seeds (self s)))).
    rewrite G. reflexivity.
Qed.

End Frame.

(** ** Tensors: normalisation, crop, flip, chunk *)

Lemma normalize_pixel_range (v : byte) :
  in_unit_range (normalize_pixel v) /\
  (Qabs (f32_to_Q (normalize_pixel v)
         - (2 * inject_Z (Z.of_N (Byte.to_N v)) / 255 - 1)) <= Qmake 1 (2 ^ 24))%Q.
Proof.
  split.
  - destruct v; split; vm_compute; reflexivity.
  - apply Qle_bool_iff. destruct v; vm_compute; reflexivity.
Qed.

Lemma zero_in_unit_range : in_unit_range (S754_zero false).
Proof. split; reflexivity. Qed.

Lemma normalize_hwc_all (px : list (list (list byte))) :
  Forall (Forall (Forall in_unit_range)) (normalize_hwc px).
Proof.
  unfold normalize_hwc.
  apply Forall_map, Forall_forall. intros row _.
  apply Forall_map, Forall_forall. intros p _.
  apply Forall_map, Forall_forall. intros v _.
  apply normalize_pixel_range.
Qed.

Lemma rearrange_all (P : f32 -> Prop) (c : nat) (a : list (list (list f32))) :
  P (S754_zero false) -> Forall (Forall (Forall P)) a ->
  tensor_all P (rearrange_hwc_chw c a).
Proof.
  intros H0 Ha. unfold tensor_all, rearrange_hwc_chw.
  apply Forall_map, Forall_forall. intros k _.
  apply Forall_map. eapply Forall_impl; [|exact Ha]. intros row Hrow.
  apply Forall_map. eapply Forall_impl; [|exact Hrow]. intros p Hp.
  destruct (nth_in_or_default k p (S754_zero false)) as [Hin| ->]; [|exact H0].
  rewrite Forall_forall in Hp. apply Hp, Hin.
Qed.

Lemma to_tensor_ok (resample : nat -> pil_image -> pil_image) r img t :
  to_tensor (resample r img) = Ok t -> t = resized_tensor resample r img.
Proof.
  unfold to_tensor, resized_tensor.
  destruct (mode (resample r img)); intros H; inversion H; reflexivity.
Qed.

Lemma resized_tensor_all resample r img :
  tensor_all in_unit_range (resized_tensor resample r img).
Proof.
  apply rearrange_all; [apply zero_in_unit_range | apply normalize_hwc_all].
Qed.

Lemma Forall_firstn {A} (P : A -> Prop) (n : nat) (l : list A) :
  Forall P l -> Forall P (firstn n l).
Proof.
  intros H. revert n. induction H as [|x l Hx Hl IH]; intros [|n]; cbn;
    constructor; auto.
Qed.

Lemma Forall_skipn {A} (P : A -> Prop) (n : nat) (l : list A) :
  Forall P l -> Forall P (skipn n l).
Proof.
  revert l. induction n as [|n IH]; intros l H; cbn; [exact H|].
  destruct H as [|x l Hx Hl]; [constructor | apply IH, Hl].
Qed.

Lemma crop_all (P : f32 -> Prop) top left h w t :
  tensor_all P t -> tensor_all P (crop top left h w t).
Proof.
  unfold tensor_all, crop. intros H.
  apply Forall_map. eapply Forall_impl; [|exact H]. intros plane Hp.
  apply Forall_map. apply Forall_firstn, Forall_skipn.
  eapply Forall_impl; [|exact Hp]. intros row Hr.
  apply Forall_firstn, Forall_skipn, Hr.
Qed.

Lemma hflip_all (P : f32 -> Prop) t : tensor_all P t -> tensor_all P (hflip t).
Proof.
  unfold tensor_all, hflip. intros H.
  apply Forall_map. eapply Forall_impl; [|exact H]. intros plane Hp.
  apply Forall_map. eapply Forall_impl; [|exact Hp]. intros row Hr.
  apply Forall_rev, Hr.
Qed.

Lemma crop_flip_all (P : f32 -> Prop) top left size b t :
  tensor_all P t -> tensor_all P (crop_flip top left size b t).
Proof.
  intros H. unfold crop_flip. destruct b; [apply hflip_all|]; apply crop_all, H.
Qed.

Lemma crop_flip_app top left size b (x y : tensor) :
  crop_flip top left size b (x ++ y)
  = crop_flip top left size b x ++ crop_flip top left size b y.
Proof.
  unfold crop_flip, hflip, crop. destruct b; rewrite ?map_app; reflexivity.
Qed.

Lemma crop_flip_channels top left size b t :
  channels (crop_flip top left size b t) = channels t.
Proof.
  unfold crop_flip, hflip, crop, channels.
  destruct b; rewrite ?length_map; reflexivity.
Qed.

Lemma chunk2_ok (t t0 t1 : tensor) :
  chunk2 t = Ok (t0, t1) ->
  t0 ++ t1 = t /\ t0 = firstn ((channels t + 1) / 2) t.
Proof.
  unfold chunk2. destruct (channels t <? 2); intros H; inversion H.
  split; [apply firstn_skipn | reflexivity].
Qed.

Lemma chunk2_app (x y : tensor) :
  channels x = channels y -> 1 <= channels x ->
  chunk2 (x ++ y) = Ok (x, y).
Proof.
  unfold chunk2, channels. intros E H1. rewrite length_app, <- E.
  replace ((List.length x + List.length x + 1) / 2) with (List.length x + 0).
  - destruct (Nat.ltb_spec (List.length x + List.length x) 2); [lia|].
    rewrite firstn_app_2, skipn_app, Nat.add_0_r, skipn_all.
    cbn [firstn]. rewrite app_nil_r, Nat.sub_diag. reflexivity.
  - rewrite Nat.add_0_r. apply (Nat.div_unique _ 2 _ 1); lia.
Qed.

(** ** Random draws *)

Lemma torch_randint_run (lo hi : nat) (w : world) :
  lo < hi ->
  torch_randint lo hi w
  = (Ok (lo + torch_draws w (torch_pos w) mod (hi - lo)), torch_advance w).
Proof.
  intros H. unfold torch_randint.
  destruct (Nat.leb_spec hi lo); [lia | reflexivity].
Qed.

Lemma torch_randint_ok (lo hi : nat) (w : world) r w' :
  torch_randint lo hi w = (Ok r, w') ->
  lo <= r < hi /\ w' = torch_advance w.
Proof.
  unfold torch_randint. destruct (Nat.leb_spec hi lo) as [Hle|Hlt].
  - discriminate.
  - intros H. inversion H; subst. split; [|reflexivity].
    pose proof (Nat.mod_upper_bound (torch_draws w (torch_pos w)) (hi - lo)).
    lia.
Qed.

Lemma torch_randint_frame (lo hi : nat) :
  preserves opened (torch_randint lo hi) /\ preserves disk (torch_randint lo hi).
Proof.
  unfold torch_randint, torch_next.
  split; destruct (hi <=? lo); frame.
Qed.

Lemma torch_rand_lt_frame (p : Q) :
  preserves opened (torch_rand_lt p) /\ preserves disk (torch_rand_lt p).
Proof.
  unfold torch_rand_lt, torch_next.
  split; frame.
Qed.

Lemma RandomCrop_ok (size : nat) (t : tensor) (w : world) t' w' :
  RandomCrop size t w = (Ok t', w') ->
  exists top left,
    t' = crop top left size size t /\
    top + size <= height t /\ left + size <= width t.
Proof.
  unfold RandomCrop.
  destruct (Nat.ltb_spec (height t) size) as [|Hh]; [discriminate|].
  destruct (Nat.ltb_spec (width t) size) as [|Hw]; [discriminate|].
  cbn [orb].
  destruct (Nat.eqb_spec (width t) size) as [Ew|Nw];
    [destruct (Nat.eqb_spec (height t) size) as [Eh|Nh]|]; cbn [andb]; intros H.
  - inversion H; subst. exists 0, 0. rewrite Eh. repeat split; lia.
  - apply bind_ok in H. destruct H as (i & w1 & Hi & H).
    apply bind_ok in H. destruct H as (j & w2 & Hj & H).
    inversion H; subst. apply torch_randint_ok in Hi, Hj.
    exists i, j. repeat split; lia.
  - apply bind_ok in H. destruct H as (i & w1 & Hi & H).
    apply bind_ok in H. destruct H as (j & w2 & Hj & H).
    inversion H; subst. apply torch_randint_ok in Hi, Hj.
    exists i, j. repeat split; lia.
Qed.

Lemma RandomCrop_runs (size : nat) (t : tensor) (w : world) :
  size <= height t -> size <= width t ->
  exists t' w', RandomCrop size t w = (Ok t', w').
Proof.
  intros Hh Hw. unfold RandomCrop.
  destruct (Nat.ltb_spec (height t) size); [lia|].
  destruct (Nat.ltb_spec (width t) size); [lia|]. cbn [orb].
  destruct ((width t =? size) && (height t =? size)); [eexists _, _; reflexivity|].
  erewrite bind_run_ok by (apply torch_randint_run; lia).
  erewrite bind_run_ok by (apply torch_randint_run; lia).
  eexists _, _; reflexivity.
Qed.

Lemma RandomCrop_frame (size : nat) (t : tensor) :
  preserves opened (RandomCrop size t) /\ preserves disk (RandomCrop size t).
Proof.
  unfold RandomCrop. cbv zeta.
  split; frame; apply torch_randint_frame.
Qed.

Lemma RandomHorizontalFlip_run (p : Q) (t : tensor) (w : world) :
  exists b : bool, RandomHorizontalFlip p t w
            = (Ok (if b then hflip t else t), torch_advance w).
Proof. eexists. reflexivity. Qed.

Lemma RandomHorizontalFlip_frame (p : Q) (t : tensor) :
  preserves opened (RandomHorizontalFlip p t) /\
  preserves disk (RandomHorizontalFlip p t).
Proof.
  unfold RandomHorizontalFlip. split; frame.
Qed.

(** ** The paired transform *)

Section Transform.

Variable resample : nat -> pil_image -> pil_image.

Lemma resized_tensor_channels r img :
  channels (resized_tensor resample r img) = bands (mode (resample r img)).
Proof.
  unfold resized_tensor, rearrange_hwc_chw, channels.
  rewrite length_map, length_seq. reflexivity.
Qed.

Lemma to_tensor_run r img :
  mode (resample r img) <> ModeL ->
  to_tensor (resample r img) = Ok (resized_tensor resample r img).
Proof.
  unfold to_tensor, resized_tensor.
  destruct (mode (resample r img)); [congruence | reflexivity | reflexivity].
Qed.

Lemma paired_transform_frame mi ma cr fl im0 im1 :
  preserves opened (paired_transform resample mi ma cr fl im0 im1) /\
  preserves disk (paired_transform resample mi ma cr fl im0 im1).
Proof.
  unfold paired_transform.
  split; frame;
    first [apply torch_randint_frame | apply RandomCrop_frame
          | apply RandomHorizontalFlip_frame].
Qed.

(** Whatever the draws, a pair that comes out was cut by one window and
    one flip decision out of the two resized images, and then split. *)
Lemma paired_transform_ok mi ma cr fl im0 im1 w t0 t1 w' :
  paired_transform resample mi ma cr fl im0 im1 w = (Ok (t0, t1), w') ->
  exists r top left b,
    mi <= r <= ma /\ 0 < r /\
    chunk2 (crop_flip top left cr b (resized_tensor resample r im0) ++
            crop_flip top left cr b (resized_tensor resample r im1))
      = Ok (t0, t1).
Proof.
  unfold paired_transform. intros H.
  apply bind_ok in H. destruct H as (r & w1 & Hr & H).
  apply torch_randint_ok in Hr. destruct Hr as [Hr _].
  apply bind_ok in H. destruct H as (i0 & w2 & Hi0 & H).
  apply lift_result_ok in Hi0. destruct Hi0 as [Hi0 ->].
  apply bind_ok in H. destruct H as (i1 & w3 & Hi1 & H).
  apply lift_result_ok in Hi1. destruct Hi1 as [Hi1 ->].
  unfold Image_resize in Hi0, Hi1.
  destruct (Nat.eqb_spec r 0) as [|Hpos]; [discriminate|].
  inversion Hi0; subst i0. inversion Hi1; subst i1. clear Hi0 Hi1.
  apply bind_ok in H. destruct H as (a0 & w4 & Ha0 & H).
  apply lift_result_ok in Ha0. destruct Ha0 as [Ha0 ->].
  apply bind_ok in H. destruct H as (a1 & w5 & Ha1 & H).
  apply lift_result_ok in Ha1. destruct Ha1 as [Ha1 ->].
  apply to_tensor_ok in Ha0, Ha1. subst a0 a1.
  apply bind_ok in H. destruct H as (both & w6 & Hcat & H).
  apply lift_result_ok in Hcat. destruct Hcat as [Hcat ->].
  unfold torch_cat in Hcat.
  destruct (_ && _) in Hcat; [|discriminate]. inversion Hcat; subst both.
  apply bind_ok in H. destruct H as (cropped & w7 & Hcrop & H).
  apply RandomCrop_ok in Hcrop. destruct Hcrop as (top & left & -> & _).
  apply bind_ok in H. destruct H as (flipped & w8 & Hflip & H).
  destruct (RandomHorizontalFlip_run fl
              (crop top left cr cr (resized_tensor resample r im0 ++
                                    resized_tensor resample r im1)) w7)
    as [b Hb].
  rewrite Hb in Hflip. inversion Hflip; subst flipped w8. clear Hflip.
  apply lift_result_ok in H. destruct H as [H _].
  exists r, top, left, b. split; [lia|]. split; [lia|].
  rewrite <- crop_flip_app. exact H.
Qed.

(** With as many bands in both images, each half is one image. *)
Lemma paired_transform_halves mi ma cr fl im0 im1 w t0 t1 w' :
  (forall r, mode (resample r im0) = mode (resample r im1)) ->
  paired_transform resample mi ma cr fl im0 im1 w = (Ok (t0, t1), w') ->
  exists r top left b,
    mi <= r <= ma /\ 0 < r /\
    t0 = crop_flip top left cr b (resized_tensor resample r im0) /\
    t1 = crop_flip top left cr b (resized_tensor resample r im1).
Proof.
  intros Hmode H.
  destruct (paired_transform_ok _ _ _ _ _ _ _ _ _ _ H)
    as (r & top & left & b & Hr & Hpos & Hchunk).
  exists r, top, left, b. split; [exact Hr|]. split; [exact Hpos|].
  rewrite chunk2_app in Hchunk.
  - inversion Hchunk. split; reflexivity.
  - rewrite !crop_flip_channels, !resized_tensor_channels, Hmode. reflexivity.
  - rewrite crop_flip_channels, resized_tensor_channels.
    destruct (mode (resample r im0)); cbn; lia.
Qed.

Hypothesis resample_good : resample_ok resample.

Lemma resample_keeps_mode r img : mode (resample r img) = mode img.
Proof. apply resample_good. Qed.

Lemma resized_tensor_shape r img :
  0 < r ->
  channels (resized_tensor resample r img) = bands (mode img) /\
  height (resized_tensor resample r img) = r /\
  width (resized_tensor resample r img) = r.
Proof.
  intros Hr. destruct (resample_good r img) as [Hm [Hlen Hrows]].
  split; [rewrite resized_tensor_channels, Hm; reflexivity|].
  unfold resized_tensor, rearrange_hwc_chw, normalize_hwc, height, width.
  destruct (pixels (resample r img)) as [|row rest]; [cbn in Hlen; lia|].
  apply Forall_inv in Hrows. destruct Hrows as [Hrow _].
  assert (Hb : exists k, bands (mode (resample r img)) = S k)
    by (destruct (mode (resample r img)); eexists; reflexivity).
  destruct Hb as [k ->]. cbn [seq map hd List.length] in *.
  rewrite !length_map. split; [exact Hlen | exact Hrow].
Qed.

Lemma height_app (x y : tensor) : 1 <= channels x -> height (x ++ y) = height x.
Proof. destruct x; cbn; [lia | reflexivity]. Qed.

Lemma width_app (x y : tensor) : 1 <= channels x -> width (x ++ y) = width x.
Proof. destruct x; cbn; [lia | reflexivity]. Qed.

Lemma bands_pos (m : pil_mode) : 1 <= bands m.
Proof. destruct m; cbn; lia. Qed.

(** With sizes that fit and two colour images the transform returns. *)
Lemma paired_transform_runs mi ma cr fl im0 im1 w :
  0 < mi -> mi <= ma -> cr <= mi ->
  mode im0 <> ModeL -> mode im1 <> ModeL ->
  exists t0 t1 w', paired_transform resample mi ma cr fl im0 im1 w = (Ok (t0, t1), w').
Proof.
  intros Hmi Hma Hcr Hm0 Hm1. unfold paired_transform.
  set (r := mi + torch_draws w (torch_pos w) mod (ma + 1 - mi)).
  assert (Hr : mi <= r <= ma).
  { pose proof (Nat.mod_upper_bound (torch_draws w (torch_pos w)) (ma + 1 - mi)).
    unfold r. lia. }
  erewrite bind_run_ok by (apply torch_randint_run; lia). fold r.
  unfold Image_resize. destruct (Nat.eqb_spec r 0) as [|_]; [lia|].
  unfold lift_result at 1 2. cbn [bind].
  rewrite !to_tensor_run by (rewrite resample_keeps_mode; assumption).
  unfold lift_result at 1 2. cbn [bind].
  destruct (resized_tensor_shape r im0 ltac:(lia)) as (Hc0 & Hh0 & Hw0).
  destruct (resized_tensor_shape r im1 ltac:(lia)) as (Hc1 & Hh1 & Hw1).
  unfold torch_cat. rewrite Hh0, Hh1, Hw0, Hw1, !Nat.eqb_refl.
  unfold lift_result at 1. cbn [andb bind].
  set (both := resized_tensor resample r im0 ++ resized_tensor resample r im1).
  assert (Hh : height both = r)
    by (unfold both; rewrite height_app; [exact Hh0 | rewrite Hc0; apply bands_pos]).
  assert (Hw : width both = r)
    by (unfold both; rewrite width_app; [exact Hw0 | rewrite Hc0; apply bands_pos]).
  destruct (RandomCrop_runs cr both (torch_advance w)) as (cropped & w1 & Hcrop);
    [lia | lia |].
  rewrite (bind_run_ok _ _ _ _ _ Hcrop).
  destruct (RandomHorizontalFlip_run fl cropped w1) as [b Hb].
  rewrite (bind_run_ok _ _ _ _ _ Hb).
  apply RandomCrop_ok in Hcrop. destruct Hcrop as (top & left & -> & _).
  unfold lift_result, chunk2.
  match goal with
  | |- context [channels ?t <? 2] =>
      assert (Hch : 2 <= channels t);
      [|destruct (Nat.ltb_spec (channels t) 2) as [Hlt|_];
        [lia | eexists _, _, _; reflexivity]]
  end.
  unfold channels, both. destruct b; unfold hflip, crop;
    rewrite ?length_map, length_app;
    fold (channels (resized_tensor resample r im0));
    fold (channels (resized_tensor resample r im1));
    rewrite Hc0, Hc1;
    pose proof (bands_pos (mode im0)); pose proof (bands_pos (mode im1)); lia.
Qed.

End Transform.

(** ** Files and indices *)

Lemma Image_open_run (p : string) (w : world) (img : pil_image) :
  disk w p = Some (Jpeg img) -> Image_open p w = (Ok img, log_open p w).
Proof.
  intros H. unfold Image_open.
  erewrite bind_run_ok by (rewrite open_run, H; reflexivity). reflexivity.
Qed.

Lemma Image_open_ok (p : string) (w : world) (img : pil_image) (w' : world) :
  Image_open p w = (Ok img, w') ->
  disk w p = Some (Jpeg img) /\ w' = log_open p w.
Proof.
  unfold Image_open, bind. rewrite open_run.
  destruct (disk w p) as [[| | | |i]|]; cbn; intros H; inversion H.
  split; reflexivity.
Qed.

Lemma Image_open_log (p : string) (w : world) :
  opened (snd (Image_open p w)) = opened w ++ [p] /\
  disk (snd (Image_open p w)) = disk w.
Proof.
  unfold Image_open, bind. rewrite open_run.
  destruct (disk w p) as [[| | | |i]|]; cbn; split; reflexivity.
Qed.

Lemma json_load_prompt_run (p : string) (w : world) fields :
  disk w p = Some (PromptJson fields) ->
  json_load_prompt p w = (Ok fields, log_open p w).
Proof.
  intros H. unfold json_load_prompt.
  erewrite bind_run_ok by (rewrite open_run, H; reflexivity). reflexivity.
Qed.

Lemma json_load_prompt_ok (p : string) (w : world) fields (w' : world) :
  json_load_prompt p w = (Ok fields, w') ->
  disk w p = Some (PromptJson fields) /\ w' = log_open p w.
Proof.
  unfold json_load_prompt, bind. rewrite open_run.
  destruct (disk w p) as [[| | |f|]|]; cbn; intros H; inversion H.
  split; reflexivity.
Qed.

Lemma json_load_prompt_log (p : string) (w : world) :
  opened (snd (json_load_prompt p w)) = opened w ++ [p] /\
  disk (snd (json_load_prompt p w)) = disk w.
Proof.
  unfold json_load_prompt, bind. rewrite open_run.
  destruct (disk w p) as [[| | |f|]|]; cbn; split; reflexivity.
Qed.

Lemma pyindex_nat {A} (l : list A) (k : nat) (a : A) :
  nth_error l k = Some a -> pyindex l (Z.of_nat k) = Ok a.
Proof.
  intros H. unfold pyindex.
  assert (k < List.length l) by (apply nth_error_Some; congruence).
  destruct (Z.ltb_spec (Z.of_nat k) 0); [lia|].
  destruct (Z.leb_spec 0 (Z.of_nat k)); [|lia].
  destruct (Z.ltb_spec (Z.of_nat k) (Z.of_nat (List.length l))); [|lia].
  cbn [andb]. rewrite Nat2Z.id, H. reflexivity.
Qed.

Lemma pyindex_ok {A} (l : list A) (i : Z) (a : A) :
  pyindex l i = Ok a ->
  (- Z.of_nat (List.length l) <= i < Z.of_nat (List.length l))%Z /\ In a l.
Proof.
  unfold pyindex.
  destruct (Z.ltb_spec i 0);
    match goal with
    | |- context [((0 <=? ?k) && (?k <? ?n))%Z] =>
        destruct (Z.leb_spec 0 k); [|discriminate];
        destruct (Z.ltb_spec k n); [|discriminate];
        cbn [andb];
        destruct (nth_error l (Z.to_nat k)) eqn:E; [|discriminate]
    end;
    intros H'; inversion H'; subst; (split; [lia | eapply nth_error_In, E]).
Qed.

Lemma pyindex_valid {A} (l : list A) (i : Z) :
  (- Z.of_nat (List.length l) <= i < Z.of_nat (List.length l))%Z ->
  exists a, pyindex l i = Ok a.
Proof.
  intros Hi. unfold pyindex.
  destruct (Z.ltb_spec i 0);
    match goal with
    | |- context [((0 <=? ?k) && (?k <? ?n))%Z] =>
        destruct (Z.leb_spec 0 k); [|lia];
        destruct (Z.ltb_spec k n); [|lia];
        cbn [andb];
        destruct (nth_error l (Z.to_nat k)) eqn:E;
        [eexists; reflexivity | apply nth_error_None in E; lia]
    end.
Qed.

Lemma pick_seed_run (seeds : list Z) (w : world) :
  seeds <> [] ->
  exists seed, In seed seeds /\ pick_seed seeds w = (Ok seed, torch_advance w).
Proof.
  intros Hne. unfold pick_seed.
  assert (Hlen : 0 < List.length seeds) by (destruct seeds; [congruence | cbn; lia]).
  erewrite bind_run_ok by (apply torch_randint_run; exact Hlen).
  set (k := 0 + torch_draws w (torch_pos w) mod (List.length seeds - 0)).
  assert (Hk : k < List.length seeds).
  { pose proof (Nat.mod_upper_bound (torch_draws w (torch_pos w))
                  (List.length seeds - 0)). unfold k. lia. }
  destruct (nth_error seeds k) as [seed|] eqn:E;
    [|apply nth_error_None in E; lia].
  exists seed. split; [eapply nth_error_In, E|].
  unfold lift_result. rewrite (pyindex_nat seeds k seed E). reflexivity.
Qed.

Lemma pick_seed_ok (seeds : list Z) (w : world) (seed : Z) (w' : world) :
  pick_seed seeds w = (Ok seed, w') -> In seed seeds /\ w' = torch_advance w.
Proof.
  unfold pick_seed. intros H.
  apply bind_ok in H. destruct H as (k & w1 & Hk & H).
  apply torch_randint_ok in Hk. destruct Hk as [_ ->].
  apply lift_result_ok in H. destruct H as [H ->].
  apply pyindex_ok in H. split; [apply H | reflexivity].
Qed.

Lemma pick_seed_frame (seeds : list Z) :
  preserves opened (pick_seed seeds) /\ preserves disk (pick_seed seeds).
Proof. unfold pick_seed. split; frame; apply torch_randint_frame. Qed.

(** ** Item access, step by step *)

Section Items.

Variable resample : nat -> pil_image -> pil_image.

Lemma EpicEditDataset_getitem_run index (s : state EpicEditDataset)
    entry im0 im1 t0 t1 w' :
  pyindex (epic_metadata (self s)) index = Ok entry ->
  disk (env s) (fst (frame_paths (epic_basedir (self s)) entry)) = Some (Jpeg im0) ->
  disk (env s) (snd (frame_paths (epic_basedir (self s)) entry)) = Some (Jpeg im1) ->
  paired_transform resample
    (epic_min_resize_res (self s)) (epic_max_resize_res (self s))
    (epic_crop_res (self s)) (epic_flip_prob (self s)) im0 im1
    (log_open (snd (frame_paths (epic_basedir (self s)) entry))
       (log_open (fst (frame_paths (epic_basedir (self s)) entry)) (env s)))
  = (Ok (t0, t1), w') ->
  EpicEditDataset_getitem resample index s
  = (Ok (training_sample t0 t1 (narration entry)), {| self := self s; env := w' |}).
Proof.
  intros Hidx H0 H1 Hpt. unfold EpicEditDataset_getitem, get_self.
  unfold bind at 1, gets at 1. cbv beta iota.
  unfold bind at 1, lift_result at 1. rewrite Hidx. cbv beta iota zeta.
  unfold frame_paths in H0, H1, Hpt. cbn [fst snd] in H0, H1, Hpt.
  erewrite bind_run_ok by (apply liftW_run, Image_open_run, H0).
  erewrite bind_run_ok
    by (apply liftW_run; cbn [env]; apply Image_open_run; exact H1).
  erewrite bind_run_ok by (apply liftW_run; cbn [env self]; exact Hpt).
  reflexivity.
Qed.

Lemma EpicEditDataset_getitem_ok index (s : state EpicEditDataset) v s' :
  EpicEditDataset_getitem resample index s = (Ok v, s') ->
  exists entry im0 im1 t0 t1,
    pyindex (epic_metadata (self s)) index = Ok entry /\
    disk (env s) (fst (frame_paths (epic_basedir (self s)) entry)) = Some (Jpeg im0) /\
    disk (env s) (snd (frame_paths (epic_basedir (self s)) entry)) = Some (Jpeg im1) /\
    paired_transform resample
      (epic_min_resize_res (self s)) (epic_max_resize_res (self s))
      (epic_crop_res (self s)) (epic_flip_prob (self s)) im0 im1
      (log_open (snd (frame_paths (epic_basedir (self s)) entry))
         (log_open (fst (frame_paths (epic_basedir (self s)) entry)) (env s)))
    = (Ok (t0, t1), env s') /\
    v = training_sample t0 t1 (narration entry).
Proof.
  unfold EpicEditDataset_getitem, get_self. intros H.
  apply bind_ok in H. destruct H as (this & s1 & Hthis & H).
  unfold gets in Hthis. inversion Hthis; subst this s1. clear Hthis.
  apply bind_ok in H. destruct H as (entry & s1 & Hidx & H).
  apply lift_result_ok in Hidx. destruct Hidx as [Hidx ->].
  cbv zeta in H.
  apply bind_ok in H. destruct H as (im0 & s1 & H0 & H).
  apply liftW_ok in H0. destruct H0 as (w1 & H0 & ->).
  apply Image_open_ok in H0. destruct H0 as [H0 ->].
  apply bind_ok in H. destruct H as (im1 & s2 & H1 & H).
  apply liftW_ok in H1. destruct H1 as (w2 & H1 & ->). cbn [env self] in H1.
  apply Image_open_ok in H1. destruct H1 as [H1 ->]. cbn [disk log_open] in H1.
  apply bind_ok in H. destruct H as ([t0 t1] & s3 & Hpt & H).
  apply liftW_ok in Hpt. destruct Hpt as (w3 & Hpt & ->). cbn [env self] in Hpt.
  inversion H; subst v s'. clear H.
  exists entry, im0, im1, t0, t1. cbn [env].
  unfold frame_paths. cbn [fst snd]. repeat split; assumption.
Qed.

Lemma EditDataset_getitem_run i (s : state EditDataset)
    name seeds seed fields prompt im0 im1 t0 t1 w' :
  pyindex (edit_seeds (self s)) i = Ok (name, seeds) ->
  pick_seed seeds (env s) = (Ok seed, torch_advance (env s)) ->
  disk (env s) (prompt_path (edit_path (self s)) name) = Some (PromptJson fields) ->
  dict_get fields "edit" = Ok prompt ->
  disk (env s) (before_path (edit_path (self s)) name seed) = Some (Jpeg im0) ->
  disk (env s) (after_path (edit_path (self s)) name seed) = Some (Jpeg im1) ->
  paired_transform resample
    (edit_min_resize_res (self s)) (edit_max_resize_res (self s))
    (edit_crop_res (self s)) (edit_flip_prob (self s)) im0 im1
    (log_open (after_path (edit_path (self s)) name seed)
       (log_open (before_path (edit_path (self s)) name seed)
          (log_open (prompt_path (edit_path (self s)) name)
             (torch_advance (env s)))))
  = (Ok (t0, t1), w') ->
  EditDataset_getitem resample i s
  = (Ok (training_sample t0 t1 prompt), {| self := self s; env := w' |}).
Proof.
  intros Hidx Hseed Hp Hedit H0 H1 Hpt. unfold EditDataset_getitem, get_self.
  unfold bind at 1, gets at 1. cbv beta iota.
  unfold bind at 1, lift_result at 1. rewrite Hidx. cbv beta iota zeta.
  unfold prompt_path, before_path, after_path in *.
  erewrite bind_run_ok by (apply liftW_run, Hseed).
  erewrite bind_run_ok
    by (apply liftW_run; cbn [env]; apply json_load_prompt_run; exact Hp).
  unfold bind at 1, lift_result at 1. rewrite Hedit. cbv beta iota.
  erewrite bind_run_ok
    by (apply liftW_run; cbn [env]; apply Image_open_run; exact H0).
  erewrite bind_run_ok
    by (apply liftW_run; cbn [env]; apply Image_open_run; exact H1).
  erewrite bind_run_ok by (apply liftW_run; cbn [env self]; exact Hpt).
  reflexivity.
Qed.

Lemma EditDataset_getitem_ok i (s : state EditDataset) v s' :
  EditDataset_getitem resample i s = (Ok v, s') ->
  exists name seeds seed fields prompt im0 im1 t0 t1,
    pyindex (edit_seeds (self s)) i = Ok (name, seeds) /\
    In seed seeds /\
    disk (env s) (prompt_path (edit_path (self s)) name) = Some (PromptJson fields) /\
    dict_get fields "edit" = Ok prompt /\
    disk (env s) (before_path (edit_path (self s)) name seed) = Some (Jpeg im0) /\
    disk (env s) (after_path (edit_path (self s)) name seed) = Some (Jpeg im1) /\
    paired_transform resample
      (edit_min_resize_res (self s)) (edit_max_resize_res (self s))
      (edit_crop_res (self s)) (edit_flip_prob (self s)) im0 im1
      (log_open (after_path (edit_path (self s)) name seed)
         (log_open (before_path (edit_path (self s)) name seed)
            (log_open (prompt_path (edit_path (self s)) name)
               (torch_advance (env s)))))
    = (Ok (t0, t1), env s') /\
    v = training_sample t0 t1 prompt.
Proof.
  unfold EditDataset_getitem, get_self. intros H.
  apply bind_ok in H. destruct H as (this & s1 & Hthis & H).
  unfold gets in Hthis. inversion Hthis; subst this s1. clear Hthis.
  apply bind_ok in H. destruct H as ([name seeds] & s1 & Hidx & H).
  apply lift_result_ok in Hidx. destruct Hidx as [Hidx ->].
  cbv zeta in H.
  apply bind_ok in H. destruct H as (seed & s1 & Hseed & H).
  apply liftW_ok in Hseed. destruct Hseed as (w1 & Hseed & ->).
  apply pick_seed_ok in Hseed. destruct Hseed as [Hin ->].
  apply bind_ok in H. destruct H as (fields & s1 & Hp & H).
  apply liftW_ok in Hp. destruct Hp as (w1 & Hp & ->). cbn [env self] in Hp.
  apply json_load_prompt_ok in Hp. destruct Hp as [Hp ->].
  apply bind_ok in H. destruct H as (prompt & s1 & Hedit & H).
  apply lift_result_ok in Hedit. destruct Hedit as [Hedit ->].
  apply bind_ok in H. destruct H as (im0 & s1 & H0 & H).
  apply liftW_ok in H0. destruct H0 as (w1 & H0 & ->). cbn [env self] in H0.
  apply Image_open_ok in H0. destruct H0 as [H0 ->].
  apply bind_ok in H. destruct H as (im1 & s2 & H1 & H).
  apply liftW_ok in H1. destruct H1 as (w2 & H1 & ->). cbn [env self] in H1.
  apply Image_open_ok in H1. destruct H1 as [H1 ->].
  apply bind_ok in H. destruct H as ([t0 t1] & s3 & Hpt & H).
  apply liftW_ok in Hpt. destruct Hpt as (w3 & Hpt & ->). cbn [env self] in Hpt.
  inversion H; subst v s'. clear H.
  exists name, seeds, seed, fields, prompt, im0, im1, t0, t1. cbn [env].
  unfold prompt_path, before_path, after_path.
  repeat split; assumption.
Qed.

End Items.

Section EvalItems.

Variable resample : nat -> pil_image -> pil_image.

Lemma EditDatasetEval_getitem_run i (s : state EditDatasetEval)
    name seeds seed fields edit input_prompt output_prompt im0 :
  pyindex (eval_seeds (self s)) i = Ok (name, seeds) ->
  pick_seed seeds (env s) = (Ok seed, torch_advance (env s)) ->
  disk (env s) (prompt_path (eval_path (self s)) name) = Some (PromptJson fields) ->
  dict_get fields "edit" = Ok edit ->
  dict_get fields "input" = Ok input_prompt ->
  dict_get fields "output" = Ok output_prompt ->
  disk (env s) (before_path (eval_path (self s)) name seed) = Some (Jpeg im0) ->
  0 < eval_res (self s) ->
  mode (resample (eval_res (self s)) im0) <> ModeL ->
  EditDatasetEval_getitem resample i s
  = (Ok (eval_sample (resized_tensor resample (eval_res (self s)) im0)
           input_prompt edit output_prompt),
     {| self := self s;
        env := torch_advance
                 (log_open (before_path (eval_path (self s)) name seed)
                    (log_open (prompt_path (eval_path (self s)) name)
                       (torch_advance (env s)))) |}).
Proof.
  intros Hidx Hseed Hp He Hi Ho H0 Hres Hmode.
  unfold EditDatasetEval_getitem, get_self.
  unfold bind at 1, gets at 1. cbv beta iota.
  unfold bind at 1, lift_result at 1. rewrite Hidx. cbv beta iota zeta.
  unfold prompt_path, before_path in *.
  erewrite bind_run_ok by (apply liftW_run, Hseed).
  erewrite bind_run_ok
    by (apply liftW_run; cbn [env]; apply json_load_prompt_run; exact Hp).
  unfold bind at 1, lift_result at 1. rewrite He. cbv beta iota.
  unfold bind at 1, lift_result at 1. rewrite Hi. cbv beta iota.
  unfold bind at 1, lift_result at 1. rewrite Ho. cbv beta iota.
  erewrite bind_run_ok
    by (apply liftW_run; cbn [env]; apply Image_open_run; exact H0).
  erewrite bind_run_ok
    by (apply liftW_run; cbn [env self]; apply torch_randint_run; lia).
  replace (eval_res (self s) + _ mod (eval_res (self s) + 1 - eval_res (self s)))
    with (eval_res (self s))
    by (replace (eval_res (self s) + 1 - eval_res (self s)) with 1 by lia;
        rewrite Nat.mod_1_r; lia).
  unfold Image_resize.
  destruct (Nat.eqb_spec (eval_res (self s)) 0) as [|_]; [lia|].
  unfold bind at 1, lift_result at 1. cbv beta iota.
  rewrite to_tensor_run by exact Hmode.
  reflexivity.
Qed.

Lemma EditDatasetEval_getitem_ok i (s : state EditDatasetEval) v s' :
  EditDatasetEval_getitem resample i s = (Ok v, s') ->
  exists name seeds seed fields edit input_prompt output_prompt im0,
    pyindex (eval_seeds (self s)) i = Ok (name, seeds) /\
    In seed seeds /\
    disk (env s) (prompt_path (eval_path (self s)) name) = Some (PromptJson fields) /\
    dict_get fields "edit" = Ok edit /\
    dict_get fields "input" = Ok input_prompt /\
    dict_get fields "output" = Ok output_prompt /\
    disk (env s) (before_path (eval_path (self s)) name seed) = Some (Jpeg im0) /\
    0 < eval_res (self s) /\
    v = eval_sample (resized_tensor resample (eval_res (self s)) im0)
          input_prompt edit output_prompt /\
    opened (env s') = opened (env s) ++
      [prompt_path (eval_path (self s)) name;
       before_path (eval_path (self s)) name seed].
Proof.
  unfold EditDatasetEval_getitem, get_self. intros H.
  apply bind_ok in H. destruct H as (this & s1 & Hthis & H).
  unfold gets in Hthis. inversion Hthis; subst this s1. clear Hthis.
  apply bind_ok in H. destruct H as ([name seeds] & s1 & Hidx & H).
  apply lift_result_ok in Hidx. destruct Hidx as [Hidx ->].
  cbv zeta in H.
  apply bind_ok in H. destruct H as (seed & s1 & Hseed & H).
  apply liftW_ok in Hseed. destruct Hseed as (w1 & Hseed & ->).
  apply pick_seed_ok in Hseed. destruct Hseed as [Hin ->].
  apply bind_ok in H. destruct H as (fields & s1 & Hp & H).
  apply liftW_ok in Hp. destruct Hp as (w1 & Hp & ->). cbn [env self] in Hp.
  apply json_load_prompt_ok in Hp. destruct Hp as [Hp ->].
  apply bind_ok in H. destruct H as (edit & s1 & He & H).
  apply lift_result_ok in He. destruct He as [He ->].
  apply bind_ok in H. destruct H as (inp & s1 & Hi & H).
  apply lift_result_ok in Hi. destruct Hi as [Hi ->].
  apply bind_ok in H. destruct H as (outp & s1 & Ho & H).
  apply lift_result_ok in Ho. destruct Ho as [Ho ->].
  apply bind_ok in H. destruct H as (im0 & s1 & H0 & H).
  apply liftW_ok in H0. destruct H0 as (w1 & H0 & ->). cbn [env self] in H0.
  apply Image_open_ok in H0. destruct H0 as [H0 ->].
  apply bind_ok in H. destruct H as (r & s1 & Hr & H).
  apply liftW_ok in Hr. destruct Hr as (w1 & Hr & ->). cbn [env self] in Hr.
  apply torch_randint_ok in Hr. destruct Hr as [Hr ->].
  assert (r = eval_res (self s)) by lia. subst r. clear Hr.
  apply bind_ok in H. destruct H as (img & s1 & Hrs & H).
  apply lift_result_ok in Hrs. destruct Hrs as [Hrs ->].
  unfold Image_resize in Hrs.
  destruct (Nat.eqb_spec (eval_res (self s)) 0) as [|Hpos]; [discriminate|].
  inversion Hrs; subst img. clear Hrs.
  apply bind_ok in H. destruct H as (t & s1 & Ht & H).
  apply lift_result_ok in Ht. destruct Ht as [Ht ->].
  apply to_tensor_ok in Ht. subst t.
  inversion H; subst v s'. clear H.
  exists name, seeds, seed, fields, edit, inp, outp, im0. cbn [env].
  unfold prompt_path, before_path, eval_sample.
  repeat split; try assumption; try lia.
  cbn [opened torch_advance log_open]. rewrite <- app_assoc. reflexivity.
Qed.

End EvalItems.

(** ** The filter of the small disk *)

Lemma nearest_ok : resample_ok nearest.
Proof.
  intros r img. split; [reflexivity|].
  unfold shape_hwc, nearest. cbn [pixels mode].
  split; [rewrite length_map, length_seq; reflexivity|].
  apply Forall_map, Forall_forall. intros y _.
  split; [rewrite length_map, length_seq; reflexivity|].
  apply Forall_map, Forall_forall. intros x _.
  unfold pixel_at. rewrite length_firstn, length_app, repeat_length. lia.
Qed.

(** ** Crop and flip are joint *)

(** C2. Whenever [EpicEditDataset.__getitem__] or [EditDataset.__getitem__]
    returns, whatever the random draws were, there is one resolution [r],
    one window offset [(top, left)] and one flip decision such that the two
    returned halves together are the before image and the after image,
    each resized to [r], cropped at that offset and flipped by that
    decision; with as many bands in both images, [c_concat] is the before
    image and [edited] the after image so transformed. *)
Theorem C2_crop_and_flip_are_joint (resample : nat -> pil_image -> pil_image) :
  (forall index (s : state EpicEditDataset) v s',
      EpicEditDataset_getitem resample index s = (Ok v, s') ->
      exists entry im0 im1 t0 t1 r top left flipped,
        pyindex (epic_metadata (self s)) index = Ok entry /\
        disk (env s) (fst (frame_paths (epic_basedir (self s)) entry))
          = Some (Jpeg im0) /\
        disk (env s) (snd (frame_paths (epic_basedir (self s)) entry))
          = Some (Jpeg im1) /\
        v = training_sample t0 t1 (narration entry) /\
        t0 ++ t1 =
          crop_flip top left (epic_crop_res (self s)) flipped
            (resized_tensor resample r im0) ++
          crop_flip top left (epic_crop_res (self s)) flipped
            (resized_tensor resample r im1) /\
        (mode (resample r im0) = mode (resample r im1) ->
         t0 = crop_flip top left (epic_crop_res (self s)) flipped
                (resized_tensor resample r im0) /\
         t1 = crop_flip top left (epic_crop_res (self s)) flipped
                (resized_tensor resample r im1))) /\
  (forall i (s : state EditDataset) v s',
      EditDataset_getitem resample i s = (Ok v, s') ->
      exists name seeds seed prompt im0 im1 t0 t1 r top left flipped,
        pyindex (edit_seeds (self s)) i = Ok (name, seeds) /\
        In seed seeds /\
        disk (env s) (before_path (edit_path (self s)) name seed)
          = Some (Jpeg im0) /\
        disk (env s) (after_path (edit_path (self s)) name seed)
          = Some (Jpeg im1) /\
        v = training_sample t0 t1 prompt /\
        t0 ++ t1 =
          crop_flip top left (edit_crop_res (self s)) flipped
            (resized_tensor resample r im0) ++
          crop_flip top left (edit_crop_res (self s)) flipped
            (resized_tensor resample r im1) /\
        (mode (resample r im0) = mode (resample r im1) ->
         t0 = crop_flip top left (edit_crop_res (self s)) flipped
                (resized_tensor resample r im0) /\
         t1 = crop_flip top left (edit_crop_res (self s)) flipped
                (resized_tensor resample r im1))).
Proof.
  split.
  - intros index s v s' H.
    apply EpicEditDataset_getitem_ok in H.
    destruct H as (entry & im0 & im1 & t0 & t1 & Hidx & H0 & H1 & Hpt & ->).
    apply paired_transform_ok in Hpt.
    destruct Hpt as (r & top & left & b & _ & _ & Hchunk).
    exists entry, im0, im1, t0, t1, r, top, left, b.
    do 4 (split; [assumption || reflexivity|]).
    split; [apply (chunk2_ok _ _ _ Hchunk)|].
    intros Hmode. rewrite chunk2_app in Hchunk.
    + inversion Hchunk. split; reflexivity.
    + rewrite !crop_flip_channels, !resized_tensor_channels, Hmode. reflexivity.
    + rewrite crop_flip_channels, resized_tensor_channels. apply bands_pos.
  - intros i s v s' H.
    apply EditDataset_getitem_ok in H.
    destruct H as (name & seeds & seed & fields & prompt & im0 & im1 & t0 & t1
                   & Hidx & Hin & Hp & He & H0 & H1 & Hpt & ->).
    apply paired_transform_ok in Hpt.
    destruct Hpt as (r & top & left & b & _ & _ & Hchunk).
    exists name, seeds, seed, prompt, im0, im1, t0, t1, r, top, left, b.
    do 5 (split; [assumption || reflexivity|]).
    split; [apply (chunk2_ok _ _ _ Hchunk)|].
    intros Hmode. rewrite chunk2_app in Hchunk.
    + inversion Hchunk. split; reflexivity.
    + rewrite !crop_flip_channels, !resized_tensor_channels, Hmode. reflexivity.
    + rewrite crop_flip_channels, resized_tensor_channels. apply bands_pos.
Qed.

(** [run_ok c E]: evaluate the closed computation [c] and record what it
    returns as the equation [E]. *)
Ltac run_ok c E :=
  let x := eval vm_compute in c in
  lazymatch x with
  | (Ok ?v, ?s') => assert (E : c = (Ok v, s')) by (vm_compute; reflexivity)
  end.

(** C2 on the small disk: sample [s0] with crop size 1 out of 2 by 2 and
    flip probability 1. *)
Lemma C2_witness_small_disk :
  exists prompt t0 t1 r top left flipped,
    fst (EditDataset_getitem nearest 0 (example_state example_edit 1))
      = Ok (training_sample t0 t1 prompt) /\
    t0 = crop_flip top left 1 flipped (resized_tensor nearest r before_img) /\
    t1 = crop_flip top left 1 flipped (resized_tensor nearest r after_img).
Proof.
  run_ok (EditDataset_getitem nearest 0 (example_state example_edit 1)) E.
  destruct (C2_crop_and_flip_are_joint nearest) as [_ H].
  destruct (H _ _ _ _ E)
    as (name & seeds & seed & prompt & im0 & im1 & t0 & t1 & r & top & left
        & flipped & Hidx & Hin & H0 & H1 & Hv & _ & Hmode).
  vm_compute in Hidx. inversion Hidx; subst name seeds. clear Hidx.
  destruct Hin as [<-|[]].
  vm_compute in H0. inversion H0; subst im0. clear H0.
  vm_compute in H1. inversion H1; subst im1. clear H1.
  destruct (Hmode eq_refl) as [Ht0 Ht1].
  exists prompt, t0, t1, r, top, left, flipped.
  rewrite E. cbn [fst]. rewrite Hv.
  split; [reflexivity|]. split; assumption.
Defined.

(** ** Normalisation *)

Lemma chunk_halves_all (P : f32 -> Prop) (t0 t1 x y : tensor) :
  t0 ++ t1 = x ++ y -> tensor_all P x -> tensor_all P y ->
  tensor_all P t0 /\ tensor_all P t1.
Proof.
  unfold tensor_all. intros E Hx Hy. apply Forall_app. rewrite E.
  apply Forall_app. split; assumption.
Qed.

Lemma paired_transform_all (resample : nat -> pil_image -> pil_image)
    mi ma cr fl im0 im1 w t0 t1 w' :
  paired_transform resample mi ma cr fl im0 im1 w = (Ok (t0, t1), w') ->
  tensor_all in_unit_range t0 /\ tensor_all in_unit_range t1.
Proof.
  intros H. apply paired_transform_ok in H.
  destruct H as (r & top & left & b & _ & _ & Hchunk).
  apply chunk2_ok in Hchunk. destruct Hchunk as [E _].
  eapply chunk_halves_all; [exact E | |];
    apply crop_flip_all, resized_tensor_all.
Qed.

(** The array that [rearrange] transposes holds, at every place, the
    normalised value of the byte at that place. *)
Lemma to_tensor_at (img : pil_image) (t : tensor) (y x c : nat) (v : byte) :
  to_tensor img = Ok t -> c < bands (mode img) ->
  image_at img y x c = Some v ->
  tensor_at t c y x = Some (normalize_pixel v).
Proof.
  intros Ht Hc Hv.
  assert (E : t = rearrange_hwc_chw (bands (mode img)) (normalize_hwc (pixels img)))
    by (unfold to_tensor in Ht; destruct (mode img); inversion Ht; reflexivity).
  subst t. unfold image_at in Hv. unfold tensor_at, rearrange_hwc_chw, normalize_hwc.
  rewrite nth_error_map, nth_error_seq.
  destruct (Nat.ltb_spec c (bands (mode img))) as [_|]; [|lia].
  cbn [option_map Nat.add]. rewrite !nth_error_map.
  destruct (nth_error (pixels img) y) as [row|]; [|discriminate].
  cbn [option_map]. rewrite !nth_error_map.
  destruct (nth_error row x) as [p|]; [|discriminate].
  cbn [option_map]. apply f_equal.
  apply nth_error_nth. rewrite nth_error_map, Hv. reflexivity.
Qed.

Lemma rearrange_all_shape (P : f32 -> Prop) (c : nat) (a : list (list (list f32))) :
  Forall (Forall (fun p => List.length p = c /\ Forall P p)) a ->
  tensor_all P (rearrange_hwc_chw c a).
Proof.
  intros Ha. unfold tensor_all, rearrange_hwc_chw.
  apply Forall_map, Forall_forall. intros k Hk. apply in_seq in Hk.
  apply Forall_map. eapply Forall_impl; [|exact Ha]. intros row Hrow.
  apply Forall_map. eapply Forall_impl; [|exact Hrow]. intros p [Hlen Hp].
  rewrite Forall_forall in Hp. apply Hp, nth_In. unfold f32 in *. lia.
Qed.

Lemma resized_tensor_from (resample : nat -> pil_image -> pil_image) r img :
  resample_ok resample ->
  tensor_all (normalised_from [resample r img]) (resized_tensor resample r img).
Proof.
  intros Hok. destruct (Hok r img) as [Hmode [_ Hshape]].
  unfold resized_tensor. rewrite Hmode.
  apply rearrange_all_shape. unfold normalize_hwc.
  apply Forall_map. rewrite Forall_forall in Hshape |- *.
  intros row Hrow. destruct (Hshape row Hrow) as [_ Hpx].
  apply Forall_map. rewrite Forall_forall in Hpx |- *.
  intros p Hp. split; [rewrite length_map; apply Hpx, Hp|].
  apply Forall_map, Forall_forall. intros v Hv.
  exists (resample r img), v. split; [left; reflexivity|].
  split; [|reflexivity].
  unfold pixel_values. apply in_concat. exists p. split; [|exact Hv].
  apply in_concat. exists row. split; assumption.
Qed.

Lemma normalised_from_weaken (imgs imgs' : list pil_image) (t : tensor) :
  (forall img, In img imgs -> In img imgs') ->
  tensor_all (normalised_from imgs) t -> tensor_all (normalised_from imgs') t.
Proof.
  intros Hsub. unfold tensor_all.
  intros H. eapply Forall_impl; [|exact H]. intros plane Hp.
  eapply Forall_impl; [|exact Hp]. intros line Hl.
  eapply Forall_impl; [|exact Hl]. intros e (img & v & Hin & Hv & ->).
  exists img, v. split; [apply Hsub, Hin | split; [exact Hv | reflexivity]].
Qed.

Lemma paired_transform_from (resample : nat -> pil_image -> pil_image)
    mi ma cr fl im0 im1 w t0 t1 w' :
  resample_ok resample ->
  paired_transform resample mi ma cr fl im0 im1 w = (Ok (t0, t1), w') ->
  exists r,
    mi <= r <= ma /\
    tensor_all (normalised_from [resample r im0; resample r im1]) t0 /\
    tensor_all (normalised_from [resample r im0; resample r im1]) t1.
Proof.
  intros Hok H. apply paired_transform_ok in H.
  destruct H as (r & top & left & b & Hr & _ & Hchunk).
  apply chunk2_ok in Hchunk. destruct Hchunk as [E _].
  exists r. split; [exact Hr|].
  eapply chunk_halves_all; [exact E | |]; apply crop_flip_all.
  - apply (normalised_from_weaken [resample r im0]);
      [intros img [<-|[]]; left; reflexivity | apply resized_tensor_from, Hok].
  - apply (normalised_from_weaken [resample r im1]);
      [intros img [<-|[]]; right; left; reflexivity | apply resized_tensor_from, Hok].
Qed.

(** C3. A pixel value [v] of the decoded image becomes the binary32
    number [2 * v / 255 - 1], which lies in [-1, 1] and is within [2^-24]
    of the exact quotient. The tensor made of an image holds at
    [[c][y][x]] this number for the byte at [[y][x][c]] of the image. Every
    element of every tensor that [__getitem__] of the three classes
    returns is this number for a pixel value of one of the images of the
    sample, as resized, and every such element lies in [-1, 1]. *)
Theorem C3_tensors_normalised_to_unit_range
    (resample : nat -> pil_image -> pil_image) :
  (forall v : byte,
      in_unit_range (normalize_pixel v) /\
      (Qabs (f32_to_Q (normalize_pixel v)
             - (2 * inject_Z (Z.of_N (Byte.to_N v)) / 255 - 1))
       <= Qmake 1 (2 ^ 24))%Q) /\
  (forall (img : pil_image) (t : tensor) (y x c : nat) (v : byte),
      to_tensor img = Ok t -> c < bands (mode img) ->
      image_at img y x c = Some v ->
      tensor_at t c y x = Some (normalize_pixel v)) /\
  (resample_ok resample ->
   (forall index (s : state EpicEditDataset) v s',
       EpicEditDataset_getitem resample index s = (Ok v, s') ->
       exists entry im0 im1 r,
         pyindex (epic_metadata (self s)) index = Ok entry /\
         disk (env s) (fst (frame_paths (epic_basedir (self s)) entry))
           = Some (Jpeg im0) /\
         disk (env s) (snd (frame_paths (epic_basedir (self s)) entry))
           = Some (Jpeg im1) /\
         epic_min_resize_res (self s) <= r <= epic_max_resize_res (self s) /\
         Forall (tensor_all (normalised_from [resample r im0; resample r im1]))
                (tensors_of v)) /\
   (forall i (s : state EditDataset) v s',
       EditDataset_getitem resample i s = (Ok v, s') ->
       exists name seeds seed im0 im1 r,
         pyindex (edit_seeds (self s)) i = Ok (name, seeds) /\
         In seed seeds /\
         disk (env s) (before_path (edit_path (self s)) name seed)
           = Some (Jpeg im0) /\
         disk (env s) (after_path (edit_path (self s)) name seed)
           = Some (Jpeg im1) /\
         edit_min_resize_res (self s) <= r <= edit_max_resize_res (self s) /\
         Forall (tensor_all (normalised_from [resample r im0; resample r im1]))
                (tensors_of v)) /\
   (forall i (s : state EditDatasetEval) v s',
       EditDatasetEval_getitem resample i s = (Ok v, s') ->
       exists name seeds seed im0,
         pyindex (eval_seeds (self s)) i = Ok (name, seeds) /\
         In seed seeds /\
         disk (env s) (before_path (eval_path (self s)) name seed)
           = Some (Jpeg im0) /\
         Forall (tensor_all
                   (normalised_from [resample (eval_res (self s)) im0]))
                (tensors_of v))) /\
  (forall index (s : state EpicEditDataset) v s',
      EpicEditDataset_getitem resample index s = (Ok v, s') ->
      Forall (tensor_all in_unit_range) (tensors_of v)) /\
  (forall i (s : state EditDataset) v s',
      EditDataset_getitem resample i s = (Ok v, s') ->
      Forall (tensor_all in_unit_range) (tensors_of v)) /\
  (forall i (s : state EditDatasetEval) v s',
      EditDatasetEval_getitem resample i s = (Ok v, s') ->
      Forall (tensor_all in_unit_range) (tensors_of v)).
Proof.
  split; [exact normalize_pixel_range|].
  split; [intros img t y x c v; apply to_tensor_at|].
  split; [intros Hok; split; [|split] | split; [|split]].
  - intros index s v s' H. apply EpicEditDataset_getitem_ok in H.
    destruct H as (entry & im0 & im1 & t0 & t1 & Hidx & H0 & H1 & Hpt & ->).
    destruct (paired_transform_from resample _ _ _ _ _ _ _ _ _ _ Hok Hpt)
      as (r & Hr & A0 & A1).
    exists entry, im0, im1, r. do 4 (split; [assumption|]).
    cbn. repeat constructor; assumption.
  - intros i s v s' H. apply EditDataset_getitem_ok in H.
    destruct H as (name & seeds & seed & fields & prompt & im0 & im1 & t0 & t1
                   & Hidx & Hin & _ & _ & H0 & H1 & Hpt & ->).
    destruct (paired_transform_from resample _ _ _ _ _ _ _ _ _ _ Hok Hpt)
      as (r & Hr & A0 & A1).
    exists name, seeds, seed, im0, im1, r. do 5 (split; [assumption|]).
    cbn. repeat constructor; assumption.
  - intros i s v s' H. apply EditDatasetEval_getitem_ok in H.
    destruct H as (name & seeds & seed & fields & e & ip & op & im0
                   & Hidx & Hin & _ & _ & _ & _ & H0 & _ & -> & _).
    exists name, seeds, seed, im0. do 3 (split; [assumption|]).
    cbn. repeat constructor. apply resized_tensor_from, Hok.
  - intros index s v s' H. apply EpicEditDataset_getitem_ok in H.
    destruct H as (entry & im0 & im1 & t0 & t1 & _ & _ & _ & Hpt & ->).
    apply paired_transform_all in Hpt. destruct Hpt as [A0 A1].
    cbn. repeat constructor; assumption.
  - intros i s v s' H. apply EditDataset_getitem_ok in H.
    destruct H as (name & seeds & seed & fields & prompt & im0 & im1 & t0 & t1
                   & _ & _ & _ & _ & _ & _ & Hpt & ->).
    apply paired_transform_all in Hpt. destruct Hpt as [A0 A1].
    cbn. repeat constructor; assumption.
  - intros i s v s' H. apply EditDatasetEval_getitem_ok in H.
    destruct H as (name & seeds & seed & fields & e & ip & op & im0
                   & _ & _ & _ & _ & _ & _ & _ & _ & -> & _).
    cbn. repeat constructor. apply resized_tensor_all.
Qed.

(** C3 on the small disk: the two tensors that sample [s0] returns. *)
Lemma C3_witness_small_disk :
  exists v,
    fst (EditDataset_getitem nearest 0 (example_state example_edit 1)) = Ok v /\
    Forall (tensor_all
              (normalised_from [nearest 2 before_img; nearest 2 after_img]))
           (tensors_of v) /\
    Forall (tensor_all in_unit_range) (tensors_of v).
Proof.
  run_ok (EditDataset_getitem nearest 0 (example_state example_edit 1)) E.
  eexists. split; [rewrite E; reflexivity|].
  destruct (C3_tensors_normalised_to_unit_range nearest)
    as (_ & _ & Hlink & _ & Hrange & _).
  split; [|exact (Hrange _ _ _ _ E)].
  destruct (Hlink nearest_ok) as (_ & H & _).
  destruct (H _ _ _ _ E)
    as (name & seeds & seed & im0 & im1 & r & Hidx & Hin & H0 & H1 & Hr & Hall).
  vm_compute in Hidx. inversion Hidx; subst name seeds. clear Hidx.
  destruct Hin as [<-|[]].
  vm_compute in H0. inversion H0; subst im0. clear H0.
  vm_compute in H1. inversion H1; subst im1. clear H1.
  cbn [self example_state example_edit edit_min_resize_res edit_max_resize_res]
    in Hr.
  assert (r = 2) by lia. subst r. exact Hall.
Defined.

(** ** What item access returns *)

Section Returns.

Variable resample : nat -> pil_image -> pil_image.
Hypothesis resample_good : resample_ok resample.

(** The paired transform on two images of one colour mode: it returns,
    and each half is one image. *)
Lemma paired_transform_pair mi ma cr fl im0 im1 w :
  0 < mi -> mi <= ma -> cr <= mi ->
  mode im0 = mode im1 -> mode im0 <> ModeL ->
  exists r top left flipped w',
    mi <= r <= ma /\
    paired_transform resample mi ma cr fl im0 im1 w
    = (Ok (crop_flip top left cr flipped (resized_tensor resample r im0),
           crop_flip top left cr flipped (resized_tensor resample r im1)), w').
Proof.
  intros Hmi Hma Hcr Hmode Hcol.
  destruct (paired_transform_runs resample resample_good mi ma cr fl im0 im1 w)
    as (t0 & t1 & w' & Hrun); try assumption; [congruence|].
  destruct (paired_transform_halves resample mi ma cr fl im0 im1 w t0 t1 w')
    as (r & top & left & b & Hr & _ & -> & ->); [|exact Hrun|].
  - intros r. destruct (resample_good r im0) as [-> _].
    destruct (resample_good r im1) as [-> _]. exact Hmode.
  - exists r, top, left, b, w'. split; [exact Hr | exact Hrun].
Qed.

End Returns.

(** C8, the claim as stated fails. Sample [s0] of this disk pairs an RGB
    image before the edit with a CMYK image after it. With the sizes all
    equal and no flip the call returns, but [chunk(2)] cuts the seven
    channels after the fourth: [c_concat] holds the before image and the
    first band of the after image, and [edited] holds the three other
    bands, so that neither key holds an image of the pair. *)
Lemma C8_counterexample_mixed_modes :
  exists t0 t1 s',
    EditDataset_getitem nearest 0 {| self := plain_edit; env := mixed_modes_world |}
    = (Ok (training_sample t0 t1 "make it a cat"), s') /\
    t0 = resized_tensor nearest 2 before_img
         ++ firstn 1 (resized_tensor nearest 2 cmyk_img) /\
    t1 = skipn 1 (resized_tensor nearest 2 cmyk_img) /\
    channels t0 = 4 /\ channels t1 = 3 /\
    t0 <> resized_tensor nearest 2 before_img /\
    t1 <> resized_tensor nearest 2 cmyk_img.
Proof.
  eexists _, _, _.
  split; [vm_compute; reflexivity|].
  split; [vm_compute; reflexivity|].
  split; [vm_compute; reflexivity|].
  split; [reflexivity|]. split; [reflexivity|].
  split; intros H; apply (f_equal (@List.length _)) in H; vm_compute in H;
    discriminate H.
Qed.

(** C8, as amended. On a valid index, with sizes that fit
    ([0 < min_resize_res <= max_resize_res], [crop_res <= min_resize_res])
    and the two images on the disk in one colour mode,
    [EpicEditDataset.__getitem__] and [EditDataset.__getitem__] return a
    dictionary whose key [edited] holds the after image and whose key
    [edit] holds a dictionary with the before image under [c_concat] and
    the instruction (the narration, or the entry [edit] of [prompt.json])
    under [c_crossattn]; both images are resized to one resolution,
    normalised, and cropped and flipped together. *)
Theorem C8_training_sample_layout (resample : nat -> pil_image -> pil_image) :
  resample_ok resample ->
  (forall index (s : state EpicEditDataset) entry im0 im1,
      pyindex (epic_metadata (self s)) index = Ok entry ->
      disk (env s) (fst (frame_paths (epic_basedir (self s)) entry))
        = Some (Jpeg im0) ->
      disk (env s) (snd (frame_paths (epic_basedir (self s)) entry))
        = Some (Jpeg im1) ->
      mode im0 = mode im1 -> mode im0 <> ModeL ->
      0 < epic_min_resize_res (self s) ->
      epic_min_resize_res (self s) <= epic_max_resize_res (self s) ->
      epic_crop_res (self s) <= epic_min_resize_res (self s) ->
      exists r top left flipped s',
        EpicEditDataset_getitem resample index s =
        (Ok (VDict
               [("edited",
                 VTensor (crop_flip top left (epic_crop_res (self s)) flipped
                            (resized_tensor resample r im1)));
                ("edit",
                 VDict
                   [("c_concat",
                     VTensor (crop_flip top left (epic_crop_res (self s)) flipped
                                (resized_tensor resample r im0)));
                    ("c_crossattn", VStr (narration entry))])]%string), s')) /\
  (forall i (s : state EditDataset) name seeds fields prompt,
      pyindex (edit_seeds (self s)) i = Ok (name, seeds) ->
      seeds <> [] ->
      disk (env s) (prompt_path (edit_path (self s)) name)
        = Some (PromptJson fields) ->
      dict_get fields "edit" = Ok prompt ->
      (forall seed, In seed seeds ->
         exists im0 im1,
           disk (env s) (before_path (edit_path (self s)) name seed)
             = Some (Jpeg im0) /\
           disk (env s) (after_path (edit_path (self s)) name seed)
             = Some (Jpeg im1) /\
           mode im0 = mode im1 /\ mode im0 <> ModeL) ->
      0 < edit_min_resize_res (self s) ->
      edit_min_resize_res (self s) <= edit_max_resize_res (self s) ->
      edit_crop_res (self s) <= edit_min_resize_res (self s) ->
      exists seed im0 im1 r top left flipped s',
        In seed seeds /\
        disk (env s) (before_path (edit_path (self s)) name seed)
          = Some (Jpeg im0) /\
        disk (env s) (after_path (edit_path (self s)) name seed)
          = Some (Jpeg im1) /\
        EditDataset_getitem resample i s =
        (Ok (VDict
               [("edited",
                 VTensor (crop_flip top left (edit_crop_res (self s)) flipped
                            (resized_tensor resample r im1)));
                ("edit",
                 VDict
                   [("c_concat",
                     VTensor (crop_flip top left (edit_crop_res (self s)) flipped
                                (resized_tensor resample r im0)));
                    ("c_crossattn", VStr prompt)])]%string), s')).
Proof.
  intros Hok. split.
  - intros index s entry im0 im1 Hidx H0 H1 Hmode Hcol Hmi Hma Hcr.
    destruct (paired_transform_pair resample Hok _ _ _
                (epic_flip_prob (self s)) im0 im1
                (log_open (snd (frame_paths (epic_basedir (self s)) entry))
                   (log_open (fst (frame_paths (epic_basedir (self s)) entry))
                      (env s)))
                Hmi Hma Hcr Hmode Hcol)
      as (r & top & left & b & w' & _ & Hrun).
    exists r, top, left, b, {| self := self s; env := w' |}.
    exact (EpicEditDataset_getitem_run resample index s entry im0 im1 _ _ w'
             Hidx H0 H1 Hrun).
  - intros i s name seeds fields prompt Hidx Hne Hp He Hfiles Hmi Hma Hcr.
    destruct (pick_seed_run seeds (env s) Hne) as (seed & Hin & Hseed).
    destruct (Hfiles seed Hin) as (im0 & im1 & H0 & H1 & Hmode & Hcol).
    destruct (paired_transform_pair resample Hok _ _ _
                (edit_flip_prob (self s)) im0 im1
                (log_open (after_path (edit_path (self s)) name seed)
                   (log_open (before_path (edit_path (self s)) name seed)
                      (log_open (prompt_path (edit_path (self s)) name)
                         (torch_advance (env s)))))
                Hmi Hma Hcr Hmode Hcol)
      as (r & top & left & b & w' & _ & Hrun).
    exists seed, im0, im1, r, top, left, b, {| self := self s; env := w' |}.
    split; [exact Hin|]. split; [exact H0|]. split; [exact H1|].
    exact (EditDataset_getitem_run resample i s name seeds seed fields prompt
             im0 im1 _ _ w' Hidx Hseed Hp He H0 H1 Hrun).
Qed.

(** C8 on the small disk: the first action of the annotation table. *)
Lemma C8_witness_small_disk :
  exists r top left flipped s',
    EpicEditDataset_getitem nearest 0 (example_state example_epic 0) =
    (Ok (VDict
           [("edited",
             VTensor (crop_flip top left 1 flipped (resized_tensor nearest r after_img)));
            ("edit",
             VDict
               [("c_concat",
                 VTensor (crop_flip top left 1 flipped
                            (resized_tensor nearest r before_img)));
                ("c_crossattn", VStr "open door")])]%string), s').
Proof.
  destruct (C8_training_sample_layout nearest nearest_ok) as [H _].
  refine (H 0%Z (example_state example_epic 0)
            {| part := "P01"; clip := "P01_01"; start := 8; stop := 202;
               narration := "open door" |}
            before_img after_img _ _ _ _ _ _ _ _).
  - vm_compute; reflexivity.
  - vm_compute; reflexivity.
  - vm_compute; reflexivity.
  - reflexivity.
  - discriminate.
  - cbn; lia.
  - cbn; lia.
  - cbn; lia.
Defined.

(** ** Errors *)

(** C4, the claim as stated fails. On the small disk, where every file
    that is referenced exists, a construction raises [AssertionError] with
    the proportions (0.5, 0.5, 0.5) and with the split [dev], and
    [OverflowError] with the proportions (1e308, -1e308, 1.0), which pass
    the assertion on the sum; an item access raises [IndexError] at index 4
    of a manifest of four, [RuntimeError] on a sample whose seed list is
    empty and when [min_resize_res] is above [max_resize_res],
    [ValueError] with a crop size of 3 on images resized to 2 by 2 and
    with a resolution of 0, an error of einops on a grey image, and
    [KeyError] on a prompt file without the key [input]. *)
Lemma C4_counterexample_other_errors :
  (fst (EditDataset_init "data" "train" (decimal 1 2, decimal 1 2, decimal 1 2)
          2 2 2 0%Q (example_world 0)) = Raise AssertionError /\
   fst (EditDataset_init "data" "dev" (decimal 1 2, decimal 1 4, decimal 1 4)
          2 2 2 0%Q (example_world 0)) = Raise AssertionError /\
   sums_to_one (f64_of_Z (10 ^ 308), f64_of_Z (- 10 ^ 308), f64_of_Z 1) = true /\
   fst (EditDataset_init "data" "train"
          (f64_of_Z (10 ^ 308), f64_of_Z (- 10 ^ 308), f64_of_Z 1)
          2 2 2 0%Q (example_world 0)) = Raise OverflowError) /\
  fst (EditDataset_getitem nearest 4 (example_state example_edit 0))
    = Raise IndexError /\
  fst (EditDataset_getitem nearest 0
         (example_state
            {| edit_path := "data"; edit_min_resize_res := 2;
               edit_max_resize_res := 2; edit_crop_res := 2;
               edit_flip_prob := 0; edit_seeds := [("s0"%string, [])] |} 0))
    = Raise RuntimeError /\
  fst (EditDataset_getitem nearest 0
         (example_state
            {| edit_path := "data"; edit_min_resize_res := 3;
               edit_max_resize_res := 2; edit_crop_res := 2;
               edit_flip_prob := 0; edit_seeds := example_seeds |} 0))
    = Raise RuntimeError /\
  fst (EditDataset_getitem nearest 0
         (example_state
            {| edit_path := "data"; edit_min_resize_res := 2;
               edit_max_resize_res := 2; edit_crop_res := 3;
               edit_flip_prob := 0; edit_seeds := example_seeds |} 0))
    = Raise ValueError /\
  fst (EditDataset_getitem nearest 0
         (example_state
            {| edit_path := "data"; edit_min_resize_res := 0;
               edit_max_resize_res := 0; edit_crop_res := 0;
               edit_flip_prob := 0; edit_seeds := example_seeds |} 0))
    = Raise ValueError /\
  fst (EditDataset_getitem nearest 1 (example_state example_edit 0))
    = Raise EinopsError /\
  fst (EditDatasetEval_getitem nearest 0
         {| self := example_eval; env := partial_prompt_world |})
    = Raise (KeyError "input").
Proof.
  split; [repeat split; vm_compute; reflexivity|].
  repeat split; vm_compute; reflexivity.
Qed.

Section NoError.

Variable resample : nat -> pil_image -> pil_image.
Hypothesis resample_good : resample_ok resample.

Lemma EpicEditDataset_getitem_succeeds index (s : state EpicEditDataset)
    entry im0 im1 :
  pyindex (epic_metadata (self s)) index = Ok entry ->
  disk (env s) (fst (frame_paths (epic_basedir (self s)) entry)) = Some (Jpeg im0) ->
  disk (env s) (snd (frame_paths (epic_basedir (self s)) entry)) = Some (Jpeg im1) ->
  mode im0 <> ModeL -> mode im1 <> ModeL ->
  0 < epic_min_resize_res (self s) ->
  epic_min_resize_res (self s) <= epic_max_resize_res (self s) ->
  epic_crop_res (self s) <= epic_min_resize_res (self s) ->
  is_ok (fst (EpicEditDataset_getitem resample index s)) = true.
Proof.
  intros Hidx H0 H1 Hc0 Hc1 Hmi Hma Hcr.
  destruct (paired_transform_runs resample resample_good _ _ _
              (epic_flip_prob (self s)) im0 im1
              (log_open (snd (frame_paths (epic_basedir (self s)) entry))
                 (log_open (fst (frame_paths (epic_basedir (self s)) entry))
                    (env s)))
              Hmi Hma Hcr Hc0 Hc1)
    as (t0 & t1 & w' & Hrun).
  rewrite (EpicEditDataset_getitem_run resample index s entry im0 im1 t0 t1 w'
             Hidx H0 H1 Hrun).
  reflexivity.
Qed.

Lemma EditDataset_getitem_succeeds i (s : state EditDataset)
    name seeds fields prompt :
  pyindex (edit_seeds (self s)) i = Ok (name, seeds) ->
  seeds <> [] ->
  disk (env s) (prompt_path (edit_path (self s)) name) = Some (PromptJson fields) ->
  dict_get fields "edit" = Ok prompt ->
  (forall seed, In seed seeds ->
     exists im0 im1,
       disk (env s) (before_path (edit_path (self s)) name seed) = Some (Jpeg im0) /\
       disk (env s) (after_path (edit_path (self s)) name seed) = Some (Jpeg im1) /\
       mode im0 <> ModeL /\ mode im1 <> ModeL) ->
  0 < edit_min_resize_res (self s) ->
  edit_min_resize_res (self s) <= edit_max_resize_res (self s) ->
  edit_crop_res (self s) <= edit_min_resize_res (self s) ->
  is_ok (fst (EditDataset_getitem resample i s)) = true.
Proof.
  intros Hidx Hne Hp He Hfiles Hmi Hma Hcr.
  destruct (pick_seed_run seeds (env s) Hne) as (seed & Hin & Hseed).
  destruct (Hfiles seed Hin) as (im0 & im1 & H0 & H1 & Hc0 & Hc1).
  destruct (paired_transform_runs resample resample_good _ _ _
              (edit_flip_prob (self s)) im0 im1
              (log_open (after_path (edit_path (self s)) name seed)
                 (log_open (before_path (edit_path (self s)) name seed)
                    (log_open (prompt_path (edit_path (self s)) name)
                       (torch_advance (env s)))))
              Hmi Hma Hcr Hc0 Hc1)
    as (t0 & t1 & w' & Hrun).
  rewrite (EditDataset_getitem_run resample i s name seeds seed fields prompt
             im0 im1 t0 t1 w' Hidx Hseed Hp He H0 H1 Hrun).
  reflexivity.
Qed.

Lemma EditDatasetEval_getitem_succeeds i (s : state EditDatasetEval)
    name seeds fields edit input_prompt output_prompt :
  pyindex (eval_seeds (self s)) i = Ok (name, seeds) ->
  seeds <> [] ->
  disk (env s) (prompt_path (eval_path (self s)) name) = Some (PromptJson fields) ->
  dict_get fields "edit" = Ok edit ->
  dict_get fields "input" = Ok input_prompt ->
  dict_get fields "output" = Ok output_prompt ->
  (forall seed, In seed seeds ->
     exists im0,
       disk (env s) (before_path (eval_path (self s)) name seed) = Some (Jpeg im0) /\
       mode im0 <> ModeL) ->
  0 < eval_res (self s) ->
  exists seed im0,
    In seed seeds /\
    disk (env s) (before_path (eval_path (self s)) name seed) = Some (Jpeg im0) /\
    EditDatasetEval_getitem resample i s
    = (Ok (eval_sample (resized_tensor resample (eval_res (self s)) im0)
             input_prompt edit output_prompt),
       {| self := self s;
          env := torch_advance
                   (log_open (before_path (eval_path (self s)) name seed)
                      (log_open (prompt_path (eval_path (self s)) name)
                         (torch_advance (env s)))) |}).
Proof.
  intros Hidx Hne Hp He Hi Ho Hfiles Hres.
  destruct (pick_seed_run seeds (env s) Hne) as (seed & Hin & Hseed).
  destruct (Hfiles seed Hin) as (im0 & H0 & Hc0).
  exists seed, im0. split; [exact Hin|]. split; [exact H0|].
  apply (EditDatasetEval_getitem_run resample i s name seeds seed fields);
    try assumption.
  destruct (resample_good (eval_res (self s)) im0) as [-> _]. exact Hc0.
Qed.

End NoError.

(** C4, as amended. A construction raises nothing when [split] is one of
    train, val and test, the proportions are not negative and pass the
    assertion on their sum, and the manifest files exist and parse (a list
    has fewer than [2 ^ 63] entries, as every Python list). An item access
    raises nothing when the index is valid, the seed list of the sample is
    not empty, the sizes fit ([0 < min_resize_res <= max_resize_res],
    [crop_res <= min_resize_res], [0 < res]) and the files of the sample
    exist and decode: colour images, and a prompt file with the keys that
    are read. *)
Theorem C4_no_error_on_well_formed_input
    (resample : nat -> pil_image -> pil_image) :
  resample_ok resample ->
  (forall path split s0 s1 s2 mi ma cr fl res w,
      valid_split split = true ->
      is_f64 s0 -> is_f64 s1 -> is_f64 s2 ->
      f64_nonneg s0 -> f64_nonneg s1 -> f64_nonneg s2 ->
      sums_to_one (s0, s1, s2) = true ->
      ((exists entries,
           disk w (Path path "seeds.json") = Some (SeedsJson entries) /\
           (Z.of_nat (List.length entries) < 2 ^ 63)%Z) ->
       is_ok (fst (EditDataset_init path split (s0, s1, s2) mi ma cr fl w)) = true /\
       is_ok (fst (EditDatasetEval_init path split (s0, s1, s2) res w)) = true) /\
      ((exists info rows,
           disk w (Path path "info.json") = Some info /\ is_json info = true /\
           disk w (os_path_join path ["EPIC100_annotations.csv"%string])
             = Some (AnnotationsCsv rows) /\
           (Z.of_nat (List.length rows) < 2 ^ 63)%Z) ->
       is_ok (fst (EpicEditDataset_init path split (s0, s1, s2) mi ma cr fl w))
       = true)) /\
  (forall index (s : state EpicEditDataset) entry im0 im1,
      pyindex (epic_metadata (self s)) index = Ok entry ->
      disk (env s) (fst (frame_paths (epic_basedir (self s)) entry))
        = Some (Jpeg im0) ->
      disk (env s) (snd (frame_paths (epic_basedir (self s)) entry))
        = Some (Jpeg im1) ->
      mode im0 <> ModeL -> mode im1 <> ModeL ->
      0 < epic_min_resize_res (self s) ->
      epic_min_resize_res (self s) <= epic_max_resize_res (self s) ->
      epic_crop_res (self s) <= epic_min_resize_res (self s) ->
      is_ok (fst (EpicEditDataset_getitem resample index s)) = true) /\
  (forall i (s : state EditDataset) name seeds fields prompt,
      pyindex (edit_seeds (self s)) i = Ok (name, seeds) ->
      seeds <> [] ->
      disk (env s) (prompt_path (edit_path (self s)) name)
        = Some (PromptJson fields) ->
      dict_get fields "edit" = Ok prompt ->
      (forall seed, In seed seeds ->
         exists im0 im1,
           disk (env s) (before_path (edit_path (self s)) name seed)
             = Some (Jpeg im0) /\
           disk (env s) (after_path (edit_path (self s)) name seed)
             = Some (Jpeg im1) /\
           mode im0 <> ModeL /\ mode im1 <> ModeL) ->
      0 < edit_min_resize_res (self s) ->
      edit_min_resize_res (self s) <= edit_max_resize_res (self s) ->
      edit_crop_res (self s) <= edit_min_resize_res (self s) ->
      is_ok (fst (EditDataset_getitem resample i s)) = true) /\
  (forall i (s : state EditDatasetEval) name seeds fields
          edit input_prompt output_prompt,
      pyindex (eval_seeds (self s)) i = Ok (name, seeds) ->
      seeds <> [] ->
      disk (env s) (prompt_path (eval_path (self s)) name)
        = Some (PromptJson fields) ->
      dict_get fields "edit" = Ok edit ->
      dict_get fields "input" = Ok input_prompt ->
      dict_get fields "output" = Ok output_prompt ->
      (forall seed, In seed seeds ->
         exists im0,
           disk (env s) (before_path (eval_path (self s)) name seed)
             = Some (Jpeg im0) /\
           mode im0 <> ModeL) ->
      0 < eval_res (self s) ->
      is_ok (fst (EditDatasetEval_getitem resample i s)) = true).
Proof.
  intros Hok. split; [|split; [|split]].
  - intros path split s0 s1 s2 mi ma cr fl res w Hv V0 V1 V2 N0 N1 N2 Hs. split.
    + intros (entries & Hd & Hlen).
      destruct (split_slice_defined split entries s0 s1 s2 Hv V0 V1 V2 N0 N1 N2
                  Hs Hlen) as [kept Hk].
      rewrite (EditDataset_init_ok path split (s0, s1, s2) mi ma cr fl w
                 entries kept Hv Hs Hd Hk).
      rewrite (EditDatasetEval_init_ok path split (s0, s1, s2) res w entries kept
                 Hv Hs Hd Hk).
      split; reflexivity.
    + intros (info & rows & Hi & Hj & Hc & Hlen).
      destruct (EpicEditDataset_init_ok path (s0, s1, s2) mi ma cr fl w info rows
                  Hs Hi Hj Hc) as (shuffled & w' & Hperm & Hrun).
      assert (Hlen' : (Z.of_nat (List.length shuffled) < 2 ^ 63)%Z).
      { rewrite (Permutation_length Hperm), length_map. exact Hlen. }
      destruct (split_slice_defined split shuffled s0 s1 s2 Hv V0 V1 V2 N0 N1 N2
                  Hs Hlen') as [kept Hk].
      rewrite (Hrun split kept Hv Hk). reflexivity.
  - apply EpicEditDataset_getitem_succeeds, Hok.
  - apply EditDataset_getitem_succeeds, Hok.
  - intros i s name seeds fields e ip op Hidx Hne Hp He Hi Ho Hfiles Hres.
    destruct (EditDatasetEval_getitem_succeeds resample Hok i s name seeds
                fields e ip op Hidx Hne Hp He Hi Ho Hfiles Hres)
      as (seed & im0 & _ & _ & ->).
    reflexivity.
Qed.

(** C4 on the small disk: the first action of the annotation table, with
    a crop of 1 out of 2 by 2. *)
Lemma C4_witness_small_disk :
  is_ok (fst (EpicEditDataset_getitem nearest 0 (example_state example_epic 0)))
  = true.
Proof.
  destruct (C4_no_error_on_well_formed_input nearest nearest_ok)
    as (_ & H & _).
  refine (H 0%Z (example_state example_epic 0)
            {| part := "P01"; clip := "P01_01"; start := 8; stop := 202;
               narration := "open door" |}
            before_img after_img _ _ _ _ _ _ _ _).
  - vm_compute; reflexivity.
  - vm_compute; reflexivity.
  - vm_compute; reflexivity.
  - discriminate.
  - discriminate.
  - cbn; lia.
  - cbn; lia.
  - cbn; lia.
Defined.

(** ** Which files are opened *)

Lemma string_app_assoc (a b c : string) :
  ((a ++ b) ++ c)%string = (a ++ (b ++ c))%string.
Proof. induction a as [|x a IH]; cbn; [reflexivity | f_equal; exact IH]. Qed.

Lemma has_suffix_app (suffix x : string) : has_suffix suffix (x ++ suffix).
Proof. exists x. reflexivity. Qed.

Lemma has_suffix_join (suffix a b : string) :
  has_suffix suffix b -> has_suffix suffix (path_join2 a b).
Proof.
  intros [pre ->]. unfold path_join2.
  destruct (starts_with_slash _); [apply has_suffix_app|].
  destruct (_ || _).
  - exists (a ++ pre)%string. symmetry. apply string_app_assoc.
  - exists (a ++ "/" ++ pre)%string. rewrite !string_app_assoc. reflexivity.
Qed.

(** The last component of a path keeps a suffix that has no separator. *)
Lemma split_slash_app (x : string) :
  exists init lst,
    split_slash x = init ++ [lst] /\
    forall suffix, split_slash suffix = [suffix] ->
      split_slash (x ++ suffix) = init ++ [(lst ++ suffix)%string].
Proof.
  induction x as [|c x (init & lst & E & IH)].
  - exists [], EmptyString. split; [reflexivity|]. intros suffix H. exact H.
  - cbn [split_slash String.append]. destruct (Ascii.eqb c "/").
    + exists (EmptyString :: init), lst. split; [rewrite E; reflexivity|].
      intros suffix H. rewrite (IH suffix H). reflexivity.
    + destruct init as [|h t].
      * exists [], (String c lst). split; [rewrite E; reflexivity|].
        intros suffix H. rewrite (IH suffix H). reflexivity.
      * exists (String c h :: t), lst. split; [rewrite E; reflexivity|].
        intros suffix H. rewrite (IH suffix H). reflexivity.
Qed.

Lemma join_slash_last (qs : list string) (z : string) :
  exists pre, join_slash (qs ++ [z]) = (pre ++ z)%string.
Proof.
  induction qs as [|q qs [pre IH]].
  - exists EmptyString. reflexivity.
  - exists (q ++ "/" ++ pre)%string. cbn [app join_slash].
    destruct (qs ++ [z]) as [|y ys] eqn:E.
    + destruct qs; discriminate E.
    + rewrite IH, !string_app_assoc. reflexivity.
Qed.

Lemma path_parts_suffix (suffix b : string) :
  split_slash suffix = [suffix] -> 2 <= String.length suffix ->
  has_suffix suffix b ->
  exists qs z, path_parts b = qs ++ [z] /\ has_suffix suffix z.
Proof.
  intros Hs Hlen [pre ->].
  destruct (split_slash_app pre) as (init & lst & _ & E).
  unfold path_parts. rewrite (E suffix Hs), filter_app. cbn [filter].
  assert (Hl : 2 <= String.length (lst ++ suffix))
    by (rewrite string_length_app; lia).
  destruct (lst ++ suffix)%string as [|c1 [|c2 r]] eqn:Ez; cbn in Hl; try lia.
  replace (String.eqb (String c1 (String c2 r)) EmptyString) with false
    by reflexivity.
  replace (String.eqb (String c1 (String c2 r)) ".") with false
    by (cbn; destruct (Ascii.eqb c1 "."); reflexivity).
  cbn [negb andb]. eexists _, _. split; [reflexivity|].
  rewrite <- Ez. apply has_suffix_app.
Qed.

Lemma has_suffix_Path (suffix a b : string) :
  split_slash suffix = [suffix] -> 2 <= String.length suffix ->
  has_suffix suffix b -> has_suffix suffix (Path a b).
Proof.
  intros Hs Hlen Hb.
  destruct (path_parts_suffix suffix b Hs Hlen Hb) as (qs & z & E & [pz ->]).
  assert (H : forall root ps,
             has_suffix suffix
               (let text := (root ++ join_slash (ps ++ qs ++ [(pz ++ suffix)%string]))%string in
                if String.eqb text EmptyString then "."%string else text)).
  { intros root ps. cbv zeta. rewrite app_assoc.
    destruct (join_slash_last (ps ++ qs) (pz ++ suffix)%string) as [pre ->].
    destruct (String.eqb_spec (root ++ pre ++ pz ++ suffix) EmptyString) as [E0 | _].
    - apply (f_equal String.length) in E0.
      rewrite !string_length_app in E0. cbn in E0. lia.
    - exists (root ++ pre ++ pz)%string. rewrite !string_app_assoc. reflexivity. }
  unfold Path. rewrite E.
  destruct (starts_with_slash b).
  - exact (H (path_root b) []).
  - exact (H (path_root a) (path_parts a)).
Qed.

Lemma app_head_eq {A} (x1 x2 y1 y2 : list A) :
  List.length x1 = List.length x2 -> x1 ++ y1 = x2 ++ y2 -> x1 = x2.
Proof.
  revert x2. induction x1 as [|a x1 IH]; intros [|b x2] Hlen E; cbn in *;
    try discriminate; [reflexivity|].
  injection E as -> E. f_equal. apply IH; [lia | exact E].
Qed.

Lemma suffix_clash (suffix1 suffix2 p : string) :
  String.length suffix1 = String.length suffix2 -> suffix1 <> suffix2 ->
  has_suffix suffix1 p -> has_suffix suffix2 p -> False.
Proof.
  intros Hlen Hne [pre1 ->] [pre2 E]. apply Hne. clear Hne.
  apply (f_equal list_ascii_of_string) in E.
  rewrite !list_ascii_of_string_app in E.
  apply (f_equal (@rev ascii)) in E. rewrite !rev_app_distr in E.
  apply app_head_eq in E.
  - apply (f_equal (@rev ascii)) in E. rewrite !rev_involutive in E.
    apply (f_equal string_of_list_ascii) in E.
    rewrite !string_of_list_ascii_of_string in E. exact E.
  - rewrite !length_rev, <- !length_string_of_list_ascii,
      !string_of_list_ascii_of_string. exact Hlen.
Qed.

Lemma opens_only_preserves {S A} (log : S -> list string) allowed (c : M S A) :
  preserves log c -> opens_only log allowed c.
Proof.
  intros H s. exists []. rewrite app_nil_r. split; [apply H | constructor].
Qed.

Lemma opens_only_bind {S A B} (log : S -> list string) allowed
    (c : M S A) (k : A -> M S B) :
  opens_only log allowed c -> (forall a, opens_only log allowed (k a)) ->
  opens_only log allowed (bind c k).
Proof.
  intros Hc Hk s. unfold bind. destruct (Hc s) as (e1 & E1 & F1).
  destruct (c s) as [[a|e] s1]; cbn [snd] in *.
  - destruct (Hk a s1) as (e2 & E2 & F2).
    exists (e1 ++ e2). rewrite E2, E1, app_assoc.
    split; [reflexivity | apply Forall_app; split; assumption].
  - exists e1. split; assumption.
Qed.

Lemma opens_only_liftW {O A} allowed (c : M world A) :
  opens_only opened allowed c ->
  opens_only (fun s : state O => opened (env s)) allowed (liftW c).
Proof.
  intros H s. unfold liftW. destruct (H (env s)) as (e & E & F).
  destruct (c (env s)). exists e. split; assumption.
Qed.

Lemma opens_only_Image_open (allowed : string -> Prop) (p : string) :
  allowed p -> opens_only opened allowed (Image_open p).
Proof.
  intros Hp w. exists [p]. split; [apply Image_open_log | repeat constructor; exact Hp].
Qed.

Lemma opens_only_json_load_prompt (allowed : string -> Prop) (p : string) :
  allowed p -> opens_only opened allowed (json_load_prompt p).
Proof.
  intros Hp w. exists [p].
  split; [apply json_load_prompt_log | repeat constructor; exact Hp].
Qed.

(** The names of the files [EditDatasetEval.__getitem__] may open. *)
Lemma EditDatasetEval_getitem_opens (resample : nat -> pil_image -> pil_image) i :
  opens_only (fun s : state EditDatasetEval => opened (env s))
    (fun p => has_suffix "prompt.json" p \/ has_suffix "_0.jpg" p)
    (EditDatasetEval_getitem resample i).
Proof.
  unfold EditDatasetEval_getitem, get_self.
  apply opens_only_bind; [apply opens_only_preserves, preserves_gets|].
  intros this.
  apply opens_only_bind; [apply opens_only_preserves, preserves_lift_result|].
  intros [name seeds]. cbv zeta.
  apply opens_only_bind;
    [apply opens_only_liftW, opens_only_preserves, pick_seed_frame|].
  intros seed.
  apply opens_only_bind.
  { apply opens_only_liftW, opens_only_json_load_prompt. left.
    apply has_suffix_Path; [reflexivity | cbn; lia | exists EmptyString; reflexivity]. }
  intros fields.
  do 3 (apply opens_only_bind;
        [apply opens_only_preserves, preserves_lift_result | intros ?]).
  apply opens_only_bind.
  { apply opens_only_liftW, opens_only_Image_open. right.
    apply has_suffix_Path; [reflexivity | cbn; lia | apply has_suffix_app]. }
  intros im0.
  apply opens_only_bind;
    [apply opens_only_liftW, opens_only_preserves, torch_randint_frame|].
  intros r.
  do 2 (apply opens_only_bind;
        [apply opens_only_preserves, preserves_lift_result | intros ?]).
  apply opens_only_preserves, preserves_ret.
Qed.

Lemma has_suffix_weaken (a b p : string) :
  has_suffix (a ++ b) p -> has_suffix b p.
Proof.
  intros [pre ->]. exists (pre ++ a)%string. symmetry. apply string_app_assoc.
Qed.

Lemma after_path_suffix (path name : string) (seed : Z) :
  has_suffix "_1.jpg" (after_path path name seed).
Proof.
  unfold after_path.
  apply has_suffix_Path; [reflexivity | cbn; lia | apply has_suffix_app].
Qed.

Lemma not_an_after_image (p : string) :
  has_suffix "prompt.json" p \/ has_suffix "_0.jpg" p ->
  ~ has_suffix "_1.jpg" p.
Proof.
  intros [H|H] H1.
  - apply (has_suffix_weaken "promp" "t.json") in H.
    apply (suffix_clash "t.json" "_1.jpg" p); [reflexivity | discriminate | |];
      assumption.
  - apply (suffix_clash "_0.jpg" "_1.jpg" p); [reflexivity | discriminate | |];
      assumption.
Qed.

(** C7. On a valid index whose files exist ([prompt.json] with the three
    keys, a colour image [{seed}_0.jpg] for every seed of the sample) and
    with [0 < res], [EditDatasetEval.__getitem__] returns the dictionary of
    the normalised source image under [image_0] and the three prompts under
    [input_prompt], [edit] and [output_prompt], having opened [prompt.json]
    and [{seed}_0.jpg] and nothing else. Whatever the outcome, no file
    whose name ends in [_1.jpg], as the name of every after image does, is
    opened. *)
Theorem C7_eval_returns_source_and_prompts
    (resample : nat -> pil_image -> pil_image) :
  resample_ok resample ->
  (forall i (s : state EditDatasetEval) name seeds fields
          edit input_prompt output_prompt,
      pyindex (eval_seeds (self s)) i = Ok (name, seeds) ->
      seeds <> [] ->
      disk (env s) (prompt_path (eval_path (self s)) name)
        = Some (PromptJson fields) ->
      dict_get fields "edit" = Ok edit ->
      dict_get fields "input" = Ok input_prompt ->
      dict_get fields "output" = Ok output_prompt ->
      (forall seed, In seed seeds ->
         exists im0,
           disk (env s) (before_path (eval_path (self s)) name seed)
             = Some (Jpeg im0) /\
           mode im0 <> ModeL) ->
      0 < eval_res (self s) ->
      exists seed im0 s',
        In seed seeds /\
        disk (env s) (before_path (eval_path (self s)) name seed)
          = Some (Jpeg im0) /\
        EditDatasetEval_getitem resample i s =
        (Ok (VDict
               [("image_0",
                 VTensor (resized_tensor resample (eval_res (self s)) im0));
                ("input_prompt", VStr input_prompt);
                ("edit", VStr edit);
                ("output_prompt", VStr output_prompt)]%string), s') /\
        opened (env s') = opened (env s) ++
          [prompt_path (eval_path (self s)) name;
           before_path (eval_path (self s)) name seed]) /\
  (forall i (s : state EditDatasetEval),
      exists extra,
        opened (env (snd (EditDatasetEval_getitem resample i s)))
          = opened (env s) ++ extra /\
        forall p, has_suffix "_1.jpg" p -> ~ In p extra) /\
  (forall path name seed, has_suffix "_1.jpg" (after_path path name seed)).
Proof.
  intros Hok. split; [|split].
  - intros i s name seeds fields e ip op Hidx Hne Hp He Hi Ho Hfiles Hres.
    destruct (EditDatasetEval_getitem_succeeds resample Hok i s name seeds
                fields e ip op Hidx Hne Hp He Hi Ho Hfiles Hres)
      as (seed & im0 & Hin & H0 & Hrun).
    exists seed, im0. eexists. split; [exact Hin|]. split; [exact H0|].
    split; [exact Hrun|].
    cbn [env opened torch_advance log_open]. rewrite <- app_assoc. reflexivity.
  - intros i s.
    destruct (EditDatasetEval_getitem_opens resample i s) as (extra & E & F).
    exists extra. split; [exact E|].
    intros p Hp Hin. rewrite Forall_forall in F.
    exact (not_an_after_image p (F p Hin) Hp).
  - exact after_path_suffix.
Qed.

(** C7 on the small disk: sample [s0]. *)
Lemma C7_witness_small_disk :
  exists s',
    EditDatasetEval_getitem nearest 0 (example_state example_eval 0) =
    (Ok (VDict
           [("image_0", VTensor (resized_tensor nearest 2 before_img));
            ("input_prompt", VStr "a photo of a dog");
            ("edit", VStr "make it a cat");
            ("output_prompt", VStr "a photo of a cat")]%string), s') /\
    opened (env s') = ["data/s0/prompt.json"; "data/s0/7_0.jpg"]%string.
Proof.
  destruct (C7_eval_returns_source_and_prompts nearest nearest_ok) as [H _].
  destruct (H 0%Z (example_state example_eval 0) "s0"%string [7%Z]
              [("input", "a photo of a dog"); ("edit", "make it a cat");
               ("output", "a photo of a cat")]%string
              "make it a cat"%string "a photo of a dog"%string
              "a photo of a cat"%string)
    as (seed & im0 & s' & Hin & H0 & Hrun & Hlog).
  - vm_compute; reflexivity.
  - discriminate.
  - vm_compute; reflexivity.
  - reflexivity.
  - reflexivity.
  - reflexivity.
  - intros seed [<-|[]]. exists before_img. split; [vm_compute; reflexivity|].
    discriminate.
  - cbn; lia.
  - destruct Hin as [<-|[]].
    vm_compute in H0. inversion H0; subst im0. clear H0.
    exists s'. split; [exact Hrun|]. rewrite Hlog. vm_compute. reflexivity.
Defined.

(** ** Frame file names *)

Lemma EpicEditDataset_getitem_opens (resample : nat -> pil_image -> pil_image)
    index :
  opens_only (fun s : state EpicEditDataset => opened (env s))
    (fun p => exists dir frame, p = os_path_join dir [_index_to_img_fn frame])
    (EpicEditDataset_getitem resample index).
Proof.
  unfold EpicEditDataset_getitem, get_self.
  apply opens_only_bind; [apply opens_only_preserves, preserves_gets|].
  intros this.
  apply opens_only_bind; [apply opens_only_preserves, preserves_lift_result|].
  intros entry. cbv zeta.
  apply opens_only_bind.
  { apply opens_only_liftW, opens_only_Image_open. eexists _, _. reflexivity. }
  intros image_0.
  apply opens_only_bind.
  { apply opens_only_liftW, opens_only_Image_open. eexists _, _. reflexivity. }
  intros image_1.
  apply opens_only_bind;
    [apply opens_only_liftW, opens_only_preserves, paired_transform_frame|].
  intros [t0 t1]. apply opens_only_preserves, preserves_ret.
Qed.

(** C9. For a frame index of at most ten digits ([0 <= index < 10^10])
    [_index_to_img_fn] returns [frame_], then the index written with
    exactly ten decimal digits (zeros, then its digits), then [.jpg].
    Every file that [EpicEditDataset.__getitem__] opens is named by this
    function, and a call that returns has opened the frame of [start] and
    then the frame of [stop], both in the directory of the clip. *)
Theorem C9_frame_names_are_zero_padded (resample : nat -> pil_image -> pil_image) :
  (forall index : Z,
      (0 <= index < 10 ^ 10)%Z ->
      exists pad,
        _index_to_img_fn index = ("frame_" ++ pad ++ ".jpg")%string /\
        zero_padded 10 index pad) /\
  (forall index (s : state EpicEditDataset),
      exists extra,
        opened (env (snd (EpicEditDataset_getitem resample index s)))
          = opened (env s) ++ extra /\
        Forall (fun p => exists dir frame,
                    p = os_path_join dir [_index_to_img_fn frame]) extra) /\
  (forall index (s : state EpicEditDataset) v s',
      EpicEditDataset_getitem resample index s = (Ok v, s') ->
      exists entry,
        pyindex (epic_metadata (self s)) index = Ok entry /\
        opened (env s') = opened (env s) ++
          [os_path_join
             (os_path_join (epic_basedir (self s))
                [part entry; "agentago_frames"; clip entry]%string)
             [_index_to_img_fn (start entry)];
           os_path_join
             (os_path_join (epic_basedir (self s))
                [part entry; "agentago_frames"; clip entry]%string)
             [_index_to_img_fn (stop entry)]]).
Proof.
  split; [|split].
  - intros index Hi. exists (format_0d 10 index).
    split; [reflexivity | apply format_0d_zero_padded, Hi].
  - intros index s. apply EpicEditDataset_getitem_opens.
  - intros index s v s' H. apply EpicEditDataset_getitem_ok in H.
    destruct H as (entry & im0 & im1 & t0 & t1 & Hidx & _ & _ & Hpt & _).
    exists entry. split; [exact Hidx|].
    destruct (paired_transform_frame resample
                (epic_min_resize_res (self s)) (epic_max_resize_res (self s))
                (epic_crop_res (self s)) (epic_flip_prob (self s)) im0 im1)
      as [Hlog _].
    specialize (Hlog (log_open (snd (frame_paths (epic_basedir (self s)) entry))
                        (log_open (fst (frame_paths (epic_basedir (self s)) entry))
                           (env s)))).
    rewrite Hpt in Hlog. cbn [snd] in Hlog. rewrite Hlog.
    cbn [opened log_open frame_paths fst snd]. rewrite <- app_assoc. reflexivity.
Qed.

(** C9 at frame 8: [frame_0000000008.jpg]. *)
Lemma C9_witness_frame_8 :
  exists pad,
    _index_to_img_fn 8 = ("frame_" ++ pad ++ ".jpg")%string /\
    zero_padded 10 8 pad /\
    _index_to_img_fn 8 = "frame_0000000008.jpg"%string.
Proof.
  destruct (C9_frame_names_are_zero_padded nearest) as [H _].
  destruct (H 8%Z ltac:(lia)) as (pad & E & Hpad).
  exists pad. split; [exact E|]. split; [exact Hpad | reflexivity].
Defined.

(** ** The resolution of the evaluation images *)

Lemma torch_randint_single (res : nat) (w : world) :
  torch_randint res (res + 1) w = (Ok res, torch_advance w).
Proof.
  rewrite torch_randint_run by lia.
  replace (res + 1 - res) with 1 by lia. rewrite Nat.mod_1_r, Nat.add_0_r.
  reflexivity.
Qed.

(** C10. [torch.randint(res, res + 1, ())] is [res] whatever the state of
    the generator, and every image that [EditDatasetEval.__getitem__]
    returns has [res] rows and [res] columns (and the bands of the source
    image), so its size does not depend on the draws. *)
Theorem C10_eval_resolution_is_fixed (resample : nat -> pil_image -> pil_image) :
  resample_ok resample ->
  (forall res w, torch_randint res (res + 1) w = (Ok res, torch_advance w)) /\
  (forall i (s : state EditDatasetEval) v s',
      EditDatasetEval_getitem resample i s = (Ok v, s') ->
      exists t input_prompt edit output_prompt,
        v = VDict [("image_0", VTensor t);
                   ("input_prompt", VStr input_prompt);
                   ("edit", VStr edit);
                   ("output_prompt", VStr output_prompt)]%string /\
        height t = eval_res (self s) /\ width t = eval_res (self s)) /\
  (forall i (s1 s2 : state EditDatasetEval) v1 v2 s1' s2' t1 t2 rest1 rest2,
      self s1 = self s2 ->
      EditDatasetEval_getitem resample i s1 = (Ok v1, s1') ->
      EditDatasetEval_getitem resample i s2 = (Ok v2, s2') ->
      v1 = VDict (("image_0"%string, VTensor t1) :: rest1) ->
      v2 = VDict (("image_0"%string, VTensor t2) :: rest2) ->
      height t1 = height t2 /\ width t1 = width t2).
Proof.
  intros Hok.
  assert (Hshape : forall i (s : state EditDatasetEval) v s',
             EditDatasetEval_getitem resample i s = (Ok v, s') ->
             exists t input_prompt edit output_prompt,
               v = VDict [("image_0", VTensor t);
                          ("input_prompt", VStr input_prompt);
                          ("edit", VStr edit);
                          ("output_prompt", VStr output_prompt)]%string /\
               height t = eval_res (self s) /\ width t = eval_res (self s)).
  { intros i s v s' H. apply EditDatasetEval_getitem_ok in H.
    destruct H as (name & seeds & seed & fields & e & ip & op & im0
                   & _ & _ & _ & _ & _ & _ & _ & Hres & -> & _).
    destruct (resized_tensor_shape resample Hok (eval_res (self s)) im0 Hres)
      as (_ & Hh & Hw).
    eexists _, ip, e, op. split; [reflexivity|]. split; assumption. }
  split; [exact torch_randint_single|]. split; [exact Hshape|].
  intros i s1 s2 v1 v2 s1' s2' t1 t2 rest1 rest2 Hself H1 H2 E1 E2.
  destruct (Hshape i s1 v1 s1' H1) as (t1' & ? & ? & ? & F1 & Hh1 & Hw1).
  destruct (Hshape i s2 v2 s2' H2) as (t2' & ? & ? & ? & F2 & Hh2 & Hw2).
  rewrite F1 in E1. rewrite F2 in E2.
  inversion E1; subst. inversion E2; subst.
  rewrite Hh1, Hh2, Hw1, Hw2, Hself. split; reflexivity.
Qed.

(** C10 on the small disk: with every draw equal to 5, sample [s0]
    comes back 2 by 2. *)
Lemma C10_witness_small_disk :
  exists t input_prompt edit output_prompt,
    fst (EditDatasetEval_getitem nearest 0 (example_state example_eval 5)) =
    Ok (VDict [("image_0", VTensor t);
               ("input_prompt", VStr input_prompt);
               ("edit", VStr edit);
               ("output_prompt", VStr output_prompt)]%string) /\
    height t = 2 /\ width t = 2.
Proof.
  run_ok (EditDatasetEval_getitem nearest 0 (example_state example_eval 5)) E.
  destruct (C10_eval_resolution_is_fixed nearest nearest_ok) as (_ & H & _).
  destruct (H _ _ _ _ E) as (t & ip & e & op & Hv & Hh & Hw).
  exists t, ip, e, op. rewrite E. cbn [fst]. rewrite Hv.
  split; [reflexivity|]. split; assumption.
Defined.

(** * Further properties of the code *)

(** ** What a construction does to the world *)




Lemma shuffle_frame {A} (x : list A) :
  preserves torch_pos (np_random_shuffle x) /\ preserves disk (np_random_shuffle x)
  /\ preserves opened (np_random_shuffle x).
Proof.
  unfold preserves, np_random_shuffle.
  repeat split; intros w;
    destruct (shuffle_from_spec (List.length x - 1) x w)
      as (x' & w' & Hrun & _ & Hd & Ho & _ & Ht);
    rewrite Hrun; assumption.
Qed.

Lemma open_frame (p : string) :
  preserves torch_pos (open_ p) /\ preserves disk (open_ p).
Proof. unfold open_. split; frame. Qed.

Lemma epic_init_frame path split splits mi ma cr fl :
  preserves torch_pos (EpicEditDataset_init path split splits mi ma cr fl) /\
  preserves disk (EpicEditDataset_init path split splits mi ma cr fl).
Proof.
  unfold EpicEditDataset_init, json_load, pd_read_csv, logger_info.
  split; frame; first [apply open_frame | apply shuffle_frame].
Qed.

Lemma epic_init_log path split splits mi ma cr fl w :
  exists extra,
    opened (snd (EpicEditDataset_init path split splits mi ma cr fl w))
      = opened w ++ extra /\
    (extra = [] \/ extra = [Path path "info.json"] \/
     extra = [Path path "info.json";
              os_path_join path ["EPIC100_annotations.csv"%string]]).
Proof.
  unfold EpicEditDataset_init.
  destruct (valid_split split);
    [|exists []; rewrite app_nil_r; cbn; auto].
  destruct (sums_to_one splits);
    [|exists []; rewrite app_nil_r; cbn; auto].
  unfold assert_. cbn [bind ret].
  unfold json_load, bind at 1 2. rewrite open_run.
  destruct (disk w (Path path "info.json")) as [info|];
    [|eexists; split; [reflexivity | auto]].
  destruct (is_json info); [|eexists; split; [reflexivity | auto]].
  cbn [ret].
  unfold pd_read_csv, bind at 1 2. rewrite open_run.
  exists [Path path "info.json";
          os_path_join path ["EPIC100_annotations.csv"%string]].
  split; [|auto].
  lazymatch goal with
  | |- context [disk ?w' ?p] => destruct (disk w' p) as [[| rows | | |]|]
  end; cbv beta iota delta [ret raise]; cbn [fst snd];
    try (cbn [opened log_open]; rewrite <- app_assoc; reflexivity).
  destruct (shuffle_frame (map action_of_row rows)) as (_ & _ & Ho).
  unfold bind at 1.
  lazymatch goal with
  | |- context [np_random_shuffle ?x ?w'] =>
      specialize (Ho w'); destruct (np_random_shuffle x w') as [[sh|e] w'']
  end; cbn [snd] in *.
  - unfold logger_info, modify, bind, lift_result.
    destruct (split_slice split splits sh); cbn [snd opened log_info];
      rewrite Ho; cbn [opened log_open]; rewrite <- app_assoc; reflexivity.
  - rewrite Ho. cbn [opened log_open]. rewrite <- app_assoc. reflexivity.
Qed.

(** X3. [EpicEditDataset.__init__]: a failed assertion leaves the world as it
    was; otherwise the files opened are [info.json], then the annotation
    table if [info.json] was read, and nothing else; torch's generator and
    the disk are never touched. *)
Theorem epic_constructor_effect :
  forall path split splits mi ma cr fl w,
    (valid_split split && sums_to_one splits = false ->
     EpicEditDataset_init path split splits mi ma cr fl w
     = (Raise AssertionError, w)) /\
    (exists extra,
        opened (snd (EpicEditDataset_init path split splits mi ma cr fl w))
          = opened w ++ extra /\
        (extra = [] \/ extra = [Path path "info.json"] \/
         extra = [Path path "info.json";
                  os_path_join path ["EPIC100_annotations.csv"%string]])) /\
    torch_pos (snd (EpicEditDataset_init path split splits mi ma cr fl w))
      = torch_pos w /\
    disk (snd (EpicEditDataset_init path split splits mi ma cr fl w)) = disk w.
Proof.
  intros path split splits mi ma cr fl w.
  split; [|split; [apply epic_init_log | split; apply epic_init_frame]].
  unfold EpicEditDataset_init.
  destruct (valid_split split); [|reflexivity].
  destruct (sums_to_one splits); [discriminate | reflexivity].
Qed.

Lemma epic_constructor_effect_example :
  EpicEditDataset_init "epic" "dev" (decimal 1 2, decimal 1 4, decimal 1 4)
    256 256 256 0%Q (example_world 0)
  = (Raise AssertionError, example_world 0).
Proof.
  destruct (epic_constructor_effect "epic" "dev"
              (decimal 1 2, decimal 1 4, decimal 1 4)
              256 256 256 0%Q (example_world 0)) as [H _].
  apply H. reflexivity.
Defined.

(** X4. A manifest that is missing is reported by name, [info.json] before
    the annotation table: [seeds.json] and [info.json] under the name
    pathlib gives them, the annotation table under that of [os.path.join]. *)
Theorem constructors_report_missing_manifest :
  forall path split splits mi ma cr fl res w,
    valid_split split = true ->
    sums_to_one splits = true ->
    (disk w (Path path "seeds.json") = None ->
     fst (EditDataset_init path split splits mi ma cr fl w)
       = Raise (FileNotFoundError (Path path "seeds.json")) /\
     fst (EditDatasetEval_init path split splits res w)
       = Raise (FileNotFoundError (Path path "seeds.json"))) /\
    (disk w (Path path "info.json") = None ->
     fst (EpicEditDataset_init path split splits mi ma cr fl w)
       = Raise (FileNotFoundError (Path path "info.json"))) /\
    (forall info,
        disk w (Path path "info.json") = Some info -> is_json info = true ->
        disk w (os_path_join path ["EPIC100_annotations.csv"%string]) = None ->
        fst (EpicEditDataset_init path split splits mi ma cr fl w)
          = Raise (FileNotFoundError
                     (os_path_join path ["EPIC100_annotations.csv"%string]))).
Proof.
  intros path split splits mi ma cr fl res w Hv Hs.
  unfold EditDataset_init, EditDatasetEval_init, EpicEditDataset_init.
  rewrite Hv, Hs. unfold assert_. cbn [bind ret].
  split; [|split].
  - intros Hd. unfold json_load_seeds, bind. rewrite open_run, Hd.
    split; reflexivity.
  - intros Hd. unfold json_load, bind. rewrite open_run, Hd. reflexivity.
  - intros info Hi Hj Hc. unfold json_load, bind at 1 2. rewrite open_run, Hi, Hj.
    cbn [ret]. unfold pd_read_csv, bind. rewrite open_run.
    cbn [disk log_open]. rewrite Hc. reflexivity.
Qed.

Lemma constructors_report_missing_manifest_example :
  fst (EditDataset_init "./nowhere//" "val" (decimal 9 10, decimal 5 100, decimal 5 100)
         256 256 256 0%Q (example_world 0))
  = Raise (FileNotFoundError "nowhere/seeds.json").
Proof.
  destruct (constructors_report_missing_manifest "./nowhere//" "val"
              (decimal 9 10, decimal 5 100, decimal 5 100)
              256 256 256 0%Q 256 (example_world 0)
              eq_refl eq_refl) as [H _].
  destruct (H eq_refl) as [H1 _]. exact H1.
Defined.

(** ** The sizes of the splits *)

Lemma length_positions {A} (lo hi : nat) (l : list A) :
  lo <= hi -> hi <= List.length l -> List.length (positions lo hi l) = hi - lo.
Proof.
  intros H1 H2. unfold positions. rewrite length_firstn, length_skipn. lia.
Qed.

Lemma Ok_inj {A} (a b : A) : Ok a = Ok b -> a = b.
Proof. intros H. injection H as H. exact H. Qed.

(** The value of a float that is not negative, as a rational. *)
Lemma f64_to_Q_fvalue (K : Z) (x : f64) :
  (0 <= K)%Z -> finite_nonneg K x ->
  (inject_Z (fvalue K x) == f64_to_Q x * inject_Z (2 ^ K))%Q.
Proof.
  intros HK H. destruct x as [s| | |[|] m e]; try contradiction;
    cbn [finite_nonneg fvalue f64_to_Q] in *.
  - unfold Qeq. cbn. reflexivity.
  - destruct (Z.leb_spec 0 e) as [He | He].
    + rewrite (Z.pow_add_r 2 e K) by lia.
      rewrite Z.mul_assoc, inject_Z_mult. reflexivity.
    + unfold Qeq, Qmult, inject_Z. cbn [Qnum Qden].
      rewrite Pos.mul_1_r, Pos2Z.inj_pow, Z2Pos.id by lia.
      replace K with ((e + K) + - e)%Z at 2 by lia.
      rewrite (Z.pow_add_r 2 (e + K) (- e)) by lia. ring.
Qed.

Lemma floor_times_near (x : f64) (n a : Z) :
  (0 <= n <= 2 ^ 53)%Z -> finite_nonneg 1074 x -> (fvalue 1074 x <= 2 ^ 1074)%Z ->
  floor_times x n = Ok a ->
  (inject_Z a - 1 < f64_to_Q x * inject_Z n)%Q /\
  (f64_to_Q x * inject_Z n < inject_Z a + 1)%Q.
Proof.
  intros Hn Fx Hx Ha.
  destruct (floor_mul_bounds 1074 (Z.le_refl _) x n Hn Fx Hx) as [E _].
  unfold floor_times in Ha. rewrite E in Ha. apply Ok_inj in Ha.
  pose proof (floor_mul_near 1074 (Z.le_refl _) x n Hn Fx Hx) as [H1 H2].
  rewrite Ha in H1, H2.
  pose proof (f64_to_Q_fvalue 1074 x ltac:(lia) Fx) as Ev.
  set (D := (2 ^ (1074 + 1074))%Z) in *.
  assert (PD : (0 < D)%Z) by (apply Z.pow_pos_nonneg; lia).
  assert (ED : (2 ^ 1074 * 2 ^ 1074 = D)%Z)
    by (unfold D; rewrite <- Z.pow_add_r by lia; reflexivity).
  assert (EV : (inject_Z (fvalue 1074 x * (n * 2 ^ 1074))
                == (f64_to_Q x * inject_Z n) * inject_Z D)%Q).
  { rewrite inject_Z_mult, Ev, inject_Z_mult, <- ED, inject_Z_mult. ring. }
  assert (QD : (0 < inject_Z D)%Q)
    by (change 0%Q with (inject_Z 0); rewrite <- Zlt_Qlt; exact PD).
  rewrite Zlt_Qlt in H1, H2.
  rewrite EV in H1, H2. rewrite inject_Z_mult in H1, H2.
  unfold Z.sub in H1. rewrite inject_Z_plus, inject_Z_opp in H1.
  rewrite inject_Z_plus in H2.
  change (inject_Z 1) with 1%Q in *. fold (Qminus (inject_Z a) 1) in H1.
  split.
  - apply (Qmult_lt_r _ _ (inject_Z D) QD). exact H1.
  - apply (Qmult_lt_r _ _ (inject_Z D) QD). exact H2.
Qed.

(** X5. For proportions that are not negative and pass the assertion on
    their sum, on a list of [n <= 2 ^ 53] entries: train, val and test keep
    [a], [b - a] and [n - b] entries, which add up to [n], and rounding
    moves a cut point by less than one entry: [a] is within one of the
    exact product of the binary64 number [s0] by [n], and [b] within one
    of that of the binary64 number [s0 + s1] by [n]. *)
Theorem split_sizes_follow_proportions {A} (l : list A) (s0 s1 s2 : f64) :
  is_f64 s0 -> is_f64 s1 -> is_f64 s2 ->
  f64_nonneg s0 -> f64_nonneg s1 -> f64_nonneg s2 ->
  sums_to_one (s0, s1, s2) = true ->
  (Z.of_nat (List.length l) <= 2 ^ 53)%Z ->
  exists a b train val test,
    floor_times_len s0 l = Ok a /\
    floor_times_len (f64_add s0 s1) l = Ok b /\
    split_slice "train" (s0, s1, s2) l = Ok train /\
    split_slice "val" (s0, s1, s2) l = Ok val /\
    split_slice "test" (s0, s1, s2) l = Ok test /\
    Z.of_nat (List.length train) = a /\
    Z.of_nat (List.length val) = (b - a)%Z /\
    Z.of_nat (List.length test) = (Z.of_nat (List.length l) - b)%Z /\
    List.length train + List.length val + List.length test = List.length l /\
    let n := inject_Z (Z.of_nat (List.length l)) in
    (inject_Z a - 1 < f64_to_Q s0 * n)%Q /\
    (f64_to_Q s0 * n < inject_Z a + 1)%Q /\
    (inject_Z b - 1 < f64_to_Q (f64_add s0 s1) * n)%Q /\
    (f64_to_Q (f64_add s0 s1) * n < inject_Z b + 1)%Q.
Proof.
  intros V0 V1 V2 N0 N1 N2 Hsum Hlen.
  destruct (split_slice_partition l s0 s1 s2 V0 V1 V2 N0 N1 N2 Hsum Hlen)
    as (a & b & tr & va & te & Ea & Eb & Htr & Hva & Hte & Hpart).
  exists a, b, tr, va, te. do 5 (split; [assumption|]).
  destruct Hpart as (Hab & Hb & -> & -> & -> & Hcat).
  rewrite !length_positions by lia.
  split; [lia|]. split; [lia|]. split; [lia|]. split; [lia|].
  destruct (cumulative_le_1 1074 (Z.le_refl _) s0 s1 s2 V0 V1 V2 N0 N1 N2 Hsum)
    as (F0 & Ft & H0t & Ht1).
  assert (Hn : (0 <= Z.of_nat (List.length l) <= 2 ^ 53)%Z) by lia.
  cbv zeta.
  destruct (floor_times_near s0 _ a Hn F0 ltac:(lia) Ea) as [A1 A2].
  destruct (floor_times_near (f64_add s0 s1) _ b Hn Ft Ht1 Eb) as [B1 B2].
  repeat split; assumption.
Qed.

Lemma split_sizes_example :
  exists train val test : list nat,
    split_slice "train" (decimal 7 10, decimal 3 10, f64_of_Z 0) (seq 0 10)
      = Ok train /\
    split_slice "val" (decimal 7 10, decimal 3 10, f64_of_Z 0) (seq 0 10)
      = Ok val /\
    split_slice "test" (decimal 7 10, decimal 3 10, f64_of_Z 0) (seq 0 10)
      = Ok test /\
    List.length train = 7 /\ List.length val = 3 /\ List.length test = 0 /\
    (6 < f64_to_Q (decimal 7 10) * 10)%Q /\
    (f64_to_Q (decimal 7 10) * 10 < 7)%Q.
Proof.
  destruct (split_sizes_follow_proportions (seq 0 10)
              (decimal 7 10) (decimal 3 10) (f64_of_Z 0)
              eq_refl eq_refl eq_refl eq_refl eq_refl eq_refl eq_refl)
    as (a & b & tr & va & te & Ea & Eb & Htr & Hva & Hte & La & Lv & Lt & _
        & A1 & _).
  { vm_compute. discriminate. }
  vm_compute in Ea. injection Ea as <-.
  vm_compute in Eb. injection Eb as <-.
  exists tr, va, te. do 3 (split; [assumption|]).
  change (Z.of_nat (List.length (seq 0 10))) with 10%Z in Lt.
  split; [lia|]. split; [lia|]. split; [lia|].
  split; [exact A1 | vm_compute; reflexivity].
Defined.

(** ** Indices *)

Lemma pyindex_out_of_range {A} (l : list A) (i : Z) :
  ~ (- Z.of_nat (List.length l) <= i < Z.of_nat (List.length l))%Z ->
  pyindex l i = Raise IndexError.
Proof.
  intros H. unfold pyindex.
  destruct (Z.ltb_spec i 0);
    match goal with
    | |- context [((0 <=? ?k) && (?k <? ?n))%Z] =>
        destruct (Z.leb_spec 0 k); [|reflexivity];
        destruct (Z.ltb_spec k n); [lia | reflexivity]
    end.
Qed.

Lemma pyindex_from_end {A} (l : list A) (i : Z) :
  (0 <= i < Z.of_nat (List.length l))%Z ->
  pyindex l (i - Z.of_nat (List.length l)) = pyindex l i.
Proof.
  intros H. unfold pyindex.
  destruct (Z.ltb_spec (i - Z.of_nat (List.length l)) 0); [|lia].
  destruct (Z.ltb_spec i 0); [lia|].
  replace (i - Z.of_nat (List.length l) + Z.of_nat (List.length l))%Z with i by lia.
  reflexivity.
Qed.

(** X6. An index outside [-len .. len-1] raises [IndexError] at once, in the
    three classes: no file is opened and no random number is drawn. On
    an empty dataset every index is outside. *)
Theorem getitem_index_out_of_range (resample : nat -> pil_image -> pil_image) :
  (forall index (s : state EpicEditDataset),
      ~ (- Z.of_nat (List.length (epic_metadata (self s))) <= index
         < Z.of_nat (List.length (epic_metadata (self s))))%Z ->
      EpicEditDataset_getitem resample index s = (Raise IndexError, s)) /\
  (forall i (s : state EditDataset),
      ~ (- Z.of_nat (List.length (edit_seeds (self s))) <= i
         < Z.of_nat (List.length (edit_seeds (self s))))%Z ->
      EditDataset_getitem resample i s = (Raise IndexError, s)) /\
  (forall i (s : state EditDatasetEval),
      ~ (- Z.of_nat (List.length (eval_seeds (self s))) <= i
         < Z.of_nat (List.length (eval_seeds (self s))))%Z ->
      EditDatasetEval_getitem resample i s = (Raise IndexError, s)).
Proof.
  repeat split; intros i s H;
    unfold EpicEditDataset_getitem, EditDataset_getitem, EditDatasetEval_getitem,
      get_self, bind, gets, lift_result;
    rewrite (pyindex_out_of_range _ _ H); reflexivity.
Qed.

Lemma getitem_index_out_of_range_example :
  EditDataset_getitem nearest 4 (example_state example_edit 0)
  = (Raise IndexError, example_state example_edit 0).
Proof.
  destruct (getitem_index_out_of_range nearest) as (_ & H & _).
  apply H. cbn. lia.
Defined.

(** X7. A negative index counts from the end: item [i - len] is item [i],
    with the same effects, in the three classes. *)
Theorem getitem_negative_index (resample : nat -> pil_image -> pil_image) :
  (forall index (s : state EpicEditDataset),
      (0 <= index < Z.of_nat (List.length (epic_metadata (self s))))%Z ->
      EpicEditDataset_getitem resample
        (index - Z.of_nat (List.length (epic_metadata (self s)))) s
      = EpicEditDataset_getitem resample index s) /\
  (forall i (s : state EditDataset),
      (0 <= i < Z.of_nat (List.length (edit_seeds (self s))))%Z ->
      EditDataset_getitem resample (i - Z.of_nat (List.length (edit_seeds (self s)))) s
      = EditDataset_getitem resample i s) /\
  (forall i (s : state EditDatasetEval),
      (0 <= i < Z.of_nat (List.length (eval_seeds (self s))))%Z ->
      EditDatasetEval_getitem resample
        (i - Z.of_nat (List.length (eval_seeds (self s)))) s
      = EditDatasetEval_getitem resample i s).
Proof.
  repeat split; intros i s H;
    unfold EpicEditDataset_getitem, EditDataset_getitem, EditDatasetEval_getitem,
      get_self, bind, gets, lift_result;
    rewrite (pyindex_from_end _ _ H); reflexivity.
Qed.

Lemma getitem_negative_index_example :
  EditDatasetEval_getitem nearest (-4) (example_state example_eval 0)
  = EditDatasetEval_getitem nearest 0 (example_state example_eval 0).
Proof.
  destruct (getitem_negative_index nearest) as (_ & _ & H).
  apply (H 0%Z (example_state example_eval 0)). cbn. lia.
Defined.

(** ** Missing files and missing keys *)

(** X8. A frame that is missing stops [EpicEditDataset.__getitem__] with
    [FileNotFoundError] on its path: the start frame is looked for first,
    the stop frame only when the start frame was found, and no random
    number has been drawn by then. *)
Theorem epic_getitem_missing_frame (resample : nat -> pil_image -> pil_image) :
  forall index (s : state EpicEditDataset) entry,
    pyindex (epic_metadata (self s)) index = Ok entry ->
    let p0 := fst (frame_paths (epic_basedir (self s)) entry) in
    let p1 := snd (frame_paths (epic_basedir (self s)) entry) in
    (disk (env s) p0 = None ->
     EpicEditDataset_getitem resample index s
     = (Raise (FileNotFoundError p0),
        {| self := self s; env := log_open p0 (env s) |})) /\
    (forall im0,
        disk (env s) p0 = Some (Jpeg im0) -> disk (env s) p1 = None ->
        EpicEditDataset_getitem resample index s
        = (Raise (FileNotFoundError p1),
           {| self := self s; env := log_open p1 (log_open p0 (env s)) |})).
Proof.
  intros index s entry Hidx. cbv zeta. unfold frame_paths. cbn [fst snd].
  split.
  - intros H0. unfold EpicEditDataset_getitem, get_self.
    unfold bind at 1, gets at 1. cbv beta iota.
    unfold bind at 1, lift_result at 1. rewrite Hidx. cbv beta iota zeta.
    erewrite bind_run_raise; [reflexivity|].
    apply liftW_run. unfold Image_open.
    erewrite bind_run_raise; [reflexivity|]. rewrite open_run, H0. reflexivity.
  - intros im0 H0 H1. unfold EpicEditDataset_getitem, get_self.
    unfold bind at 1, gets at 1. cbv beta iota.
    unfold bind at 1, lift_result at 1. rewrite Hidx. cbv beta iota zeta.
    erewrite bind_run_ok by (apply liftW_run, Image_open_run, H0).
    unfold bind at 1, liftW at 1. cbn [env self].
    unfold Image_open, bind. rewrite open_run.
    cbn [disk log_open]. rewrite H1. reflexivity.
Qed.

Lemma epic_getitem_missing_frame_example :
  EpicEditDataset_getitem nearest 1 (example_state example_epic 0)
  = (Raise (FileNotFoundError
              "epic/P01/agentago_frames/P01_01/frame_0000000262.jpg"),
     {| self := example_epic;
        env := log_open "epic/P01/agentago_frames/P01_01/frame_0000000262.jpg"
                 (example_world 0) |}).
Proof.
  destruct (epic_getitem_missing_frame nearest 1%Z (example_state example_epic 0)
              {| part := "P01"; clip := "P01_01"; start := 262; stop := 370;
                 narration := "turn on light" |} eq_refl) as [H _].
  apply H. reflexivity.
Defined.

Lemma dict_get_absent (fields : list (string * string)) (key : string) :
  (forall v, ~ In (key, v) fields) -> dict_get fields key = Raise (KeyError key).
Proof.
  induction fields as [|[k v] rest IH]; intros H; cbn [dict_get]; [reflexivity|].
  destruct (String.eqb_spec k key) as [->|_].
  - exfalso. apply (H v). left. reflexivity.
  - apply IH. intros v' Hin. apply (H v'). right. exact Hin.
Qed.

Lemma dict_get_In (fields : list (string * string)) (key value : string) :
  dict_get fields key = Ok value -> In (key, value) fields.
Proof.
  induction fields as [|[k v] rest IH]; cbn [dict_get]; [discriminate|].
  destruct (String.eqb_spec k key) as [->|_]; intros H.
  - inversion H. left. reflexivity.
  - right. apply IH, H.
Qed.

(** X9. A key that [prompt.json] lacks raises [KeyError] on that key before
    any image is opened: [edit] in [EditDataset.__getitem__]; [edit], then
    [input], then [output] in [EditDatasetEval.__getitem__]. By then the
    seed has been drawn and [prompt.json] is the only file opened. *)
Theorem getitem_missing_prompt_key (resample : nat -> pil_image -> pil_image) :
  (forall i (s : state EditDataset) name seeds fields,
      pyindex (edit_seeds (self s)) i = Ok (name, seeds) ->
      seeds <> [] ->
      disk (env s) (prompt_path (edit_path (self s)) name)
        = Some (PromptJson fields) ->
      (forall v, ~ In ("edit"%string, v) fields) ->
      EditDataset_getitem resample i s
      = (Raise (KeyError "edit"),
         {| self := self s;
            env := log_open (prompt_path (edit_path (self s)) name)
                     (torch_advance (env s)) |})) /\
  (forall i (s : state EditDatasetEval) name seeds fields key,
      pyindex (eval_seeds (self s)) i = Ok (name, seeds) ->
      seeds <> [] ->
      disk (env s) (prompt_path (eval_path (self s)) name)
        = Some (PromptJson fields) ->
      (key = "edit"%string \/
       (key = "input"%string /\ exists e, dict_get fields "edit" = Ok e) \/
       (key = "output"%string /\ (exists e, dict_get fields "edit" = Ok e) /\
        exists i', dict_get fields "input" = Ok i')) ->
      (forall v, ~ In (key, v) fields) ->
      EditDatasetEval_getitem resample i s
      = (Raise (KeyError key),
         {| self := self s;
            env := log_open (prompt_path (eval_path (self s)) name)
                     (torch_advance (env s)) |})).
Proof.
  split.
  - intros i s name seeds fields Hidx Hne Hp Habs.
    destruct (pick_seed_run seeds (env s) Hne) as (seed & _ & Hseed).
    unfold EditDataset_getitem, get_self.
    unfold bind at 1, gets at 1. cbv beta iota.
    unfold bind at 1, lift_result at 1. rewrite Hidx. cbv beta iota zeta.
    unfold prompt_path in *.
    erewrite bind_run_ok by (apply liftW_run, Hseed).
    erewrite bind_run_ok
      by (apply liftW_run; cbn [env]; apply json_load_prompt_run; exact Hp).
    unfold bind at 1, lift_result at 1.
    rewrite (dict_get_absent fields "edit" Habs). reflexivity.
  - intros i s name seeds fields key Hidx Hne Hp Hkey Habs.
    destruct (pick_seed_run seeds (env s) Hne) as (seed & _ & Hseed).
    unfold EditDatasetEval_getitem, get_self.
    unfold bind at 1, gets at 1. cbv beta iota.
    unfold bind at 1, lift_result at 1. rewrite Hidx. cbv beta iota zeta.
    unfold prompt_path in *.
    erewrite bind_run_ok by (apply liftW_run, Hseed).
    erewrite bind_run_ok
      by (apply liftW_run; cbn [env]; apply json_load_prompt_run; exact Hp).
    pose proof (dict_get_absent fields key Habs) as Hk.
    destruct Hkey as [->|[[-> [e He]]|[-> [[e He] [i' Hi]]]]].
    + unfold bind at 1, lift_result at 1. rewrite Hk. reflexivity.
    + unfold bind at 1, lift_result at 1. rewrite He. cbv beta iota.
      unfold bind at 1, lift_result at 1. rewrite Hk. reflexivity.
    + unfold bind at 1, lift_result at 1. rewrite He. cbv beta iota.
      unfold bind at 1, lift_result at 1. rewrite Hi. cbv beta iota.
      unfold bind at 1, lift_result at 1. rewrite Hk. reflexivity.
Qed.

Lemma getitem_missing_prompt_key_example :
  EditDatasetEval_getitem nearest 0
    {| self := example_eval; env := partial_prompt_world |}
  = (Raise (KeyError "input"),
     {| self := example_eval;
        env := log_open "data/s0/prompt.json" (torch_advance partial_prompt_world) |}).
Proof.
  destruct (getitem_missing_prompt_key nearest) as [_ H].
  refine (H 0%Z {| self := example_eval; env := partial_prompt_world |}
            "s0"%string [7%Z] [("edit", "make it a cat")]%string "input"%string
            _ _ _ _ _).
  - reflexivity.
  - discriminate.
  - reflexivity.
  - right. left. split; [reflexivity|]. eexists. reflexivity.
  - intros v [H'|[]]. discriminate H'.
Defined.

(** ** Shapes, windows and the flip *)

Lemma resized_tensor_full_shape (resample : nat -> pil_image -> pil_image) r img :
  resample_ok resample ->
  tensor_shape (bands (mode img)) r r (resized_tensor resample r img).
Proof.
  intros Hok. destruct (Hok r img) as [Hm [Hlen Hrows]].
  unfold tensor_shape, resized_tensor, rearrange_hwc_chw, normalize_hwc.
  rewrite Hm. split; [rewrite length_map, length_seq; reflexivity|].
  apply Forall_map, Forall_forall. intros k _.
  rewrite !length_map. split; [exact Hlen|].
  apply Forall_map, Forall_map. eapply Forall_impl; [|exact Hrows].
  intros row [Hrow _]. rewrite !length_map. exact Hrow.
Qed.

Lemma tensor_shape_app c1 c2 h w (x y : tensor) :
  tensor_shape c1 h w x -> tensor_shape c2 h w y ->
  tensor_shape (c1 + c2) h w (x ++ y).
Proof.
  intros [L1 F1] [L2 F2]. split; [rewrite length_app; lia|].
  apply Forall_app. split; assumption.
Qed.

Lemma tensor_shape_dims c h w (t : tensor) :
  tensor_shape c h w t -> 1 <= c -> 1 <= h -> height t = h /\ width t = w.
Proof.
  intros [L F] Hc Hh. unfold height, width.
  destruct t as [|plane t]; [cbn in L; lia|]. cbn [hd].
  apply Forall_inv in F. destruct F as [Hp Hr].
  split; [exact Hp|].
  destruct plane as [|row plane]; [cbn in Hp; lia|]. cbn [hd].
  apply Forall_inv in Hr. exact Hr.
Qed.

Lemma crop_shape c h w top left size (t : tensor) :
  tensor_shape c h w t -> top + size <= h -> left + size <= w ->
  tensor_shape c size size (crop top left size size t).
Proof.
  intros [L F] Ht Hl. unfold crop. split; [rewrite length_map; exact L|].
  apply Forall_map. eapply Forall_impl; [|exact F].
  intros plane [Hp Hr]. rewrite length_map, length_firstn, length_skipn.
  split; [lia|].
  apply Forall_map, Forall_firstn, Forall_skipn.
  eapply Forall_impl; [|exact Hr].
  intros row Hrow. cbv beta in Hrow |- *.
  rewrite length_firstn, length_skipn. lia.
Qed.

Lemma hflip_shape c h w (t : tensor) :
  tensor_shape c h w t -> tensor_shape c h w (hflip t).
Proof.
  intros [L F]. unfold hflip. split; [rewrite length_map; exact L|].
  apply Forall_map. eapply Forall_impl; [|exact F].
  intros plane [Hp Hr]. rewrite length_map. split; [exact Hp|].
  apply Forall_map. eapply Forall_impl; [|exact Hr].
  intros row Hrow. rewrite length_rev. exact Hrow.
Qed.

Lemma crop_flip_shape c h w top left size b (t : tensor) :
  tensor_shape c h w t -> top + size <= h -> left + size <= w ->
  tensor_shape c size size (crop_flip top left size b t).
Proof.
  intros Hs Ht Hl. unfold crop_flip.
  destruct b; [apply hflip_shape|]; eapply crop_shape; eassumption.
Qed.

Lemma crop_whole c h w (t : tensor) :
  tensor_shape c h w t -> crop 0 0 h w t = t.
Proof.
  intros [_ F]. unfold crop. rewrite <- (map_id t) at 2.
  apply map_ext_in. intros plane Hin. rewrite Forall_forall in F.
  destruct (F plane Hin) as [Hp Hr]. cbn [skipn].
  rewrite firstn_all2 by lia. rewrite <- (map_id plane) at 2.
  apply map_ext_in. intros row Hrow. rewrite Forall_forall in Hr.
  cbn [skipn]. apply firstn_all2. rewrite (Hr row Hrow). lia.
Qed.

Lemma torch_rand_lt_run (p : Q) (w : world) :
  torch_rand_lt p w = (Ok (flip_draw p w), torch_advance w).
Proof. reflexivity. Qed.

Lemma unit_draw_bounds (k : nat) :
  (0 <= inject_Z (Z.of_nat (k mod 2 ^ 24)) / inject_Z (2 ^ 24))%Q /\
  (inject_Z (Z.of_nat (k mod 2 ^ 24)) / inject_Z (2 ^ 24) < 1)%Q.
Proof.
  assert (Hk : k mod 2 ^ 24 < 2 ^ 24)
    by (apply Nat.mod_upper_bound, Nat.pow_nonzero; discriminate).
  assert (Hz : (0 <= Z.of_nat (k mod 2 ^ 24) < 2 ^ 24)%Z).
  { split; [apply Nat2Z.is_nonneg|].
    apply Nat2Z.inj_lt in Hk. rewrite Nat2Z.inj_pow in Hk. exact Hk. }
  generalize dependent (Z.of_nat (k mod 2 ^ 24)). intros z Hz.
  assert (Hpos : (0 < inject_Z (2 ^ 24))%Q) by reflexivity.
  split.
  - apply Qle_shift_div_l; [exact Hpos|]. rewrite Qmult_0_l.
    change 0%Q with (inject_Z 0). rewrite <- Zle_Qle. lia.
  - apply Qlt_shift_div_r; [exact Hpos|]. rewrite Qmult_1_l.
    rewrite <- Zlt_Qlt. lia.
Qed.

(** The flip probability at its ends: with [flip_prob <= 0] the next draw
    never flips, with [flip_prob >= 1] it always does. *)
Lemma flip_draw_extremes (p : Q) (w : world) :
  ((p <= 0)%Q -> flip_draw p w = false) /\
  ((1 <= p)%Q -> flip_draw p w = true).
Proof.
  unfold flip_draw.
  destruct (unit_draw_bounds (torch_draws w (torch_pos w))) as [H0 H1].
  set (u := (inject_Z _ / inject_Z _)%Q) in *.
  split; intros Hp.
  - assert (Hle : (p <= u)%Q) by lra.
    apply Qle_bool_iff in Hle. rewrite Hle. reflexivity.
  - destruct (Qle_bool p u) eqn:E; [|reflexivity].
    apply Qle_bool_iff in E. lra.
Qed.

Section Windows.

Variable resample : nat -> pil_image -> pil_image.
Hypothesis resample_good : resample_ok resample.

Lemma both_shape r im0 im1 :
  tensor_shape (bands (mode im0) + bands (mode im1)) r r
    (resized_tensor resample r im0 ++ resized_tensor resample r im1).
Proof.
  apply tensor_shape_app; apply resized_tensor_full_shape, resample_good.
Qed.

(** The window that [RandomCrop] draws lies inside the resized images. *)
Lemma paired_transform_window mi ma cr fl im0 im1 w t0 t1 w' :
  paired_transform resample mi ma cr fl im0 im1 w = (Ok (t0, t1), w') ->
  exists r top left b,
    mi <= r <= ma /\ top + cr <= r /\ left + cr <= r /\
    chunk2 (crop_flip top left cr b (resized_tensor resample r im0) ++
            crop_flip top left cr b (resized_tensor resample r im1))
      = Ok (t0, t1).
Proof.
  unfold paired_transform. intros H.
  apply bind_ok in H. destruct H as (r & w1 & Hr & H).
  apply torch_randint_ok in Hr. destruct Hr as [Hr _].
  apply bind_ok in H. destruct H as (i0 & w2 & Hi0 & H).
  apply lift_result_ok in Hi0. destruct Hi0 as [Hi0 ->].
  apply bind_ok in H. destruct H as (i1 & w3 & Hi1 & H).
  apply lift_result_ok in Hi1. destruct Hi1 as [Hi1 ->].
  unfold Image_resize in Hi0, Hi1.
  destruct (Nat.eqb_spec r 0) as [|Hpos]; [discriminate|].
  inversion Hi0; subst i0. inversion Hi1; subst i1. clear Hi0 Hi1.
  apply bind_ok in H. destruct H as (a0 & w4 & Ha0 & H).
  apply lift_result_ok in Ha0. destruct Ha0 as [Ha0 ->].
  apply bind_ok in H. destruct H as (a1 & w5 & Ha1 & H).
  apply lift_result_ok in Ha1. destruct Ha1 as [Ha1 ->].
  apply to_tensor_ok in Ha0, Ha1. subst a0 a1.
  apply bind_ok in H. destruct H as (both & w6 & Hcat & H).
  apply lift_result_ok in Hcat. destruct Hcat as [Hcat ->].
  unfold torch_cat in Hcat.
  destruct (_ && _) in Hcat; [|discriminate]. inversion Hcat; subst both.
  apply bind_ok in H. destruct H as (cropped & w7 & Hcrop & H).
  apply RandomCrop_ok in Hcrop. destruct Hcrop as (top & left & -> & Htop & Hleft).
  destruct (tensor_shape_dims _ r r _ (both_shape r im0 im1)) as [Hh Hw];
    [pose proof (bands_pos (mode im0)); lia | lia |].
  rewrite Hh in Htop. rewrite Hw in Hleft.
  apply bind_ok in H. destruct H as (flipped & w8 & Hflip & H).
  unfold RandomHorizontalFlip in Hflip.
  rewrite (bind_run_ok _ _ _ _ _ (torch_rand_lt_run fl w7)) in Hflip.
  inversion Hflip; subst flipped w8. clear Hflip.
  apply lift_result_ok in H. destruct H as [H _].
  exists r, top, left, (flip_draw fl w7).
  split; [lia|]. split; [exact Htop|]. split; [exact Hleft|].
  rewrite <- crop_flip_app. exact H.
Qed.

Lemma chunk2_shape c h w (t t0 t1 : tensor) :
  tensor_shape c h w t -> chunk2 t = Ok (t0, t1) ->
  exists c0 c1, c0 + c1 = c /\ tensor_shape c0 h w t0 /\ tensor_shape c1 h w t1.
Proof.
  intros [L F] H. unfold chunk2 in H.
  destruct (channels t <? 2); [discriminate|]. inversion H; subst t0 t1.
  exists (List.length (firstn ((channels t + 1) / 2) t)),
         (List.length (skipn ((channels t + 1) / 2) t)).
  split; [rewrite <- length_app, firstn_skipn; exact L|].
  split; (split; [reflexivity|]); [apply Forall_firstn | apply Forall_skipn];
    exact F.
Qed.

Lemma paired_transform_shapes mi ma cr fl im0 im1 w t0 t1 w' :
  paired_transform resample mi ma cr fl im0 im1 w = (Ok (t0, t1), w') ->
  exists c0 c1,
    c0 + c1 = bands (mode im0) + bands (mode im1) /\
    tensor_shape c0 cr cr t0 /\ tensor_shape c1 cr cr t1 /\
    (mode im0 = mode im1 -> c0 = bands (mode im0) /\ c1 = bands (mode im0)).
Proof.
  intros H. apply paired_transform_window in H.
  destruct H as (r & top & left & b & Hr & Htop & Hleft & Hchunk).
  pose proof (crop_flip_shape _ r r top left cr b _
                (resized_tensor_full_shape resample r im0 resample_good)
                Htop Hleft) as S0.
  pose proof (crop_flip_shape _ r r top left cr b _
                (resized_tensor_full_shape resample r im1 resample_good)
                Htop Hleft) as S1.
  destruct (chunk2_shape _ cr cr _ t0 t1 (tensor_shape_app _ _ _ _ _ _ S0 S1) Hchunk)
    as (c0 & c1 & Hsum & T0 & T1).
  exists c0, c1. do 3 (split; [assumption|]).
  intros Hmode. rewrite chunk2_app in Hchunk.
  - inversion Hchunk; subst t0 t1.
    destruct T0 as [L0 _], T1 as [L1 _], S0 as [M0 _], S1 as [M1 _].
    rewrite <- Hmode in M1. split; congruence.
  - unfold channels. destruct S0 as [-> _], S1 as [-> _]. rewrite Hmode. reflexivity.
  - unfold channels. destruct S0 as [-> _]. apply bands_pos.
Qed.

(** With one resolution that is also the crop size, nothing is cut; the
    pair is the two resized images, mirrored or not by the one draw. *)
Lemma paired_transform_whole r fl im0 im1 w :
  0 < r -> mode im0 = mode im1 -> mode im0 <> ModeL ->
  paired_transform resample r r r fl im0 im1 w =
  (Ok (if flip_draw fl (torch_advance w)
       then (hflip (resized_tensor resample r im0),
             hflip (resized_tensor resample r im1))
       else (resized_tensor resample r im0, resized_tensor resample r im1)),
   torch_advance (torch_advance w)).
Proof.
  intros Hr Hmode Hcol. unfold paired_transform.
  erewrite bind_run_ok by (apply torch_randint_run; lia).
  replace (r + _ mod (r + 1 - r)) with r
    by (replace (r + 1 - r) with 1 by lia; rewrite Nat.mod_1_r; lia).
  unfold Image_resize. destruct (Nat.eqb_spec r 0) as [|_]; [lia|].
  unfold lift_result at 1 2. cbn [bind].
  rewrite !to_tensor_run
    by (rewrite (resample_keeps_mode resample resample_good); congruence).
  unfold lift_result at 1 2. cbn [bind].
  pose proof (both_shape r im0 im1) as Hboth.
  destruct (resized_tensor_shape resample resample_good r im0 Hr) as (Hc0 & Hh0 & Hw0).
  destruct (resized_tensor_shape resample resample_good r im1 Hr) as (Hc1 & Hh1 & Hw1).
  unfold torch_cat. rewrite Hh0, Hh1, Hw0, Hw1, !Nat.eqb_refl.
  unfold lift_result at 1. cbn [andb bind].
  destruct (tensor_shape_dims _ r r _ Hboth) as [Hh Hw];
    [pose proof (bands_pos (mode im0)); lia | lia |].
  set (both := resized_tensor resample r im0 ++ resized_tensor resample r im1) in *.
  assert (Hcrop : RandomCrop r both (torch_advance w) = (Ok both, torch_advance w)).
  { unfold RandomCrop. rewrite Hh, Hw, Nat.ltb_irrefl, Nat.eqb_refl.
    cbn [orb andb]. rewrite (crop_whole _ r r _ Hboth). reflexivity. }
  rewrite (bind_run_ok _ _ _ _ _ Hcrop).
  assert (Hflip : RandomHorizontalFlip fl both (torch_advance w)
                  = (Ok (if flip_draw fl (torch_advance w) then hflip both else both),
                     torch_advance (torch_advance w))) by reflexivity.
  rewrite (bind_run_ok _ _ _ _ _ Hflip).
  unfold lift_result, both.
  destruct (flip_draw fl (torch_advance w)).
  - unfold hflip at 1. rewrite map_app.
    fold (hflip (resized_tensor resample r im0)).
    fold (hflip (resized_tensor resample r im1)).
    rewrite chunk2_app; [reflexivity | |];
      unfold channels, hflip; rewrite ?length_map;
      fold (channels (resized_tensor resample r im0));
      fold (channels (resized_tensor resample r im1));
      rewrite ?Hc0, ?Hc1, ?Hmode; [reflexivity | apply bands_pos].
  - rewrite chunk2_app; [reflexivity | |];
      rewrite ?Hc0, ?Hc1, ?Hmode; [reflexivity | apply bands_pos].
Qed.

End Windows.

(** X10. Every tensor that is returned has the size that was asked for: the
    two tensors of a training sample are [crop_res] by [crop_res], with
    the bands of both images between them (and the bands of each when the
    two images have one mode); the tensor of an evaluation sample is [res]
    by [res] with the bands of the source image. *)
Theorem getitem_output_shapes (resample : nat -> pil_image -> pil_image) :
  resample_ok resample ->
  (forall index (s : state EpicEditDataset) v s',
      EpicEditDataset_getitem resample index s = (Ok v, s') ->
      exists entry im0 im1 t0 t1 c0 c1,
        pyindex (epic_metadata (self s)) index = Ok entry /\
        disk (env s) (fst (frame_paths (epic_basedir (self s)) entry))
          = Some (Jpeg im0) /\
        disk (env s) (snd (frame_paths (epic_basedir (self s)) entry))
          = Some (Jpeg im1) /\
        v = training_sample t0 t1 (narration entry) /\
        c0 + c1 = bands (mode im0) + bands (mode im1) /\
        tensor_shape c0 (epic_crop_res (self s)) (epic_crop_res (self s)) t0 /\
        tensor_shape c1 (epic_crop_res (self s)) (epic_crop_res (self s)) t1 /\
        (mode im0 = mode im1 -> c0 = bands (mode im0) /\ c1 = bands (mode im0))) /\
  (forall i (s : state EditDataset) v s',
      EditDataset_getitem resample i s = (Ok v, s') ->
      exists name seeds seed prompt im0 im1 t0 t1 c0 c1,
        pyindex (edit_seeds (self s)) i = Ok (name, seeds) /\
        In seed seeds /\
        disk (env s) (before_path (edit_path (self s)) name seed)
          = Some (Jpeg im0) /\
        disk (env s) (after_path (edit_path (self s)) name seed)
          = Some (Jpeg im1) /\
        v = training_sample t0 t1 prompt /\
        c0 + c1 = bands (mode im0) + bands (mode im1) /\
        tensor_shape c0 (edit_crop_res (self s)) (edit_crop_res (self s)) t0 /\
        tensor_shape c1 (edit_crop_res (self s)) (edit_crop_res (self s)) t1 /\
        (mode im0 = mode im1 -> c0 = bands (mode im0) /\ c1 = bands (mode im0))) /\
  (forall i (s : state EditDatasetEval) v s',
      EditDatasetEval_getitem resample i s = (Ok v, s') ->
      exists name seeds seed im0 t input_prompt edit output_prompt,
        pyindex (eval_seeds (self s)) i = Ok (name, seeds) /\
        In seed seeds /\
        disk (env s) (before_path (eval_path (self s)) name seed)
          = Some (Jpeg im0) /\
        v = eval_sample t input_prompt edit output_prompt /\
        tensor_shape (bands (mode im0)) (eval_res (self s)) (eval_res (self s)) t).
Proof.
  intros Hok. split; [|split].
  - intros index s v s' H. apply EpicEditDataset_getitem_ok in H.
    destruct H as (entry & im0 & im1 & t0 & t1 & Hidx & H0 & H1 & Hpt & ->).
    destruct (paired_transform_shapes resample Hok _ _ _ _ _ _ _ _ _ _ Hpt)
      as (c0 & c1 & Hsum & S0 & S1 & Hm).
    exists entry, im0, im1, t0, t1, c0, c1.
    do 7 (split; [assumption || reflexivity|]). exact Hm.
  - intros i s v s' H. apply EditDataset_getitem_ok in H.
    destruct H as (name & seeds & seed & fields & prompt & im0 & im1 & t0 & t1
                   & Hidx & Hin & _ & _ & H0 & H1 & Hpt & ->).
    destruct (paired_transform_shapes resample Hok _ _ _ _ _ _ _ _ _ _ Hpt)
      as (c0 & c1 & Hsum & S0 & S1 & Hm).
    exists name, seeds, seed, prompt, im0, im1, t0, t1, c0, c1.
    do 8 (split; [assumption || reflexivity|]). exact Hm.
  - intros i s v s' H. apply EditDatasetEval_getitem_ok in H.
    destruct H as (name & seeds & seed & fields & e & ip & op & im0
                   & Hidx & Hin & _ & _ & _ & _ & H0 & _ & -> & _).
    exists name, seeds, seed, im0,
           (resized_tensor resample (eval_res (self s)) im0), ip, e, op.
    do 4 (split; [assumption || reflexivity|]).
    apply resized_tensor_full_shape, Hok.
Qed.

Lemma getitem_output_shapes_example :
  exists t0 t1 prompt,
    fst (EpicEditDataset_getitem nearest 0 (example_state example_epic 3))
      = Ok (training_sample t0 t1 prompt) /\
    tensor_shape 3 1 1 t0 /\ tensor_shape 3 1 1 t1.
Proof.
  run_ok (EpicEditDataset_getitem nearest 0 (example_state example_epic 3)) E.
  destruct (getitem_output_shapes nearest nearest_ok) as (H & _).
  destruct (H _ _ _ _ E)
    as (entry & im0 & im1 & t0 & t1 & c0 & c1
        & Hidx & H0 & H1 & Hv & _ & S0 & S1 & Hm).
  vm_compute in Hidx. inversion Hidx; subst entry. clear Hidx.
  vm_compute in H0. inversion H0; subst im0. clear H0.
  vm_compute in H1. inversion H1; subst im1. clear H1.
  destruct (Hm eq_refl) as [-> ->].
  exists t0, t1, "open door"%string. rewrite E. cbn [fst]. rewrite Hv.
  split; [reflexivity|]. split; assumption.
Defined.

(** X11. For two colour images of one mode and with the default sizes
    ([min_resize_res = max_resize_res = crop_res]) nothing is cut away, and
    the flip probability decides alone: at [flip_prob <= 0], the default,
    a training sample holds the two resized and normalised images as they
    are; at [flip_prob >= 1] it holds both of them mirrored. *)
Theorem getitem_without_augmentation (resample : nat -> pil_image -> pil_image) :
  resample_ok resample ->
  (forall index (s : state EpicEditDataset) entry im0 im1 r,
      pyindex (epic_metadata (self s)) index = Ok entry ->
      disk (env s) (fst (frame_paths (epic_basedir (self s)) entry))
        = Some (Jpeg im0) ->
      disk (env s) (snd (frame_paths (epic_basedir (self s)) entry))
        = Some (Jpeg im1) ->
      mode im0 = mode im1 -> mode im0 <> ModeL ->
      0 < r ->
      epic_min_resize_res (self s) = r -> epic_max_resize_res (self s) = r ->
      epic_crop_res (self s) = r ->
      ((epic_flip_prob (self s) <= 0)%Q ->
       fst (EpicEditDataset_getitem resample index s)
       = Ok (training_sample (resized_tensor resample r im0)
               (resized_tensor resample r im1) (narration entry))) /\
      ((1 <= epic_flip_prob (self s))%Q ->
       fst (EpicEditDataset_getitem resample index s)
       = Ok (training_sample (hflip (resized_tensor resample r im0))
               (hflip (resized_tensor resample r im1)) (narration entry)))) /\
  (forall i (s : state EditDataset) name seeds fields prompt r,
      pyindex (edit_seeds (self s)) i = Ok (name, seeds) ->
      seeds <> [] ->
      disk (env s) (prompt_path (edit_path (self s)) name)
        = Some (PromptJson fields) ->
      dict_get fields "edit" = Ok prompt ->
      (forall seed, In seed seeds ->
         exists im0 im1,
           disk (env s) (before_path (edit_path (self s)) name seed)
             = Some (Jpeg im0) /\
           disk (env s) (after_path (edit_path (self s)) name seed)
             = Some (Jpeg im1) /\
           mode im0 = mode im1 /\ mode im0 <> ModeL) ->
      0 < r ->
      edit_min_resize_res (self s) = r -> edit_max_resize_res (self s) = r ->
      edit_crop_res (self s) = r ->
      exists seed im0 im1,
        In seed seeds /\
        disk (env s) (before_path (edit_path (self s)) name seed)
          = Some (Jpeg im0) /\
        disk (env s) (after_path (edit_path (self s)) name seed)
          = Some (Jpeg im1) /\
        ((edit_flip_prob (self s) <= 0)%Q ->
         fst (EditDataset_getitem resample i s)
         = Ok (training_sample (resized_tensor resample r im0)
                 (resized_tensor resample r im1) prompt)) /\
        ((1 <= edit_flip_prob (self s))%Q ->
         fst (EditDataset_getitem resample i s)
         = Ok (training_sample (hflip (resized_tensor resample r im0))
                 (hflip (resized_tensor resample r im1)) prompt))).
Proof.
  intros Hok. split.
  - intros index s entry im0 im1 r Hidx H0 H1 Hmode Hcol Hr Hmi Hma Hcr.
    pose proof (paired_transform_whole resample Hok r (epic_flip_prob (self s))
                  im0 im1
                  (log_open (snd (frame_paths (epic_basedir (self s)) entry))
                     (log_open (fst (frame_paths (epic_basedir (self s)) entry))
                        (env s)))
                  Hr Hmode Hcol) as Hrun.
    rewrite <- Hmi in Hrun at 1. rewrite <- Hma in Hrun at 1.
    rewrite <- Hcr in Hrun at 1.
    match type of Hrun with
    | context [flip_draw ?p ?w] =>
        destruct (flip_draw_extremes p w) as [Hnever Halways]
    end.
    split; intros Hp;
      [rewrite (Hnever Hp) in Hrun | rewrite (Halways Hp) in Hrun];
      rewrite (EpicEditDataset_getitem_run resample index s entry im0 im1 _ _ _
                 Hidx H0 H1 Hrun); reflexivity.
  - intros i s name seeds fields prompt r Hidx Hne Hp He Hfiles Hr Hmi Hma Hcr.
    destruct (pick_seed_run seeds (env s) Hne) as (seed & Hin & Hseed).
    destruct (Hfiles seed Hin) as (im0 & im1 & H0 & H1 & Hmode & Hcol).
    exists seed, im0, im1. do 3 (split; [assumption|]).
    pose proof (paired_transform_whole resample Hok r (edit_flip_prob (self s))
                  im0 im1
                  (log_open (after_path (edit_path (self s)) name seed)
                     (log_open (before_path (edit_path (self s)) name seed)
                        (log_open (prompt_path (edit_path (self s)) name)
                           (torch_advance (env s)))))
                  Hr Hmode Hcol) as Hrun.
    rewrite <- Hmi in Hrun at 1. rewrite <- Hma in Hrun at 1.
    rewrite <- Hcr in Hrun at 1.
    match type of Hrun with
    | context [flip_draw ?p ?w] =>
        destruct (flip_draw_extremes p w) as [Hnever Halways]
    end.
    split; intros Hfl;
      [rewrite (Hnever Hfl) in Hrun | rewrite (Halways Hfl) in Hrun];
      rewrite (EditDataset_getitem_run resample i s name seeds seed fields prompt
                 im0 im1 _ _ _ Hidx Hseed Hp He H0 H1 Hrun); reflexivity.
Qed.

Lemma getitem_without_augmentation_example :
  fst (EpicEditDataset_getitem nearest 0
         (example_state
            {| epic_basedir := "epic"; epic_min_resize_res := 2;
               epic_max_resize_res := 2; epic_crop_res := 2;
               epic_flip_prob := 0; epic_info := InfoJson;
               epic_pre_metadata := example_rows;
               epic_metadata := map action_of_row example_rows |} 9))
  = Ok (training_sample (resized_tensor nearest 2 before_img)
          (resized_tensor nearest 2 after_img) "open door").
Proof.
  destruct (getitem_without_augmentation nearest nearest_ok) as [H _].
  refine (proj1 (H 0%Z _ {| part := "P01"; clip := "P01_01"; start := 8;
                            stop := 202; narration := "open door" |}
                   before_img after_img 2 _ _ _ _ _ _ _ _ _) _).
  - vm_compute; reflexivity.
  - vm_compute; reflexivity.
  - vm_compute; reflexivity.
  - reflexivity.
  - discriminate.
  - lia.
  - reflexivity.
  - reflexivity.
  - reflexivity.
  - cbn. unfold Qle. simpl. lia.
Defined.

(** ** Frame names do not collide *)

Lemma digits_fuel_length_lower (fuel : nat) (n : N) (k : nat) :
  (10 ^ N.of_nat k <= n)%N -> (n < 2 ^ N.of_nat fuel)%N ->
  S k <= List.length (digits_fuel fuel n).
Proof.
  revert n k. induction fuel as [|f IH]; intros n k Hk Hn.
  - cbn in Hn. assert (10 ^ N.of_nat k <> 0)%N by (apply N.pow_nonzero; lia). lia.
  - cbn [digits_fuel]. destruct (N.ltb_spec n 10) as [Hlt|Hge].
    + destruct k as [|k]; [cbn; lia|].
      rewrite Nat2N.inj_succ, N.pow_succ_r' in Hk.
      assert (10 ^ N.of_nat k <> 0)%N by (apply N.pow_nonzero; lia). lia.
    + rewrite length_app. cbn [List.length].
      destruct k as [|k]; [lia|].
      assert (S k <= List.length (digits_fuel f (n / 10))); [|lia].
      apply IH.
      * rewrite Nat2N.inj_succ, N.pow_succ_r' in Hk.
        apply N.div_le_lower_bound; lia.
      * rewrite Nat2N.inj_succ, N.pow_succ_r' in Hn.
        apply N.Div0.div_lt_upper_bound; lia.
Qed.

Lemma index_to_img_fn_nonneg (index : Z) :
  (0 <= index)%Z ->
  _index_to_img_fn index
  = ("frame_" ++ (zeros (10 - List.length (digits (Z.to_N index)))
                  ++ str_of_N (Z.to_N index)) ++ ".jpg")%string.
Proof.
  intros H. unfold _index_to_img_fn, format_0d, LENGTH_FRAME_ID.
  destruct (Z.ltb_spec index 0); [lia|].
  rewrite Zabs2N.abs_N_nonneg by exact H.
  cbn [String.append String.length]. rewrite Nat.sub_0_r.
  unfold str_of_N at 1. rewrite length_string_of_list_ascii. reflexivity.
Qed.

Lemma string_app_inv_tail (a b c : string) :
  (a ++ c)%string = (b ++ c)%string -> a = b.
Proof.
  intros H. apply (f_equal list_ascii_of_string) in H.
  rewrite !list_ascii_of_string_app in H. apply app_inv_tail in H.
  apply (f_equal string_of_list_ascii) in H.
  rewrite !string_of_list_ascii_of_string in H. exact H.
Qed.

(** X12. Two frames never share a file name: on indices that are not
    negative [_index_to_img_fn] is injective. An index of more than ten
    digits is not cut down to ten: its name holds all of its digits. *)
Theorem frame_names_do_not_collide :
  (forall i j : Z,
      (0 <= i)%Z -> (0 <= j)%Z ->
      _index_to_img_fn i = _index_to_img_fn j -> i = j) /\
  (forall index : Z,
      (10 ^ 10 <= index)%Z ->
      _index_to_img_fn index = ("frame_" ++ str_of_Z index ++ ".jpg")%string).
Proof.
  split.
  - intros i j Hi Hj H.
    rewrite (index_to_img_fn_nonneg i Hi), (index_to_img_fn_nonneg j Hj) in H.
    cbn [String.append] in H. injection H as H.
    apply string_app_inv_tail in H.
    apply (f_equal (fun s => decimal_value (list_ascii_of_string s))) in H.
    cbv beta in H. unfold str_of_N in H.
    rewrite !list_ascii_of_string_app, !list_ascii_of_string_of_list_ascii in H.
    rewrite !decimal_value_zeros, !digits_value in H. lia.
  - intros index Hi.
    change (10 ^ 10)%Z with 10000000000%Z in Hi.
    rewrite (index_to_img_fn_nonneg index) by lia.
    assert (Hlen : 11 <= List.length (digits (Z.to_N index))).
    { unfold digits. apply digits_fuel_length_lower.
      - change (10 ^ N.of_nat 10)%N with 10000000000%N. lia.
      - rewrite Nat2N.inj_succ, N2Nat.id. apply N.log2_spec. lia. }
    replace (10 - List.length (digits (Z.to_N index))) with 0 by lia.
    unfold str_of_Z. destruct (Z.ltb_spec index 0); [lia|].
    rewrite Zabs2N.abs_N_nonneg by lia. reflexivity.
Qed.

Lemma frame_names_do_not_collide_example :
  _index_to_img_fn 12345678901 = "frame_12345678901.jpg"%string.
Proof.
  destruct frame_names_do_not_collide as [_ H].
  rewrite (H 12345678901%Z) by (vm_compute; discriminate). reflexivity.
Defined.

(** ** Evaluation does not depend on the generators *)

Lemma respects_pure {S A} (R : S -> S -> Prop) (r : result A) :
  respects R (lift_result r).
Proof. intros s1 s2 H. split; [reflexivity | exact H]. Qed.

Lemma respects_ret {S A} (R : S -> S -> Prop) (a : A) : respects R (ret a).
Proof. intros s1 s2 H. split; [reflexivity | exact H]. Qed.

Lemma respects_bind {S A B} (R : S -> S -> Prop) (c : M S A) (k : A -> M S B) :
  respects R c ->
  (forall a, (exists s, fst (c s) = Ok a) -> respects R (k a)) ->
  respects R (bind c k).
Proof.
  intros Hc Hk s1 s2 H. unfold bind.
  destruct (Hc s1 s2 H) as [E HR].
  assert (Hex : forall a, fst (c s1) = Ok a -> exists s, fst (c s) = Ok a)
    by (intros a Ha; exists s1; exact Ha).
  destruct (c s1) as [[a1|e1] s1'], (c s2) as [[a2|e2] s2'];
    cbn [fst snd] in *; try discriminate.
  - inversion E; subst a2. apply (Hk a1 (Hex a1 eq_refl)), HR.
  - inversion E; subst e2. split; [reflexivity | exact HR].
Qed.

Lemma respects_liftW {O A} (c : M world A) :
  respects same_disk c ->
  respects (fun s1 s2 : state O => same_disk (env s1) (env s2)) (liftW c).
Proof.
  intros H s1 s2 HR. unfold liftW. specialize (H (env s1) (env s2) HR).
  destruct (c (env s1)), (c (env s2)). exact H.
Qed.

Lemma respects_open (p : string) : respects same_disk (open_ p).
Proof.
  intros w1 w2 H. rewrite !open_run. unfold same_disk in *. cbn [fst snd].
  rewrite H. split; reflexivity || exact H.
Qed.

Lemma respects_json_load_prompt (p : string) :
  respects same_disk (json_load_prompt p).
Proof.
  unfold json_load_prompt. apply respects_bind; [apply respects_open|].
  intros f _ w1 w2 H. destruct f; split; reflexivity || exact H.
Qed.

Lemma respects_Image_open (p : string) : respects same_disk (Image_open p).
Proof.
  unfold Image_open. apply respects_bind; [apply respects_open|].
  intros f _ w1 w2 H. destruct f; split; reflexivity || exact H.
Qed.

Lemma respects_randint_single (res : nat) :
  respects same_disk (torch_randint res (res + 1)).
Proof.
  intros w1 w2 H. rewrite !torch_randint_single. split; [reflexivity | exact H].
Qed.

Lemma respects_pick_single_seed (seeds : list Z) :
  List.length seeds = 1 -> respects same_disk (pick_seed seeds).
Proof.
  intros Hlen w1 w2 H. unfold pick_seed. rewrite Hlen.
  rewrite !(bind_run_ok _ _ _ _ _ (torch_randint_single 0 _)).
  split; [reflexivity | exact H].
Qed.

Lemma bind_gets {S A B} (f : S -> A) (k : A -> M S B) (s : S) :
  bind (gets f) k s = k (f s) s.
Proof. reflexivity. Qed.

(** X13. When every sample has a single seed, what
    [EditDatasetEval.__getitem__] returns or raises is decided by the
    object and the files alone: two calls on equal objects over equal
    disks give the same outcome, whatever the states of the generators
    and whatever was opened before. *)
Theorem eval_getitem_is_reproducible (resample : nat -> pil_image -> pil_image) :
  forall i (s1 s2 : state EditDatasetEval),
    self s1 = self s2 ->
    disk (env s1) = disk (env s2) ->
    (forall name seeds,
        In (name, seeds) (eval_seeds (self s1)) -> List.length seeds = 1) ->
    fst (EditDatasetEval_getitem resample i s1)
    = fst (EditDatasetEval_getitem resample i s2).
Proof.
  intros i s1 s2 Hself Hdisk Hone.
  unfold EditDatasetEval_getitem, get_self.
  rewrite (bind_gets _ _ s1), (bind_gets _ _ s2), <- Hself.
  set (R := fun a b : state EditDatasetEval => same_disk (env a) (env b)).
  match goal with
  | |- fst (?c s1) = fst (?c s2) => enough (Hc : respects R c) by apply (Hc s1 s2 Hdisk)
  end.
  apply respects_bind; [apply respects_pure|].
  intros [name seeds] [s Hs]. cbv zeta.
  unfold lift_result in Hs. cbn [fst] in Hs. apply pyindex_ok in Hs.
  destruct Hs as [_ Hin]. specialize (Hone name seeds Hin).
  apply respects_bind;
    [apply respects_liftW, respects_pick_single_seed, Hone|].
  intros seed _.
  apply respects_bind; [apply respects_liftW, respects_json_load_prompt|].
  intros fields _.
  do 3 (apply respects_bind; [apply respects_pure | intros ? _]).
  apply respects_bind; [apply respects_liftW, respects_Image_open|].
  intros im0 _.
  apply respects_bind; [apply respects_liftW, respects_randint_single|].
  intros r _.
  do 2 (apply respects_bind; [apply respects_pure | intros ? _]).
  apply respects_ret.
Qed.

Lemma eval_getitem_is_reproducible_example :
  fst (EditDatasetEval_getitem nearest 0 (example_state example_eval 0))
  = fst (EditDatasetEval_getitem nearest 0 (example_state example_eval 77)).
Proof.
  apply eval_getitem_is_reproducible; [reflexivity | reflexivity |].
  intros name seeds Hin. cbn in Hin.
  repeat (destruct Hin as [Hin|Hin]; [inversion Hin; reflexivity|]).
  destruct Hin.
Defined.

(** ** The files of a training sample *)

Lemma EditDataset_getitem_opens (resample : nat -> pil_image -> pil_image) i :
  opens_only (fun s : state EditDataset => opened (env s))
    (fun p => has_suffix "prompt.json" p \/ has_suffix "_0.jpg" p \/
              has_suffix "_1.jpg" p)
    (EditDataset_getitem resample i).
Proof.
  unfold EditDataset_getitem, get_self.
  apply opens_only_bind; [apply opens_only_preserves, preserves_gets|].
  intros this.
  apply opens_only_bind; [apply opens_only_preserves, preserves_lift_result|].
  intros [name seeds]. cbv zeta.
  apply opens_only_bind;
    [apply opens_only_liftW, opens_only_preserves, pick_seed_frame|].
  intros seed.
  apply opens_only_bind.
  { apply opens_only_liftW, opens_only_json_load_prompt. left.
    apply has_suffix_Path; [reflexivity | cbn; lia | exists EmptyString; reflexivity]. }
  intros fields.
  apply opens_only_bind; [apply opens_only_preserves, preserves_lift_result|].
  intros prompt.
  apply opens_only_bind.
  { apply opens_only_liftW, opens_only_Image_open. right. left.
    apply has_suffix_Path; [reflexivity | cbn; lia | apply has_suffix_app]. }
  intros image_0.
  apply opens_only_bind.
  { apply opens_only_liftW, opens_only_Image_open. right. right.
    apply has_suffix_Path; [reflexivity | cbn; lia | apply has_suffix_app]. }
  intros image_1.
  apply opens_only_bind;
    [apply opens_only_liftW, opens_only_preserves, paired_transform_frame|].
  intros [t0 t1]. apply opens_only_preserves, preserves_ret.
Qed.

(** X14. [EditDataset.__getitem__] reads one sample: a call that returns has
    opened [prompt.json], then [{seed}_0.jpg], then [{seed}_1.jpg] of the
    sample at that index, for one of its seeds, and nothing else; a call
    that raises has opened no file of another kind. The manifest is not
    read again. *)
Theorem edit_getitem_reads_one_sample (resample : nat -> pil_image -> pil_image) :
  (forall i (s : state EditDataset) v s',
      EditDataset_getitem resample i s = (Ok v, s') ->
      exists name seeds seed,
        pyindex (edit_seeds (self s)) i = Ok (name, seeds) /\
        In seed seeds /\
        opened (env s') = opened (env s) ++
          [prompt_path (edit_path (self s)) name;
           before_path (edit_path (self s)) name seed;
           after_path (edit_path (self s)) name seed]) /\
  (forall i (s : state EditDataset),
      exists extra,
        opened (env (snd (EditDataset_getitem resample i s)))
          = opened (env s) ++ extra /\
        Forall (fun p => has_suffix "prompt.json" p \/ has_suffix "_0.jpg" p \/
                         has_suffix "_1.jpg" p) extra).
Proof.
  split.
  - intros i s v s' H. apply EditDataset_getitem_ok in H.
    destruct H as (name & seeds & seed & fields & prompt & im0 & im1 & t0 & t1
                   & Hidx & Hin & _ & _ & _ & _ & Hpt & _).
    exists name, seeds, seed. split; [exact Hidx|]. split; [exact Hin|].
    destruct (paired_transform_frame resample
                (edit_min_resize_res (self s)) (edit_max_resize_res (self s))
                (edit_crop_res (self s)) (edit_flip_prob (self s)) im0 im1)
      as [Hlog _].
    specialize (Hlog (log_open (after_path (edit_path (self s)) name seed)
                        (log_open (before_path (edit_path (self s)) name seed)
                           (log_open (prompt_path (edit_path (self s)) name)
                              (torch_advance (env s)))))).
    rewrite Hpt in Hlog. cbn [snd] in Hlog. rewrite Hlog.
    cbn [opened log_open torch_advance]. rewrite <- !app_assoc. reflexivity.
  - intros i s. apply EditDataset_getitem_opens.
Qed.

Lemma edit_getitem_reads_one_sample_example :
  opened (env (snd (EditDataset_getitem nearest 0 (example_state example_edit 0))))
  = ["data/s0/prompt.json"; "data/s0/7_0.jpg"; "data/s0/7_1.jpg"]%string.
Proof.
  run_ok (EditDataset_getitem nearest 0 (example_state example_edit 0)) E.
  destruct (edit_getitem_reads_one_sample nearest) as [H _].
  destruct (H _ _ _ _ E) as (name & seeds & seed & Hidx & Hin & Hlog).
  vm_compute in Hidx. inversion Hidx; subst name seeds. clear Hidx.
  destruct Hin as [<-|[]].
  rewrite E. cbn [snd]. rewrite Hlog. vm_compute. reflexivity.
Defined.

(** ** Splits built one after the other *)

Lemma epic_init_two_rows path split mi ma cr fl w info ra rb kept :
  valid_split split = true ->
  disk w (Path path "info.json") = Some info ->
  is_json info = true ->
  disk w (os_path_join path ["EPIC100_annotations.csv"%string])
    = Some (AnnotationsCsv [ra; rb]) ->
  split_slice split (decimal 1 2, decimal 1 2, f64_of_Z 0)
    (swap 1 (numpy_draws w (numpy_pos w) mod 2)
       [action_of_row ra; action_of_row rb]) = Ok kept ->
  EpicEditDataset_init path split (decimal 1 2, decimal 1 2, f64_of_Z 0) mi ma cr fl w =
  (Ok {| epic_basedir := path; epic_min_resize_res := mi;
         epic_max_resize_res := ma; epic_crop_res := cr;
         epic_flip_prob := fl; epic_info := info;
         epic_pre_metadata := [ra; rb]; epic_metadata := kept |},
   log_info (constructed_message split (List.length kept))
     (numpy_advance
        (log_open (os_path_join path ["EPIC100_annotations.csv"%string])
           (log_open (Path path "info.json") w)))).
Proof.
  intros Hv Hi Hj Hc Hk. unfold EpicEditDataset_init. rewrite Hv.
  replace (sums_to_one (decimal 1 2, decimal 1 2, f64_of_Z 0)) with true
    by (vm_compute; reflexivity).
  unfold assert_. cbn [bind ret].
  set (p1 := Path path "info.json") in *.
  set (p2 := os_path_join path ["EPIC100_annotations.csv"%string]) in *.
  assert (H1 : json_load p1 w = (Ok info, log_open p1 w)).
  { unfold json_load. erewrite bind_run_ok by (rewrite open_run, Hi; reflexivity).
    rewrite Hj. reflexivity. }
  rewrite (bind_run_ok _ _ _ _ _ H1).
  assert (H2 : pd_read_csv p2 (log_open p1 w)
               = (Ok [ra; rb], log_open p2 (log_open p1 w))).
  { unfold pd_read_csv.
    erewrite bind_run_ok
      by (rewrite open_run; cbn [disk log_open]; rewrite Hc; reflexivity).
    reflexivity. }
  rewrite (bind_run_ok _ _ _ _ _ H2).
  assert (H3 : np_random_shuffle (map action_of_row [ra; rb])
                 (log_open p2 (log_open p1 w))
               = (Ok (swap 1 (numpy_draws w (numpy_pos w) mod 2)
                        [action_of_row ra; action_of_row rb]),
                  numpy_advance (log_open p2 (log_open p1 w))))
    by reflexivity.
  rewrite (bind_run_ok _ _ _ _ _ H3).
  unfold logger_info, modify, lift_result, bind. rewrite Hk. reflexivity.
Qed.

(** X15. The shuffle is drawn anew at every construction, so splits built one
    after the other need not come from one order of the table. On a table
    of two rows with proportions (0.5, 0.5, 0), when the generator's next
    draw is odd and the one after it even, the train split and the val
    split built next both hold the first row, and the second row is in
    neither. *)
Theorem successive_epic_splits_can_overlap :
  forall path mi ma cr fl w info ra rb,
    disk w (Path path "info.json") = Some info ->
    is_json info = true ->
    disk w (os_path_join path ["EPIC100_annotations.csv"%string])
      = Some (AnnotationsCsv [ra; rb]) ->
    numpy_draws w (numpy_pos w) mod 2 = 1 ->
    numpy_draws w (S (numpy_pos w)) mod 2 = 0 ->
    exists train w1 val w2,
      EpicEditDataset_init path "train" (decimal 1 2, decimal 1 2, f64_of_Z 0)
        mi ma cr fl w = (Ok train, w1) /\
      EpicEditDataset_init path "val" (decimal 1 2, decimal 1 2, f64_of_Z 0)
        mi ma cr fl w1 = (Ok val, w2) /\
      epic_metadata train = [action_of_row ra] /\
      epic_metadata val = [action_of_row ra].
Proof.
  intros path mi ma cr fl w info ra rb Hi Hj Hc Hodd Heven.
  eexists _, _, _, _.
  split; [|split].
  - apply (epic_init_two_rows path "train" mi ma cr fl w info ra rb
             [action_of_row ra] eq_refl Hi Hj Hc).
    rewrite Hodd. vm_compute. reflexivity.
  - apply (epic_init_two_rows path "val" mi ma cr fl _ info ra rb
             [action_of_row ra] eq_refl); try assumption.
    cbn [numpy_draws numpy_pos numpy_advance log_open log_info].
    rewrite Heven. vm_compute. reflexivity.
  - split; reflexivity.
Qed.

Lemma successive_epic_splits_can_overlap_example :
  exists train w1 val w2,
    EpicEditDataset_init "epic" "train" (decimal 1 2, decimal 1 2, f64_of_Z 0) 256 256 256 0%Q
      counting_world = (Ok train, w1) /\
    EpicEditDataset_init "epic" "val" (decimal 1 2, decimal 1 2, f64_of_Z 0) 256 256 256 0%Q w1
      = (Ok val, w2) /\
    epic_metadata train = epic_metadata val /\
    List.length (epic_metadata train) = 1.
Proof.
  destruct (successive_epic_splits_can_overlap "epic" 256 256 256 0%Q
              counting_world InfoJson
              {| participant_id := "P01"; video_id := "P01_01"; start_frame := 8;
                 stop_frame := 202; row_narration := "open door" |}
              {| participant_id := "P01"; video_id := "P01_01"; start_frame := 262;
                 stop_frame := 370; row_narration := "turn on light" |}
              eq_refl eq_refl eq_refl eq_refl eq_refl)
    as (train & w1 & val & w2 & Ht & Hv & E1 & E2).
  exists train, w1, val, w2. split; [exact Ht|]. split; [exact Hv|].
  rewrite E1, E2. split; reflexivity.
Defined.
